(** * The collection-and-persistence core of the trend bot

    A shallow embedding of the retry decorator ([utils.py]), the trend store
    ([database.py]), the rate limiter and the cleaning step ([collectors.py])
    and the batch-insert loop ([main.py]), followed by the properties the
    specification states about them.

    Conventions of the embedding:
    - a Python [str] is a [string] whose characters are code points in the
      Latin-1 range (below 256); [len] counts characters, SQLite's [LENGTH]
      the characters before the first NUL;
    - a Python [float] is a rational ([Q]); [min] and [max] of two numbers
      are [Qmin] and [Qmax], which pick the same argument as Python does;
    - effects are explicit: a state-and-exception monad [M St A], a wall
      clock in the state, and [time.sleep] advancing that clock by the delay
      it is given (delays are not negative at any call site); the clock
      does not move during a call otherwise, time passes between calls;
    - a failure of the storage is an input: the state lists the fate of the
      coming [cursor.execute] calls. *)

From Stdlib Require Import ZArith QArith Qminmax Qround Qpower String Ascii List Lia Lqa.
From Stdlib Require Import DecimalString.
From stdpp Require Import base decidable option list gmap strings sorting.

Close Scope Q_scope.
Open Scope Z_scope.

(** ** Python primitives *)

Module Py.

(** [str.isspace] on the code points below 256. *)
Definition isspace (c : ascii) : bool :=
  let n := nat_of_ascii c in
  ((9 <=? n) && (n <=? 13) || (28 <=? n) && (n <=? 32)
   || (n =? 133) || (n =? 160))%nat.

Fixpoint lstrip (s : string) : string :=
  match s with
  | EmptyString => EmptyString
  | String c s' => if isspace c then lstrip s' else s
  end.

Fixpoint rstrip (s : string) : string :=
  match s with
  | EmptyString => EmptyString
  | String c s' =>
      match rstrip s' with
      | EmptyString => if isspace c then EmptyString else String c EmptyString
      | r => String c r
      end
  end.

(** [s.strip()] *)
Definition strip (s : string) : string := rstrip (lstrip s).

(** [s[:n]] for a literal [n >= 0] *)
Fixpoint slice_to (n : nat) (s : string) : string :=
  match n, s with
  | O, _ => EmptyString
  | _, EmptyString => EmptyString
  | S n', String c s' => String c (slice_to n' s')
  end.

(** [len(s)] *)
Definition len (s : string) : Z := Z.of_nat (String.length s).

(** truth value of a string: [bool(s)] *)
Definition truthy (s : string) : bool :=
  match s with EmptyString => false | _ => true end.

(** truth value of [d.get(key)] for a key that is absent, [None] or a string *)
Definition truthy_opt (o : option string) : bool :=
  match o with Some s => truthy s | None => false end.

(** [range(n)]; [upto k m] is the integers [k], ..., [k + m - 1]. *)
Definition upto (k m : nat) : list Z := map Z.of_nat (seq k m).
Definition range (n : Z) : list Z := upto 0 (Z.to_nat n).

(** Exception classes that occur in the modelled code, with the part of the
    class hierarchy that [except] clauses and [isinstance] consult:
    [sqlite3.Error] > [DatabaseError] > [OperationalError], [IntegrityError]. *)
Inductive ExnClass :=
  | Exception
  | ValueError
  | TypeError
  | KeyError
  | SqliteError
  | DatabaseError
  | OperationalError
  | IntegrityError
  | OverflowError.

Definition subclass (c d : ExnClass) : bool :=
  match d, c with
  | Exception, _ => true
  | ValueError, ValueError => true
  | TypeError, TypeError => true
  | KeyError, KeyError => true
  | SqliteError, (SqliteError | DatabaseError | OperationalError | IntegrityError) => true
  | DatabaseError, (DatabaseError | OperationalError | IntegrityError) => true
  | OperationalError, OperationalError => true
  | IntegrityError, IntegrityError => true
  | OverflowError, OverflowError => true
  | _, _ => false
  end.

Record Exn := mkExn { exn_class : ExnClass; exn_msg : string }.

(** [isinstance(e, classes)] for a tuple of classes *)
Definition isinstance (e : Exn) (classes : list ExnClass) : bool :=
  existsb (subclass (exn_class e)) classes.

(** The result of running a piece of code: a value or a raised exception. *)
Inductive outcome (A : Type) :=
  | Return (a : A)
  | Raise (e : Exn).
Arguments Return {A} a.
Arguments Raise {A} e.

Definition raised {A} (o : outcome A) : bool :=
  match o with Raise _ => true | Return _ => false end.

(** State-and-exception monad: the state reached is kept when an exception
    is raised, as the heap of a Python process is. *)
Definition M (St A : Type) : Type := St -> outcome A * St.

Definition ret {St A} (a : A) : M St A := fun s => (Return a, s).
Definition raise {St A} (e : Exn) : M St A := fun s => (Raise e, s).
Definition bind {St A B} (m : M St A) (k : A -> M St B) : M St B :=
  fun s => match m s with
           | (Return a, s') => k a s'
           | (Raise e, s') => (Raise e, s')
           end.
Definition gets {St A} (f : St -> A) : M St A := fun s => (Return (f s), s).
Definition modify {St} (f : St -> St) : M St unit := fun s => (Return tt, f s).

(** [try: body except Exception as e: handler(e)] *)
Definition try_except {St A} (body : M St A) (handler : Exn -> M St A) : M St A :=
  fun s => match body s with
           | (Return a, s') => (Return a, s')
           | (Raise e, s') => handler e s'
           end.

End Py.

Import Py.

Declare Scope py_scope.
Delimit Scope py_scope with py.
Notation "x <- m ;; k" := (bind m (fun x => k))
  (at level 100, m at next level, right associativity) : py_scope.
Notation "m ;;; k" := (bind m (fun _ => k))
  (at level 100, right associativity) : py_scope.

(** A piece of code run from a state that satisfies [P] ends, returning or
    raising, in a state that satisfies [Q] of its outcome. *)
Definition triple {St A} (P : St -> Prop) (m : M St A) (Q : outcome A -> St -> Prop) : Prop :=
  forall s, P s -> Q (fst (m s)) (snd (m s)).

(** ** utils.py: the retry decorator *)

Module Utils.

Record RetryWithBackoff := {
  max_attempts : Z;
  base_delay : Q;
  backoff_factor : Q;
  max_delay : Q;
  exceptions : list ExnClass
}.

(** The defaults of [RetryWithBackoff.__init__], with [max_attempts],
    [base_delay] and [exceptions] as given at the decoration site. *)
Definition retry_with (attempts : Z) (base : Q) (excs : list ExnClass) : RetryWithBackoff :=
  {| max_attempts := attempts; base_delay := base; backoff_factor := 2;
     max_delay := 60; exceptions := excs |}.

(** What one call of the wrapped function did: its result, the state it left,
    how often [func] was invoked, and the arguments of [time.sleep] in order. *)
Record Run (St A : Type) := mkRun {
  result : outcome (option A);
  final : St;
  invocations : nat;
  delays : list Q
}.
Arguments mkRun {St A}.
Arguments result {St A}.
Arguments final {St A}.
Arguments invocations {St A}.
Arguments delays {St A}.

Section wrapper.
Context {St A : Type}.
Variable time_sleep : Q -> St -> St.
Variable self : RetryWithBackoff.
Variable func : M St A.

(** [min(self.base_delay * (self.backoff_factor ** attempt), self.max_delay)] *)
Definition backoff_delay (attempt : Z) : Q :=
  Qmin (base_delay self * backoff_factor self ^ attempt)%Q (max_delay self).

(** The [for attempt in range(self.max_attempts)] loop; [todo] is what is
    left of the range. Falling out of the loop returns [None]. *)
Fixpoint attempts (todo : list Z) (s : St) (calls : nat) (slept : list Q) : Run St A :=
  match todo with
  | [] => mkRun (Return None) s calls slept
  | attempt :: rest =>
      match func s with
      | (Return v, s') => mkRun (Return (Some v)) s' (S calls) slept
      | (Raise e, s') =>
          if isinstance e (exceptions self) then
            if attempt =? max_attempts self - 1 then
              mkRun (Raise e) s' (S calls) slept
            else
              let delay := backoff_delay attempt in
              attempts rest (time_sleep delay s') (S calls) (slept ++ [delay])
          else mkRun (Raise e) s' (S calls) slept
      end
  end.

Definition run (s : St) : Run St A :=
  attempts (range (max_attempts self)) s O [].

(** The decorated function. *)
Definition wrapper : M St (option A) :=
  fun s => let r := run s in (result r, final r).

End wrapper.

(** The delay as the specification words it, for the retry that follows the
    [k]-th failure: [min(base_delay * backoff_factor^k, max_delay)]. *)
Definition spec_delay (self : RetryWithBackoff) (k : Z) : Q :=
  Qmin (base_delay self * backoff_factor self ^ k)%Q (max_delay self).

(** An operation that always fails, and the operation of the unit test of
    the decorator: it counts its calls and fails on the first two. *)
Definition always_failing : M nat string :=
  fun call_count => (Raise (mkExn Exception "failed"), S call_count).

Definition failing_method : M nat string :=
  fun call_count =>
    let call_count := S call_count in
    if (call_count <? 3)%nat then (Raise (mkExn Exception "Attempt failed"), call_count)
    else (Return "success"%string, call_count).

(** A failure outside the retryable classification. *)
Definition failing_with_key_error : M nat string :=
  fun call_count => (Raise (mkExn KeyError "source"), S call_count).

(** [time.sleep] for an operation whose state holds no clock. *)
Definition no_clock (d : Q) (call_count : nat) : nat := call_count.

End Utils.

(** ** config.py: the retry configuration *)

Module Config.

Record RetryConfig := mkRetryConfig {
  max_attempts : Z;
  base_delay : Q;
  backoff_factor : Q;
  max_delay : Q
}.

(** [RetryConfig(config)] for a configuration that sets none of the keys. *)
Definition default_retry_config : RetryConfig := mkRetryConfig 3 1 2 60.

(** [get_delay(attempt)] *)
Definition get_delay (self : RetryConfig) (attempt : Z) : Q :=
  let delay := (base_delay self * backoff_factor self ^ attempt)%Q in
  Qmin delay (max_delay self).

End Config.

(** ** hashlib.md5 and str.encode *)

Module Hashlib.

Definition mask32 (x : Z) : Z := Z.land x 0xffffffff.

Definition rotl32 (x c : Z) : Z :=
  mask32 (Z.lor (Z.shiftl x c) (Z.shiftr x (32 - c))).

Definition not32 (x : Z) : Z := Z.lxor x 0xffffffff.

Definition sines : list Z :=
  [0xd76aa478; 0xe8c7b756; 0x242070db; 0xc1bdceee; 0xf57c0faf; 0x4787c62a; 0xa8304613; 0xfd469501;
   0x698098d8; 0x8b44f7af; 0xffff5bb1; 0x895cd7be; 0x6b901122; 0xfd987193; 0xa679438e; 0x49b40821;
   0xf61e2562; 0xc040b340; 0x265e5a51; 0xe9b6c7aa; 0xd62f105d; 0x02441453; 0xd8a1e681; 0xe7d3fbc8;
   0x21e1cde6; 0xc33707d6; 0xf4d50d87; 0x455a14ed; 0xa9e3e905; 0xfcefa3f8; 0x676f02d9; 0x8d2a4c8a;
   0xfffa3942; 0x8771f681; 0x6d9d6122; 0xfde5380c; 0xa4beea44; 0x4bdecfa9; 0xf6bb4b60; 0xbebfbc70;
   0x289b7ec6; 0xeaa127fa; 0xd4ef3085; 0x04881d05; 0xd9d4d039; 0xe6db99e5; 0x1fa27cf8; 0xc4ac5665;
   0xf4292244; 0x432aff97; 0xab9423a7; 0xfc93a039; 0x655b59c3; 0x8f0ccc92; 0xffeff47d; 0x85845dd1;
   0x6fa87e4f; 0xfe2ce6e0; 0xa3014314; 0x4e0811a1; 0xf7537e82; 0xbd3af235; 0x2ad7d2bb; 0xeb86d391].

Definition shifts : list Z :=
  [7; 12; 17; 22; 7; 12; 17; 22; 7; 12; 17; 22; 7; 12; 17; 22;
   5; 9; 14; 20; 5; 9; 14; 20; 5; 9; 14; 20; 5; 9; 14; 20;
   4; 11; 16; 23; 4; 11; 16; 23; 4; 11; 16; 23; 4; 11; 16; 23;
   6; 10; 15; 21; 6; 10; 15; 21; 6; 10; 15; 21; 6; 10; 15; 21].

(** [s.encode('utf-8')] on code points below 256 *)
Definition utf8_char (c : ascii) : list Z :=
  let n := Z.of_nat (nat_of_ascii c) in
  if n <? 128 then [n] else [Z.lor 0xc0 (Z.shiftr n 6); Z.lor 0x80 (Z.land n 0x3f)].

Fixpoint encode_utf8 (s : string) : list Z :=
  match s with
  | EmptyString => []
  | String c s' => utf8_char c ++ encode_utf8 s'
  end.

(** little-endian bytes of a word *)
Fixpoint le_bytes (n : nat) (x : Z) : list Z :=
  match n with
  | O => []
  | S n' => Z.land x 0xff :: le_bytes n' (Z.shiftr x 8)
  end.

Definition pad (msg : list Z) : list Z :=
  let l := Z.of_nat (length msg) in
  msg ++ [0x80] ++ repeat 0 (Z.to_nat ((55 - l) mod 64)) ++ le_bytes 8 (8 * l).

(** little-endian 32-bit words of a byte string whose length is a multiple of 4 *)
Fixpoint words (fuel : nat) (bs : list Z) : list Z :=
  match fuel, bs with
  | S fuel', b0 :: b1 :: b2 :: b3 :: rest =>
      (b0 + Z.shiftl b1 8 + Z.shiftl b2 16 + Z.shiftl b3 24) :: words fuel' rest
  | _, _ => []
  end.

Definition round (block : list Z) (st : Z * Z * Z * Z) (i : nat) : Z * Z * Z * Z :=
  let '(a, b, c, d) := st in
  let iz := Z.of_nat i in
  let '(f, g) :=
    if iz <? 16 then (Z.lor (Z.land b c) (Z.land (not32 b) d), iz)
    else if iz <? 32 then (Z.lor (Z.land d b) (Z.land (not32 d) c), (5 * iz + 1) mod 16)
    else if iz <? 48 then (Z.lxor b (Z.lxor c d), (3 * iz + 5) mod 16)
    else (Z.lxor c (Z.lor b (not32 d)), (7 * iz) mod 16) in
  let f' := mask32 (f + a + nth i sines 0 + nth (Z.to_nat g) block 0) in
  (d, mask32 (b + rotl32 f' (nth i shifts 0)), b, c).

Definition compress (st : Z * Z * Z * Z) (block : list Z) : Z * Z * Z * Z :=
  let '(a0, b0, c0, d0) := st in
  let '(a, b, c, d) := fold_left (round block) (seq 0 64) st in
  (mask32 (a0 + a), mask32 (b0 + b), mask32 (c0 + c), mask32 (d0 + d)).

Fixpoint blocks (fuel : nat) (ws : list Z) : list (list Z) :=
  match fuel, ws with
  | S fuel', _ :: _ => firstn 16 ws :: blocks fuel' (skipn 16 ws)
  | _, _ => []
  end.

Definition hex_digit (n : Z) : ascii :=
  ascii_of_nat (Z.to_nat (if n <? 10 then 48 + n else 87 + n)).

Fixpoint hex (bs : list Z) : string :=
  match bs with
  | [] => EmptyString
  | b :: rest => String (hex_digit (Z.shiftr b 4)) (String (hex_digit (Z.land b 0xf)) (hex rest))
  end.

(** [hashlib.md5(data).hexdigest()] *)
Definition md5_hexdigest (data : list Z) : string :=
  let ws := words (length (pad data)) (pad data) in
  let '(a, b, c, d) :=
    fold_left compress (blocks (length ws) ws)
              (0x67452301, 0xefcdab89, 0x98badcfe, 0x10325476) in
  hex (le_bytes 4 a ++ le_bytes 4 b ++ le_bytes 4 c ++ le_bytes 4 d).

End Hashlib.


(** ** database.py: the trend store *)

Module DB.

(** A [metadata] dictionary, kept as the list of its items. *)
Definition Metadata := list (string * string).

(** A row of [trend_data]. [timestamp] is the [CURRENT_TIMESTAMP] text of the
    insert, as seconds since the epoch: SQLite compares these texts in
    chronological order. [metadata] stands for the JSON text of the
    dictionary. The bookkeeping columns [created_at], [updated_at] and
    [is_processed] play no part in the operations below. *)
Record Row := mkRow {
  id : Z;
  timestamp : Z;
  source : string;
  topic : string;
  content : option string;
  url : option string;
  engagement_score : Q;
  metadata : option Metadata;
  hash_value : string
}.

(** Rows of [trend_analysis] and [published_content]: their identity and
    timestamp (the other columns are payload). *)
Record AnalysisRow := mkAnalysisRow { analysis_id : Z; analysis_timestamp : Z }.
Record PublishedRow := mkPublishedRow { published_id : Z; published_timestamp : Z }.

(** The contents of the database file. [trend_data_seq] is the entry of
    [sqlite_sequence] for [trend_data] (the largest row id ever handed out). *)
Record Database := mkDatabase {
  trend_data : list Row;
  trend_data_seq : N;
  trend_analysis : list AnalysisRow;
  published_content : list PublishedRow
}.

(** A failure of the storage under a statement, and what [sqlite3] raises
    for it. *)
Inductive Fault := DatabaseLocked | DiskIOError | DatabaseMalformed.

Definition exn_of_fault (f : Fault) : Exn :=
  match f with
  | DatabaseLocked => mkExn OperationalError "database is locked"
  | DiskIOError => mkExn OperationalError "disk I/O error"
  | DatabaseMalformed => mkExn DatabaseError "database disk image is malformed"
  end.

(** The process and its [TrendDatabase] object: the wall clock, the
    arguments of [time.sleep] so far, the committed database file, the fate
    of the coming [cursor.execute] calls ([None] or an exhausted list: the
    statement runs; [Some f]: the storage fails with [f]), and the object's
    counters. *)
Record World := mkWorld {
  clock : Q;
  slept : list Q;
  disk : Database;
  io_faults : list (option Fault);
  error_count : nat;
  query_count : nat
}.

(** An open connection: its view of the database, with its own uncommitted
    changes, and whether a transaction is open. *)
Record Conn := mkConn { pending : Database; in_transaction : bool }.

Definition set_clock (t : Q) (d : list Q) (w : World) : World :=
  mkWorld t d (disk w) (io_faults w) (error_count w) (query_count w).
Definition set_disk (db : Database) (w : World) : World :=
  mkWorld (clock w) (slept w) db (io_faults w) (error_count w) (query_count w).
Definition set_io_faults (fs : list (option Fault)) (w : World) : World :=
  mkWorld (clock w) (slept w) (disk w) fs (error_count w) (query_count w).
Definition incr_error_count (w : World) : World :=
  mkWorld (clock w) (slept w) (disk w) (io_faults w) (S (error_count w)) (query_count w).
Definition incr_query_count (w : World) : World :=
  mkWorld (clock w) (slept w) (disk w) (io_faults w) (error_count w) (S (query_count w)).

(** [time.sleep(d)] *)
Definition time_sleep (d : Q) (w : World) : World :=
  set_clock (clock w + d)%Q (slept w ++ [d]) w.

(** Time passing between two calls. *)
Definition elapse (d : Q) (w : World) : World :=
  set_clock (clock w + d)%Q (slept w) w.

(** [datetime('now')], to the second. *)
Definition sqlite_now (w : World) : Z := Qfloor (clock w).

(** The dates SQLite represents, in seconds since the epoch: from julian
    day 0 (-4713-11-24 12:00:00) to 9999-12-31 23:59:59. *)
Definition sqlite_min_time : Z := -210866760000.
Definition sqlite_max_time : Z := 253402300799.
Definition valid_time (t : Z) : bool := (sqlite_min_time <=? t) && (t <=? sqlite_max_time).

(** [datetime('now', '-{} <unit>'.format(n))] for an integer [n]: a negative
    [n] formats to a modifier SQLite does not parse, and the value is NULL;
    so it is when the date asked for is none SQLite represents. *)
Definition datetime_now_minus (n seconds_per_unit : Z) (w : World) : option Z :=
  if (0 <=? n) && valid_time (sqlite_now w - n * seconds_per_unit)
  then Some (sqlite_now w - n * seconds_per_unit) else None.

(** [column < threshold] and [column >= threshold]; a comparison with NULL
    is not true. *)
Definition sql_lt (t : Z) (threshold : option Z) : bool :=
  match threshold with Some th => t <? th | None => false end.
Definition sql_ge (t : Z) (threshold : option Z) : bool :=
  match threshold with Some th => th <=? t | None => false end.

Definition Qltb (a b : Q) : bool := negb (Qle_bool b a).

(** *** Statements, run on an open connection *)

Definition Stmt (A : Type) : Type := M (World * Conn) A.

Definition lift {A} (m : M World A) : Stmt A :=
  fun '(w, c) => match m w with (o, w') => (o, (w', c)) end.

(** [cursor.execute(...)]: the statement runs unless the storage fails. *)
Definition cursor_execute {A} (stmt : Stmt A) : Stmt A :=
  fun '(w, c) =>
    match io_faults w with
    | Some f :: rest => (Raise (exn_of_fault f), (set_io_faults rest w, c))
    | None :: rest => stmt (set_io_faults rest w, c)
    | [] => stmt (w, c)
    end.

(** [conn.commit()] *)
Definition conn_commit : Stmt unit :=
  fun '(w, c) => (Return tt, (set_disk (pending c) w, mkConn (pending c) false)).

(** [with self._get_connection() as conn: body]. An exception in the body
    rolls back, counts an error and is raised again; closing the connection
    drops what was not committed. *)
Definition _get_connection {A} (body : Stmt A) : M World A :=
  fun w =>
    match body (w, mkConn (disk w) false) with
    | (Return a, (w', _)) => (Return a, w')
    | (Raise e, (w', _)) => (Raise e, incr_error_count w')
    end.

(** [SELECT id FROM trend_data WHERE hash_value = ? AND timestamp >
    datetime('now', '-1 day')], then [fetchone() is not None]. *)
Definition is_recent_duplicate (now : Z) (content_hash : string) (r : Row) : bool :=
  String.eqb (hash_value r) content_hash && (now - 86400 <? timestamp r).

Definition sql_select_duplicate (content_hash : string) : Stmt bool :=
  fun '(w, c) =>
    (Return (existsb (is_recent_duplicate (sqlite_now w) content_hash) (trend_data (pending c))),
     (w, c)).

(** The row id an [AUTOINCREMENT] key gets: one more than the largest id
    ever used. *)
Definition next_rowid (db : Database) : Z :=
  1 + fold_right Z.max (Z.of_N (trend_data_seq db)) (map id (trend_data db)).

(** SQLite's [LENGTH] of a text: the number of characters before its first
    NUL character. *)
Fixpoint sqlite_length (s : string) : Z :=
  match s with
  | EmptyString => 0
  | String c s' => if Ascii.eqb c Ascii.zero then 0 else 1 + sqlite_length s'
  end.

(** The [CHECK] constraints of [trend_data]: [engagement_score >= 0],
    [LENGTH(source) > 0], [LENGTH(topic) > 0]. *)
Definition check_constraints (src top : string) (score : Q) : bool :=
  Qle_bool 0 score && (0 <? sqlite_length src) && (0 <? sqlite_length top).

(** The constraint SQLite names when the record is refused: the first, in
    the order of the schema, that fails. *)
Definition failed_constraint (src top : string) (score : Q) : string :=
  if negb (Qle_bool 0 score) then "check_engagement_score"
  else if negb (0 <? sqlite_length src) then "check_source_not_empty"
  else "check_topic_not_empty".

(** [INSERT INTO trend_data (source, topic, content, url, engagement_score,
    metadata, hash_value) VALUES (...)], then [cursor.lastrowid]. *)
Definition sql_insert_trend (src top : string) (con u : option string) (score : Q)
    (metadata_json : option Metadata) (content_hash : string) : Stmt Z :=
  fun '(w, c) =>
    if check_constraints src top score then
      let db := pending c in
      let trend_id := next_rowid db in
      let row := mkRow trend_id (sqlite_now w) src top con u score metadata_json content_hash in
      (Return trend_id,
       (w, mkConn (mkDatabase (trend_data db ++ [row]) (Z.to_N trend_id)
                              (trend_analysis db) (published_content db)) true))
    else
      (Raise (mkExn IntegrityError
                    ("CHECK constraint failed: " +:+ failed_constraint src top score)),
       (w, c)).

(** *** insert_trend_data *)

Definition _validate_trend_input {St} (src top : string) (score : Q) : M St unit :=
  if negb (truthy src) || (len (strip src) =? 0) then
    raise (mkExn ValueError "Source cannot be empty")
  else if negb (truthy top) || (len (strip top) =? 0) then
    raise (mkExn ValueError "Topic cannot be empty")
  else if Qltb score 0 then
    raise (mkExn ValueError "Engagement score must be non-negative")
  else if 50 <? len src then
    raise (mkExn ValueError "Source too long (max 50 characters)")
  else if 200 <? len top then
    raise (mkExn ValueError "Topic too long (max 200 characters)")
  else ret tt.

(** The conjunction of the five checks of [_validate_trend_input]. *)
Definition input_accepted (src top : string) (score : Q) : bool :=
  negb (negb (truthy src) || (len (strip src) =? 0))
  && negb (negb (truthy top) || (len (strip top) =? 0))
  && negb (Qltb score 0)
  && negb (50 <? len src)
  && negb (200 <? len top).

(** The validity invariant as the specification words it: source non-empty,
    topic of length 2 to 200 after trimming, engagement score not negative. *)
Definition spec_valid_for_storage (src top : string) (score : Q) : Prop :=
  src <> EmptyString /\ 2 <= len (strip top) <= 200 /\ (0 <= score)%Q.


(** [f"{source}:{topic}:{content or ''}"], hashed *)
Definition content_str (src top : string) (con : option string) : string :=
  src +:+ ":" +:+ top +:+ ":" +:+ default EmptyString con.

Definition _generate_content_hash (src top : string) (con : option string) : string :=
  Hashlib.md5_hexdigest (Hashlib.encode_utf8 (content_str src top con)).

Definition _is_duplicate_trend (content_hash : string) : M World bool :=
  try_except
    (_get_connection (cursor_execute (sql_select_duplicate content_hash)))
    (fun _ => ret false).

(** The three [except] clauses of the public methods log, count the error
    and raise it again. *)
Definition count_and_reraise {A} (e : Exn) : M World A :=
  (modify incr_error_count ;;; raise e)%py.

(** The body of [insert_trend_data], one attempt. *)
Definition insert_trend_data_once (src top : string) (con u : option string) (score : Q)
    (md : Metadata) : M World Z :=
  try_except
    (_validate_trend_input src top score ;;;
     let content_hash := _generate_content_hash src top con in
     dup <- _is_duplicate_trend content_hash ;;
     if dup : bool then ret (-1)
     else
       let metadata_json := match md with [] => None | _ => Some md end in
       _get_connection
         (trend_id <- cursor_execute
                        (sql_insert_trend src top con u score metadata_json content_hash) ;;
          conn_commit ;;;
          lift (modify incr_query_count) ;;;
          ret trend_id))%py
    count_and_reraise.

(** [@RetryWithBackoff(max_attempts=3, base_delay=0.5,
    exceptions=(sqlite3.OperationalError, sqlite3.DatabaseError))] *)
Definition insert_retry : Utils.RetryWithBackoff :=
  Utils.retry_with 3 (1 # 2) [OperationalError; DatabaseError].

Definition insert_trend_data (src top : string) (con u : option string) (score : Q)
    (md : Metadata) : M World (option Z) :=
  Utils.wrapper time_sleep insert_retry (insert_trend_data_once src top con u score md).

(** The database file once a row is appended under the next row id. *)
Definition with_new_row (db : Database) (now : Z) (src top : string) (con u : option string)
    (score : Q) (md : Metadata) : Database :=
  mkDatabase
    (trend_data db ++
       [mkRow (next_rowid db) now src top con u score
                 (match md with [] => None | _ => Some md end)
                 (_generate_content_hash src top con)])
    (Z.to_N (next_rowid db)) (trend_analysis db) (published_content db).

Definition has_recent_duplicate (w : World) (h : string) : bool :=
  existsb (is_recent_duplicate (sqlite_now w) h) (trend_data (disk w)).

(** A new database file, and a process at time [t] whose storage works. *)
Definition empty_database : Database := mkDatabase [] 0%N [] [].

Definition world_at (t : Q) (db : Database) : World := mkWorld t [] db [] 0 0.


(** *** get_recent_trend_data *)

(** [ORDER BY engagement_score DESC, timestamp DESC] *)
Definition recent_leb (r1 r2 : Row) : bool :=
  Qltb (engagement_score r2) (engagement_score r1)
  || Qeq_bool (engagement_score r1) (engagement_score r2) && (timestamp r2 <=? timestamp r1).

Definition recent_order : relation Row := fun r1 r2 => Is_true (recent_leb r1 r2).

#[global] Instance recent_order_dec : RelDecision recent_order.
Proof. intros r1 r2. unfold recent_order. apply _. Defined.

(** The query text is built from the arguments: the [AND source = ?] clause
    under [if source:], the [LIMIT ?] clause under [if limit:]. SQLite reads
    a negative [LIMIT] as no limit. A limit that cannot be bound never
    reaches the query ([limit_binds] below). *)
Definition source_clause (src : option string) (r : Row) : bool :=
  match src with
  | Some s => if truthy s then String.eqb (source r) s else true
  | None => true
  end.

Definition limit_clause (limit : option Z) (rows : list Row) : list Row :=
  match limit with
  | Some n => if n =? 0 then rows else if n <? 0 then rows else firstn (Z.to_nat n) rows
  | None => rows
  end.

(** The rows the query selects from [rows], given the value of
    [datetime('now', '-{} hours')]. Rows that tie on both sort keys come in
    the order the sort leaves them in; SQLite promises none. *)
Definition select_recent (threshold : option Z) (src : option string) (limit : option Z)
    (rows : list Row) : list Row :=
  limit_clause limit
    (merge_sort recent_order
       (List.filter (fun r => sql_ge (timestamp r) threshold && source_clause src r) rows)).

(** The parameter of [LIMIT ?] is bound as a signed 64-bit integer; [sqlite3]
    raises [OverflowError] for a Python integer outside that range. No
    parameter is bound under [if limit:] for [None] and for 0. *)
Definition limit_binds (limit : option Z) : bool :=
  match limit with
  | Some n => (n =? 0) || ((- 2 ^ 63 <=? n) && (n <=? 2 ^ 63 - 1))
  | None => true
  end.

Definition limit_overflow : Exn :=
  mkExn OverflowError "Python int too large to convert to SQLite INTEGER".

Definition sql_select_recent (hours : Z) (src : option string) (limit : option Z) :
    Stmt (list Row) :=
  fun '(w, c) =>
    if limit_binds limit then
      (Return (select_recent (datetime_now_minus hours 3600 w) src limit
                             (trend_data (pending c))),
       (w, c))
    else (Raise limit_overflow, (w, c)).

Definition get_recent_trend_data_once (hours : Z) (src : option string) (limit : option Z) :
    M World (list Row) :=
  try_except
    (_get_connection
       (rows <- cursor_execute (sql_select_recent hours src limit) ;;
        lift (modify incr_query_count) ;;;
        ret rows))%py
    count_and_reraise.

(** [@RetryWithBackoff(max_attempts=2, base_delay=0.5,
    exceptions=(sqlite3.OperationalError,))] *)
Definition recent_retry : Utils.RetryWithBackoff :=
  Utils.retry_with 2 (1 # 2) [OperationalError].

Definition get_recent_trend_data (hours : Z) (src : option string) (limit : option Z) :
    M World (option (list Row)) :=
  Utils.wrapper time_sleep recent_retry (get_recent_trend_data_once hours src limit).

(** *** cleanup_old_data *)

Record CleanupStats := mkCleanupStats {
  trend_data_deleted : Z;
  trend_analysis_deleted : Z;
  published_content_deleted : Z
}.

(** [SELECT COUNT( * ) FROM <table> WHERE timestamp < datetime('now', '-{} days')] *)
Definition count_older {R} (ts : R -> Z) (threshold : option Z) (rows : list R) : Z :=
  Z.of_nat (length (List.filter (fun r => sql_lt (ts r) threshold) rows)).

(** what [DELETE FROM <table> WHERE timestamp < datetime('now', '-{} days')] leaves *)
Definition delete_older {R} (ts : R -> Z) (threshold : option Z) (rows : list R) : list R :=
  List.filter (fun r => negb (sql_lt (ts r) threshold)) rows.

Definition sql_count_trend_data (days : Z) : Stmt Z :=
  fun '(w, c) =>
    (Return (count_older timestamp (datetime_now_minus days 86400 w) (trend_data (pending c))),
     (w, c)).
Definition sql_count_trend_analysis (days : Z) : Stmt Z :=
  fun '(w, c) =>
    (Return (count_older analysis_timestamp (datetime_now_minus days 86400 w)
                         (trend_analysis (pending c))), (w, c)).
Definition sql_count_published_content (days : Z) : Stmt Z :=
  fun '(w, c) =>
    (Return (count_older published_timestamp (datetime_now_minus days 86400 w)
                         (published_content (pending c))), (w, c)).

(** A [DELETE] opens a transaction on the connection if none is open. *)
Definition sql_delete_trend_data (days : Z) : Stmt unit :=
  fun '(w, c) =>
    let db := pending c in
    (Return tt,
     (w, mkConn (mkDatabase (delete_older timestamp (datetime_now_minus days 86400 w) (trend_data db))
                            (trend_data_seq db) (trend_analysis db) (published_content db)) true)).
Definition sql_delete_trend_analysis (days : Z) : Stmt unit :=
  fun '(w, c) =>
    let db := pending c in
    (Return tt,
     (w, mkConn (mkDatabase (trend_data db) (trend_data_seq db)
                            (delete_older analysis_timestamp (datetime_now_minus days 86400 w)
                                          (trend_analysis db))
                            (published_content db)) true)).
Definition sql_delete_published_content (days : Z) : Stmt unit :=
  fun '(w, c) =>
    let db := pending c in
    (Return tt,
     (w, mkConn (mkDatabase (trend_data db) (trend_data_seq db) (trend_analysis db)
                            (delete_older published_timestamp (datetime_now_minus days 86400 w)
                                          (published_content db))) true)).

(** [VACUUM] rebuilds the file and keeps its rows; SQLite refuses it while a
    transaction is open. *)
Definition sql_vacuum : Stmt unit :=
  fun '(w, c) =>
    if in_transaction c then
      (Raise (mkExn OperationalError "cannot VACUUM from within a transaction"), (w, c))
    else (Return tt, (w, c)).

Definition cleanup_old_data (days : Z) : M World CleanupStats :=
  try_except
    (_get_connection
       (trend_data_count <- cursor_execute (sql_count_trend_data days) ;;
        deleted_trends <-
          (if 0 <? trend_data_count
           then (cursor_execute (sql_delete_trend_data days) ;;; ret trend_data_count)
           else ret 0) ;;
        let analysis_retention_days := days * 2 in
        analysis_count <- cursor_execute (sql_count_trend_analysis analysis_retention_days) ;;
        deleted_analyses <-
          (if 0 <? analysis_count
           then (cursor_execute (sql_delete_trend_analysis analysis_retention_days) ;;;
                 ret analysis_count)
           else ret 0) ;;
        published_count <- cursor_execute (sql_count_published_content days) ;;
        deleted_published <-
          (if 0 <? published_count
           then (cursor_execute (sql_delete_published_content days) ;;; ret published_count)
           else ret 0) ;;
        cursor_execute sql_vacuum ;;;
        conn_commit ;;;
        ret (mkCleanupStats deleted_trends deleted_analyses deleted_published)))%py
    count_and_reraise.

(** The store of the unit test of the cleanup: one trend, whose timestamp
    is then set 35 days back; the cleanup runs at [now] with a retention of
    30 days. *)
Definition old_row : Row :=
  mkRow 1 0 "test" "old data" (Some "This should be cleaned up"%string) None 0 None
        (_generate_content_hash "test" "old data" (Some "This should be cleaned up"%string)).

Definition store_with_old_row : Database := mkDatabase [old_row] 1%N [] [].

Definition thirty_five_days : Q := inject_Z (35 * 86400).

(** What the three counting queries of the cleanup answer on the committed
    database. *)
Definition old_trend_data (days : Z) (w : World) : Z :=
  count_older timestamp (datetime_now_minus days 86400 w) (trend_data (disk w)).
Definition old_trend_analysis (days : Z) (w : World) : Z :=
  count_older analysis_timestamp (datetime_now_minus (days * 2) 86400 w) (trend_analysis (disk w)).
Definition old_published_content (days : Z) (w : World) : Z :=
  count_older published_timestamp (datetime_now_minus days 86400 w) (published_content (disk w)).

Definition vacuum_error : Exn :=
  mkExn OperationalError "cannot VACUUM from within a transaction".

(** *** optimize_database *)

(** [ANALYZE], [REINDEX] and [PRAGMA optimize]: the rows of the tables stay
    as they are, and no transaction is opened. *)
Definition sql_maintenance : Stmt unit := ret tt.

(** The dictionary [optimize_database] returns (the operation id and the
    time left out). *)
Record Optimization := mkOptimization { success : bool; error : option string }.

Definition optimize_database : M World Optimization :=
  try_except
    (_get_connection
       (cursor_execute sql_maintenance ;;;
        cursor_execute sql_maintenance ;;;
        cursor_execute sql_maintenance ;;;
        conn_commit ;;;
        ret (mkOptimization true None)))%py
    (fun e => ret (mkOptimization false (Some (exn_msg e)))).

(** *** Invariants of the store *)

(** A row as [insert_trend_data] writes it: its fields pass the checks of
    [_validate_trend_input], its hash is the hash of its source, topic and
    content, its row id is positive. *)
Definition row_ok (r : Row) : Prop :=
  input_accepted (source r) (topic r) (engagement_score r) = true
  /\ hash_value r = _generate_content_hash (source r) (topic r) (content r)
  /\ 0 < id r.

(** Row ids grow with the position of the row and stay below the recorded
    sequence number. *)
Definition well_formed (db : Database) : Prop :=
  Forall row_ok (trend_data db)
  /\ StronglySorted Z.lt (map id (trend_data db))
  /\ Forall (fun r => id r <= Z.of_N (trend_data_seq db)) (trend_data db).

(** Two rows with the same hash are at least 24 hours apart. *)
Definition spaced (r1 r2 : Row) : Prop :=
  hash_value r1 = hash_value r2 -> 86400 <= Z.abs (timestamp r2 - timestamp r1).

Definition deduplicated (db : Database) : Prop := ForallOrdPairs spaced (trend_data db).

(** What one call of [insert_trend_data] may do to the store [db]: with its
    result [o], the store it leaves is [db'] . *)
Definition insert_effect (src top : string) (con u : option string) (score : Q)
    (md : Metadata) (db : Database) (o : outcome (option Z)) (db' : Database) : Prop :=
  match o with
  | Return (Some trend_id) =>
      input_accepted src top score = true
      /\ (trend_id = -1 /\ db' = db
          \/ trend_id = next_rowid db
             /\ exists now, db' = with_new_row db now src top con u score md)
  | Return None => False
  | Raise _ => db' = db
  end.

(** What holds of a connection while a method runs on the store [db0]
    without having committed: the file is as it was, and the connection
    sees the file unless it has opened a transaction. *)
Definition uncommitted (db0 : Database) (s : World * Conn) : Prop :=
  disk (fst s) = db0 /\ (in_transaction (snd s) = false -> pending (snd s) = db0).

(** A connection on which a transaction is open whenever [b] says that a
    DELETE was made. *)
Definition busy (b : bool) (s : World * Conn) : Prop :=
  b = true -> in_transaction (snd s) = true.

End DB.

(** ** More of Python's text *)

Module PyText.

(** [c.lower()] on the code points below 256: the letters A to Z, and the
    capital letters of Latin-1 (192 to 222, the multiplication sign 215
    excepted). On text of this range [str.lower] acts on each character by
    itself; beyond it, it does not (a capital sigma is lowered by its
    position in the word), and what is proved of [lower] below is proved of
    Latin-1 text. *)
Definition lower_char (c : ascii) : ascii :=
  let n := nat_of_ascii c in
  if ((65 <=? n) && (n <=? 90) || (192 <=? n) && (n <=? 222) && negb (n =? 215))%nat
  then ascii_of_nat (n + 32) else c.

(** [s.lower()] *)
Fixpoint lower (s : string) : string :=
  match s with
  | EmptyString => EmptyString
  | String c s' => String (lower_char c) (lower s')
  end.

(** [s.startswith(prefix)] *)
Fixpoint startswith (prefix s : string) : bool :=
  match prefix, s with
  | EmptyString, _ => true
  | String _ _, EmptyString => false
  | String a prefix', String b s' => Ascii.eqb a b && startswith prefix' s'
  end.

(** [needle in hay] *)
Fixpoint contains (needle hay : string) : bool :=
  startswith needle hay
  || match hay with
     | EmptyString => false
     | String _ hay' => contains needle hay'
     end.

(** [str(n)] for an integer *)
Definition str_of_int (n : Z) : string := NilZero.string_of_int (Z.to_int n).

End PyText.

(** ** collectors.py: rate limiting and cleaning *)

Module Collectors.

(** *** _rate_limit_check *)

Record ApiStatus := mkApiStatus {
  available : bool;
  last_error : option string;
  error_count : Z
}.

Record DataCollector := mkDataCollector {
  api_status : gmap string ApiStatus;
  last_request_times : gmap string Q;
  min_request_intervals : gmap string Q
}.

(** The collector in its process: the wall clock and the arguments of
    [time.sleep] so far. *)
Record Process := mkProcess {
  clock : Q;
  slept : list Q;
  collector : DataCollector
}.

(** [time.time()] and [time.sleep(d)] *)
Definition time_time (p : Process) : Q := clock p.
Definition time_sleep (d : Q) (p : Process) : Process :=
  mkProcess (clock p + d)%Q (slept p ++ [d]) (collector p).

(** Time passing between two calls. *)
Definition elapse (d : Q) (p : Process) : Process :=
  mkProcess (clock p + d)%Q (slept p) (collector p).

Definition set_last_request_time (src : string) (t : Q) (p : Process) : Process :=
  let c := collector p in
  mkProcess (clock p) (slept p)
            (mkDataCollector (api_status c) (<[src := t]> (last_request_times c))
                             (min_request_intervals c)).

(** [min(error_count * 0.5, 5.0)] *)
Definition adaptive_delay (errors : Z) : Q := Qmin (inject_Z errors * (1 # 2))%Q 5%Q.

Definition _rate_limit_check (src : string) (p : Process) : Process :=
  let current_time := time_time p in
  let last_request := default 0%Q (last_request_times (collector p) !! src) in
  let min_interval := default 1%Q (min_request_intervals (collector p) !! src) in
  let time_since_last := (current_time - last_request)%Q in
  let p' :=
    if DB.Qltb time_since_last min_interval then
      let sleep_time := (min_interval - time_since_last)%Q in
      let errors := default 0 (error_count <$> api_status (collector p) !! src) in
      let sleep_time :=
        if 0 <? errors then (sleep_time + adaptive_delay errors)%Q else sleep_time in
      time_sleep sleep_time p
    else p in
  set_last_request_time src (time_time p') p'.

(** The collector as [__init__] leaves it without a configuration: no API
    available, no request made yet. *)
Definition initial_collector : DataCollector :=
  let sources := ["twitter"; "github"; "reddit"; "hackernews"]%string in
  mkDataCollector
    (list_to_map (map (fun s => (s, mkApiStatus false None 0)) sources))
    (list_to_map (map (fun s => (s, 0%Q)) sources))
    (list_to_map [("twitter", 1%Q); ("github", (1 # 2)%Q); ("reddit", 2%Q);
                  ("hackernews", 1%Q)]%string).

(** A collector that has seen three errors from one source. *)
Definition with_error_count (src : string) (errors : Z) (c : DataCollector) : DataCollector :=
  mkDataCollector (<[src := mkApiStatus false None errors]> (api_status c))
                  (last_request_times c) (min_request_intervals c).

Definition process_at (t : Q) (c : DataCollector) : Process := mkProcess t [] c.

(** *** _validate_and_clean_trends *)

(** The value under ['engagement_score'] of a raw trend: absent, a number,
    or something [float()] raises on ([None], text that is no number, ...). *)
Inductive RawScore :=
  | ScoreAbsent
  | ScoreNumber (q : Q)
  | ScoreNotNumeric.

(** A raw trend dictionary as the fetchers build it. A text field is [None]
    when the key is absent or holds [None]. *)
Record RawTrend := mkRawTrend {
  raw_source : option string;
  raw_topic : option string;
  raw_content : option string;
  raw_url : option string;
  raw_engagement_score : RawScore;
  raw_metadata : option DB.Metadata
}.

(** A cleaned trend. *)
Record Trend := mkTrend {
  source : string;
  topic : string;
  content : string;
  url : string;
  engagement_score : Q;
  metadata : DB.Metadata;
  collection_time : Q
}.

(** [float(trend.get('engagement_score', 0))] *)
Definition float_of_score (x : RawScore) : outcome Q :=
  match x with
  | ScoreAbsent => Return 0%Q
  | ScoreNumber q => Return q
  | ScoreNotNumeric => Raise (mkExn TypeError "float() argument must be a string or a real number")
  end.

(** The body of the loop for one trend: [Return None] is [continue],
    [Return (Some t)] appends [t]. *)
Definition clean_trend (now : Q) (trend : RawTrend) : outcome (option Trend) :=
  if negb (truthy_opt (raw_source trend)) || negb (truthy_opt (raw_topic trend)) then
    Return None
  else
    match float_of_score (raw_engagement_score trend) with
    | Raise e => Raise e
    | Return score =>
        let cleaned_trend :=
          mkTrend (strip (default EmptyString (raw_source trend)))
                  (slice_to 200 (strip (default EmptyString (raw_topic trend))))
                  (if truthy_opt (raw_content trend)
                   then slice_to 1000 (default EmptyString (raw_content trend))
                   else EmptyString)
                  (if truthy_opt (raw_url trend)
                   then slice_to 500 (default EmptyString (raw_url trend))
                   else EmptyString)
                  (Qmax 0 score)
                  (default [] (raw_metadata trend))
                  now in
        if 2 <=? len (topic cleaned_trend) then Return (Some cleaned_trend) else Return None
    end.

Fixpoint clean_loop (now : Q) (trends : list RawTrend) (validated_trends : list Trend) :
    list Trend :=
  match trends with
  | [] => validated_trends
  | trend :: rest =>
      match clean_trend now trend with
      | Return (Some cleaned_trend) => clean_loop now rest (validated_trends ++ [cleaned_trend])
      | Return None => clean_loop now rest validated_trends
      | Raise _ => clean_loop now rest validated_trends
      end
  end.

Definition _validate_and_clean_trends (now : Q) (trends : list RawTrend) : list Trend :=
  clean_loop now trends [].

(** The validity invariant of a cleaned trend as the specification words
    it, with the three caps. *)
Definition spec_clean (t : Trend) : Prop :=
  strip (source t) <> EmptyString
  /\ 2 <= len (strip (topic t)) <= 200
  /\ (0 <= engagement_score t)%Q
  /\ len (content t) <= 1000 /\ len (url t) <= 500 /\ len (topic t) <= 200.

(** A raw trend whose source is one blank. *)
Definition blank_source_trend : RawTrend :=
  mkRawTrend (Some " "%string) (Some "AI news"%string) (Some "Content about AI"%string)
             None (ScoreNumber 5) None.

(** *** _update_api_status *)

Definition set_api_status (statuses : gmap string ApiStatus) (c : DataCollector) :
    DataCollector :=
  mkDataCollector statuses (last_request_times c) (min_request_intervals c).

Definition _update_api_status (api_name : string) (is_available : bool)
    (error : option string) (c : DataCollector) : DataCollector :=
  match api_status c !! api_name with
  | Some st =>
      let st := mkApiStatus is_available (last_error st) (error_count st) in
      let st :=
        if truthy_opt error
        then mkApiStatus (available st) error (error_count st + 1)
        else st in
      set_api_status (<[api_name := st]> (api_status c)) c
  | None => c
  end.

(** The error count the rate limiter reads for a source. *)
Definition errors_of (c : DataCollector) (src : string) : Z :=
  default 0 (error_count <$> api_status c !! src).

(** *** filter_trends_by_keywords *)

Definition matches_keyword (keywords_lower : list string) (trend : Trend) : bool :=
  let content_lower := PyText.lower (content trend +:+ " " +:+ topic trend) in
  existsb (fun keyword => PyText.contains keyword content_lower) keywords_lower.

Definition filter_trends_by_keywords (trends : list Trend) (keywords : list string) :
    list Trend :=
  match keywords with
  | [] => trends
  | _ :: _ =>
      let keywords_lower := map PyText.lower keywords in
      List.filter (matches_keyword keywords_lower) trends
  end.

(** *** _fetch_hn_story *)

(** The JSON object of a story; a field is [None] when the key is absent. *)
Record Story := mkStory {
  story_type : option string;
  story_title : option string;
  story_deleted : bool;
  story_score : option Z;
  story_descendants : option Z;
  story_url : option string;
  story_by : option string;
  story_time : option Z
}.

Definition hn_item_url (story_id : Z) : string :=
  "https://news.ycombinator.com/item?id=" +:+ PyText.str_of_int story_id.

(** [response] is what the request for the item yields: an exception
    (connection, status, decoding), JSON [null], or a story. Numbers in the
    metadata are kept as their decimal text. *)
Definition _fetch_hn_story (story_id : Z) (response : outcome (option Story)) (p : Process) :
    option RawTrend * Process :=
  let p := _rate_limit_check "hackernews" p in
  match response with
  | Raise _ => (None, p)
  | Return None => (None, p)
  | Return (Some story) =>
      if negb (match story_type story with
               | Some t => String.eqb t "story"
               | None => false
               end)
      then (None, p)
      else if negb (truthy_opt (story_title story)) || story_deleted story then (None, p)
      else
        let engagement_score :=
          default 0 (story_score story) + default 0 (story_descendants story) * 2 in
        if engagement_score <? 5 then (None, p)
        else
          (Some (mkRawTrend
                   (Some "hackernews"%string)
                   (Some "Hacker News"%string)
                   (Some (default EmptyString (story_title story)))
                   (Some (default (hn_item_url story_id) (story_url story)))
                   (ScoreNumber (inject_Z engagement_score))
                   (Some [("story_id", PyText.str_of_int story_id);
                          ("author", default EmptyString (story_by story));
                          ("score", PyText.str_of_int (default 0 (story_score story)));
                          ("comments",
                           PyText.str_of_int (default 0 (story_descendants story)));
                          ("time", PyText.str_of_int (default 0 (story_time story)));
                          ("story_type", default EmptyString (story_type story));
                          ("hn_url", hn_item_url story_id)]%string)),
           p)
  end.

(** *** collect_all_trends *)

(** [self.api_status[src]['available']]; [__init__] creates the entries of
    the four sources and no method removes one. *)
Definition is_available (c : DataCollector) (src : string) : bool :=
  default false (available <$> api_status c !! src).

(** The tasks that are dispatched. *)
Definition collection_tasks (c : DataCollector) : list string :=
  (if is_available c "twitter" then ["Twitter"%string] else [])
  ++ (if is_available c "github" then ["GitHub"%string] else [])
  ++ (if is_available c "reddit" then ["Reddit"%string] else [])
  ++ ["HackerNews"%string].

(** [self.api_status[name]['error_count'] += 1] *)
Definition count_error (name : string) (c : DataCollector) : DataCollector :=
  set_api_status
    (alter (fun st => mkApiStatus (available st) (last_error st) (error_count st + 1))
           name (api_status c)) c.

(** The loop over the futures as they complete: [completed] lists, in the
    order of completion, the name of each task and what its future yields. *)
Fixpoint gather (completed : list (string * outcome (list RawTrend)))
    (all_trends : list RawTrend) (c : DataCollector) : list RawTrend * DataCollector :=
  match completed with
  | [] => (all_trends, c)
  | (source_name, Return trends) :: rest =>
      match trends with
      | _ :: _ => gather rest (all_trends ++ trends) c
      | [] => gather rest all_trends c
      end
  | (source_name, Raise _) :: rest =>
      gather rest all_trends (count_error (PyText.lower source_name) c)
  end.

(** [validated_trends.sort(key=lambda x: x.get('engagement_score', 0),
    reverse=True)]: a stable sort, larger scores first. *)
Fixpoint insert_by_engagement (x : Trend) (sorted : list Trend) : list Trend :=
  match sorted with
  | [] => [x]
  | y :: rest =>
      if DB.Qltb (engagement_score x) (engagement_score y)
      then y :: insert_by_engagement x rest
      else x :: sorted
  end.

Definition sort_by_engagement (trends : list Trend) : list Trend :=
  fold_right insert_by_engagement [] trends.

(** [collect_all_trends]. The thread pool is an input: [results] is what the
    future of each task yields, [finished] the tasks in the order in which
    they complete before the overall timeout. *)
Definition collect_all_trends (now : Q) (results : string -> outcome (list RawTrend))
    (finished : list string) (c : DataCollector) : list Trend * DataCollector :=
  let tasks := collection_tasks c in
  let completed :=
    map (fun name => (name, results name))
        (List.filter (fun name => existsb (String.eqb name) tasks) finished) in
  let '(all_trends, c) := gather completed [] c in
  (sort_by_engagement (_validate_and_clean_trends now all_trends), c).

(** What a completed task adds to [all_trends]. *)
Definition yielded (task : string * outcome (list RawTrend)) : list RawTrend :=
  match snd task with Return trends => trends | Raise _ => [] end.

(** The order of the result: larger engagement first. *)
Definition ranked_before (a b : Trend) : Prop :=
  (engagement_score b <= engagement_score a)%Q.

(** The trends of engagement [q]. *)
Definition scored (q : Q) (trend : Trend) : bool := Qeq_bool (engagement_score trend) q.

(** *** _collect_with_timeout *)

(** The thread a piece of code runs in. *)
Inductive Thread :=
  | MainThread
  | WorkerThread.

(** [signal.signal(signal.SIGALRM, handler)]: the interpreter lets the main
    thread install a handler and raises [ValueError] in every other thread. *)
Definition signal_signal {St} (thread : Thread) : M St unit :=
  match thread with
  | MainThread => ret tt
  | WorkerThread =>
      raise (mkExn ValueError "signal only works in main thread of the main interpreter")
  end.

(** [try: body finally: cleanup] *)
Definition try_finally {St A} (body : M St A) (cleanup : M St unit) : M St A :=
  fun s => match body s with
           | (o, s') =>
               match cleanup s' with
               | (Return _, s'') => (o, s'')
               | (Raise e, s'') => (Raise e, s'')
               end
           end.

(** [_collect_with_timeout]: [collect_func] is one of the four
    [_collect_*_safe] methods, acting on the state of the process; the alarm
    it may receive in the main thread is one of the exceptions [collect_func]
    can end in. *)
Definition _collect_with_timeout {St} (thread : Thread) (collect_func : M St (list RawTrend)) :
    M St (list RawTrend) :=
  try_except
    (signal_signal thread ;;;
     try_finally collect_func (signal_signal thread))%py
    (fun e => ret []).

(** [executor.submit(self._collect_with_timeout, source_name, collect_func)]:
    what the future yields when the pool runs the task, in one of its worker
    threads, from the state [s]. *)
Definition submitted {St} (collect_func : M St (list RawTrend)) (s : St) :
    outcome (list RawTrend) :=
  fst (_collect_with_timeout WorkerThread collect_func s).

End Collectors.

(** ** main.py: the batch-insert loop *)

Module Main.

(** What the loop did: the two counters, the result of every insert that was
    attempted, in order, and the state it left. *)
Record BatchRun := mkBatchRun {
  stored_count : Z;
  failed_count : Z;
  attempted : list (outcome (option Z));
  world : DB.World
}.

(** [self.database.insert_trend_data(source=trend['source'], ...)] *)
Definition insert_trend (trend : Collectors.Trend) : M DB.World (option Z) :=
  DB.insert_trend_data (Collectors.source trend) (Collectors.topic trend)
                       (Some (Collectors.content trend)) (Some (Collectors.url trend))
                       (Collectors.engagement_score trend) (Collectors.metadata trend).

(** [failed_count > len(trends_data) * 0.5] *)
Definition too_many_failures (failed batch_size : Z) : bool :=
  DB.Qltb (inject_Z batch_size * (1 # 2))%Q (inject_Z failed).

(** The [for i, trend in enumerate(trends_data)] loop; [batch_size] is
    [len(trends_data)], [todo] what is left of the batch. *)
Fixpoint store_loop (batch_size : Z) (todo : list Collectors.Trend) (stored failed : Z)
    (done : list (outcome (option Z))) (w : DB.World) : BatchRun :=
  match todo with
  | [] => mkBatchRun stored failed done w
  | trend :: rest =>
      match insert_trend trend w with
      | (Return trend_id, w') =>
          store_loop batch_size rest (stored + 1) failed (done ++ [Return trend_id]) w'
      | (Raise e, w') =>
          let failed := failed + 1 in
          if too_many_failures failed batch_size then
            mkBatchRun stored failed (done ++ [Raise e]) w'
          else store_loop batch_size rest stored failed (done ++ [Raise e]) w'
      end
  end.

(** The inserts of a batch run one after the other, with no early stop. *)
Fixpoint run_inserts (todo : list Collectors.Trend) (w : DB.World) :
    list (outcome (option Z)) * DB.World :=
  match todo with
  | [] => ([], w)
  | trend :: rest =>
      let '(o, w') := insert_trend trend w in
      let '(os, w'') := run_inserts rest w' in
      (o :: os, w'')
  end.

Definition count_returned {A} (os : list (outcome A)) : Z :=
  Z.of_nat (length (List.filter (fun o => negb (raised o)) os)).
Definition count_raised {A} (os : list (outcome A)) : Z :=
  Z.of_nat (length (List.filter raised os)).

(** The inserts that were answered with a row id: the items that were
    stored. *)
Definition is_stored (o : outcome (option Z)) : bool :=
  match o with Return (Some trend_id) => 0 <? trend_id | _ => false end.
Definition count_stored (os : list (outcome (option Z))) : Z :=
  Z.of_nat (length (List.filter is_stored os)).

(** The inserts that were answered with -1: the items taken for duplicates. *)
Definition is_skipped (o : outcome (option Z)) : bool :=
  match o with Return (Some trend_id) => trend_id =? -1 | _ => false end.
Definition count_skipped (os : list (outcome (option Z))) : Z :=
  Z.of_nat (length (List.filter is_skipped os)).

(** The row of the store that holds a trend of the batch. *)
Definition row_of (trend : Collectors.Trend) (r : DB.Row) : Prop :=
  DB.source r = Collectors.source trend
  /\ DB.topic r = Collectors.topic trend
  /\ DB.content r = Some (Collectors.content trend)
  /\ DB.url r = Some (Collectors.url trend)
  /\ DB.engagement_score r = Collectors.engagement_score trend.

(** A cleaned trend, for batches. *)
Definition sample_trend : Collectors.Trend :=
  Collectors.mkTrend "test" "duplicate test" "same content" "" 0 [] 1000.

Definition batch_run (trends_data : list Collectors.Trend) (w : DB.World) : BatchRun :=
  store_loop (Z.of_nat (length trends_data)) trends_data 0 0 [] w.

Definition _store_trends_batch (trends_data : list Collectors.Trend) : M DB.World Z :=
  fun w => let r := batch_run trends_data w in (Return (stored_count r), world r).

(** *** collect_trends *)

(** The bot: its two counters and its store. *)
Record TrendBot := mkTrendBot {
  error_count : Z;
  success_count : Z;
  database : DB.World
}.

(** The dictionary [collect_trends] returns (the operation id and the times
    left out); [collected_count] is [None] where the key is absent. *)
Record Result := mkResult {
  success : bool;
  message : string;
  count : Z;
  collected_count : option Z
}.

Definition count_failure (bot : TrendBot) : TrendBot :=
  mkTrendBot (error_count bot + 1) (success_count bot) (database bot).

(** [collect_trends]: [pre_flight] is what [_pre_flight_checks] answers,
    [collected] what [self._collect_with_timeout()] yields, the list that
    [collect_all_trends] returns or an exception. *)
Definition collect_trends (pre_flight : bool) (collected : outcome (list Collectors.Trend))
    (bot : TrendBot) : Result * TrendBot :=
  if negb pre_flight then
    (mkResult false "Pre-flight checks failed" 0 None, count_failure bot)
  else
    match collected with
    | Raise e => (mkResult false (exn_msg e) 0 None, count_failure bot)
    | Return [] => (mkResult false "No trends collected" 0 None, bot)
    | Return trends_data =>
        match _store_trends_batch trends_data (database bot) with
        | (Return stored_count, w) =>
            (mkResult true
                      ("Collected and stored " +:+ PyText.str_of_int stored_count +:+ " trends")
                      stored_count (Some (Z.of_nat (length trends_data))),
             mkTrendBot (error_count bot) (success_count bot + 1) w)
        | (Raise e, w) =>
            (mkResult false (exn_msg e) 0 None,
             mkTrendBot (error_count bot + 1) (success_count bot) w)
        end
    end.

(** *** cleanup_old_data *)

(** [TrendBot.cleanup_old_data]: the store, then the visualization files.
    [cleanup_old_visualizations] acts on the files [V]; it catches its own
    exceptions and so always returns. *)
Definition cleanup_old_data {V} (cleanup_old_visualizations : Z -> V -> V) (days : Z) :
    M (DB.World * V) unit :=
  try_except
    (fun '(w, v) =>
       match DB.cleanup_old_data days w with
       | (Return _, w') => (Return tt, (w', cleanup_old_visualizations (days / 4) v))
       | (Raise e, w') => (Raise e, (w', v))
       end)
    (fun _ => ret tt).

End Main.


(** ** utils.py: the health check of the database *)

Module Health.

(** The dictionary [check_database_health] returns. *)
Record Report := mkReport {
  status : string;
  recent_data_count : option Z;
  message : string
}.

(** [f'Database error: {e}'] *)
Definition database_error (e : Exn) : string := "Database error: " +:+ exn_msg e.

(** [len(recent_trends) if recent_trends else 0]; the query returns [None]
    only if the decorated function falls out of its loop. *)
Definition count_of (recent_trends : option (list DB.Row)) : Z :=
  match recent_trends with
  | Some rows => match rows with [] => 0 | _ :: _ => Z.of_nat (length rows) end
  | None => 0
  end.

Definition check_database_health : M DB.World Report :=
  try_except
    (recent_trends <- DB.get_recent_trend_data 1 None None ;;
     ret (mkReport "healthy" (Some (count_of recent_trends)) "Database accessible"))%py
    (fun e => ret (mkReport "unhealthy" None (database_error e))).

(** The rows of the last hour. *)
Definition last_hour (w : DB.World) : list DB.Row :=
  List.filter (fun r => DB.sql_ge (DB.timestamp r) (DB.datetime_now_minus 1 3600 w))
              (DB.trend_data (DB.disk w)).

End Health.
(** * Properties *)

(** ** The hash *)

Example md5_empty :
  Hashlib.md5_hexdigest [] = "d41d8cd98f00b204e9800998ecf8427e"%string.
Proof. vm_compute. reflexivity. Qed.

Example md5_abc :
  Hashlib.md5_hexdigest (Hashlib.encode_utf8 "abc") = "900150983cd24fb0d6963f7d28e17f72"%string.
Proof. vm_compute. reflexivity. Qed.

(** A message of two blocks, and a code point above 127 (e with acute accent,
    two bytes in UTF-8). *)
Example md5_two_blocks :
  Hashlib.md5_hexdigest
    (Hashlib.encode_utf8
       "12345678901234567890123456789012345678901234567890123456789012345678901234567890")
  = "57edf4a22be3c955ac49da2e2107b67a"%string.
Proof. vm_compute. reflexivity. Qed.

Example md5_latin1 :
  Hashlib.md5_hexdigest
    (Hashlib.encode_utf8 (String "c" (String "a" (String "f" (String (ascii_of_nat 233) "")))))
  = "07117fe4a1ebd544965dc19573183da2"%string.
Proof. vm_compute. reflexivity. Qed.

Example content_hash_of_test_row :
  DB._generate_content_hash "test" "duplicate test" (Some "same content"%string)
  = "1f2f991c13d98f0a539c32a40d40d114"%string.
Proof. vm_compute. reflexivity. Qed.

(** ** The retry decorator *)

Section retry_facts.
Context {St A : Type}.
Variable time_sleep : Q -> St -> St.
Variable self : Utils.RetryWithBackoff.
Variable func : M St A.

Local Abbreviation attempts := (Utils.attempts time_sleep self func).
Local Abbreviation run := (Utils.run time_sleep self func).
Local Abbreviation delay := (Utils.backoff_delay self).

(** The loop sleeps between two invocations and nowhere else, and the
    sleep that follows the failure of attempt [i] is [delay i]. *)
Lemma attempts_trace (m : nat) : forall (k : nat) s (c : nat) (sl : list Q),
  (m = 0%nat \/ Z.of_nat (k + m) = Utils.max_attempts self) ->
  let r := attempts (upto k m) s c sl in
  (c <= Utils.invocations r <= c + m)%nat /\
  (0 < m -> c < Utils.invocations r)%nat /\
  Utils.delays r = sl ++ map delay (upto k (pred (Utils.invocations r - c))).
Proof.
  induction m as [|m IH]; intros k s c sl Hm; simpl.
  - rewrite Nat.sub_diag. simpl. rewrite app_nil_r. repeat split; lia.
  - destruct (func s) as [[v|e] s'] eqn:Hf; simpl.
    + replace (S c - c)%nat with 1%nat by lia. simpl. rewrite app_nil_r.
      repeat split; lia.
    + destruct (isinstance e (Utils.exceptions self)); simpl.
      2:{ replace (S c - c)%nat with 1%nat by lia. simpl. rewrite app_nil_r.
          repeat split; lia. }
      destruct (Z.eqb_spec (Z.of_nat k) (Utils.max_attempts self - 1)) as [Hlast|Hlast]; simpl.
      { replace (S c - c)%nat with 1%nat by lia. simpl. rewrite app_nil_r.
        repeat split; lia. }
      assert (Hpos : (0 < m)%nat) by (destruct Hm; lia).
      destruct (IH (S k) (time_sleep (delay (Z.of_nat k)) s') (S c)
                   (sl ++ [delay (Z.of_nat k)])) as (Hb & Hlt & Hd).
      { right. destruct Hm; lia. }
      specialize (Hlt Hpos).
      fold (upto (S k) m). repeat split; try lia.
      rewrite Hd, <- app_assoc. f_equal.
      replace (pred (Utils.invocations
                       (attempts (upto (S k) m) (time_sleep (delay (Z.of_nat k)) s')
                                 (S c) (sl ++ [delay (Z.of_nat k)])) - c))
        with (S (pred (Utils.invocations
                       (attempts (upto (S k) m) (time_sleep (delay (Z.of_nat k)) s')
                                 (S c) (sl ++ [delay (Z.of_nat k)])) - S c))) by lia.
      reflexivity.
Qed.

Lemma run_trace s :
  Utils.delays (run s) = map delay (upto 0 (pred (Utils.invocations (run s)))) /\
  (Z.of_nat (Utils.invocations (run s)) <= Z.max 0 (Utils.max_attempts self)).
Proof.
  unfold Utils.run, range.
  destruct (attempts_trace (Z.to_nat (Utils.max_attempts self)) 0 s 0 [])
    as (Hb & _ & Hd).
  { destruct (Z.to_nat (Utils.max_attempts self)) eqn:E; [left; reflexivity|right; lia]. }
  rewrite Nat.sub_0_r in Hd. split; [exact Hd | lia].
Qed.

Lemma nth_error_upto (k m i : nat) :
  (i < m)%nat -> nth_error (upto k m) i = Some (Z.of_nat (k + i)).
Proof.
  intros Hi. unfold upto. rewrite nth_error_map.
  rewrite (nth_error_nth' _ 0%nat) by (rewrite length_seq; lia).
  rewrite seq_nth by lia. reflexivity.
Qed.

End retry_facts.

(** C4, as the code has it: when the wrapped function is invoked more than
    [k] times, that is, when its [k]-th failure was followed by a retry, the
    [k]-th sleep lasted [min(base_delay * backoff_factor^(k-1), max_delay)];
    there is one sleep between two consecutive invocations and none after the
    last one. *)
Theorem retry_delay_after_kth_failure :
  forall (St A : Type) (time_sleep : Q -> St -> St) (self : Utils.RetryWithBackoff)
         (func : M St A) (s : St) (k : nat),
    (1 <= k)%nat ->
    (k < Utils.invocations (Utils.run time_sleep self func s))%nat ->
    nth_error (Utils.delays (Utils.run time_sleep self func s)) (k - 1)
    = Some (Qmin (Utils.base_delay self * Utils.backoff_factor self ^ (Z.of_nat k - 1))%Q
                 (Utils.max_delay self))
    /\ length (Utils.delays (Utils.run time_sleep self func s))
       = pred (Utils.invocations (Utils.run time_sleep self func s)).
Proof.
  intros St A time_sleep self func s k Hk Hinv.
  destruct (run_trace time_sleep self func s) as [Hd _].
  rewrite Hd. split.
  - rewrite nth_error_map, nth_error_upto by lia. simpl.
    unfold Utils.backoff_delay. replace (Z.of_nat (k - 1)) with (Z.of_nat k - 1) by lia.
    reflexivity.
  - unfold upto. rewrite !length_map, length_seq. reflexivity.
Qed.

Lemma retry_delay_after_kth_failure_witness :
  nth_error (Utils.delays (Utils.run Utils.no_clock (Utils.retry_with 3 1 [Exception])
                                     Utils.always_failing 0%nat)) (2 - 1)
  = Some (Qmin (1 * 2 ^ (Z.of_nat 2 - 1))%Q 60%Q)
  /\ length (Utils.delays (Utils.run Utils.no_clock (Utils.retry_with 3 1 [Exception])
                                     Utils.always_failing 0%nat))
     = pred (Utils.invocations (Utils.run Utils.no_clock (Utils.retry_with 3 1 [Exception])
                                          Utils.always_failing 0%nat)).
Proof.
  apply (retry_delay_after_kth_failure nat string Utils.no_clock
           (Utils.retry_with 3 1 [Exception]) Utils.always_failing 0%nat 2%nat);
    vm_compute; lia.
Defined.

(** C4, as the specification words it, fails: with the default backoff
    (base delay 1, factor 2, cap 60) the sleep after the first failure lasts
    1 second, not [min(1 * 2^1, 60) = 2]. *)
Lemma retry_delay_spec_counterexample :
  ~ (forall k d,
       (1 <= k)%nat ->
       nth_error (Utils.delays (Utils.run Utils.no_clock (Utils.retry_with 3 1 [Exception])
                                          Utils.always_failing 0%nat)) (k - 1) = Some d ->
       (d == Utils.spec_delay (Utils.retry_with 3 1 [Exception]) (Z.of_nat k))%Q).
Proof.
  intros H. specialize (H 1%nat _ (le_n 1) eq_refl). vm_compute in H. discriminate H.
Qed.

(** C7: with [max_attempts = 3], an operation that fails twice with a
    retryable failure and then succeeds yields its value after exactly three
    invocations; one that fails retryably three times has its third failure
    raised to the caller after exactly three invocations; a failure outside
    the retryable classification is raised at once, after one invocation. *)
Theorem retry_three_attempts :
  forall (St A : Type) (time_sleep : Q -> St -> St) (self : Utils.RetryWithBackoff)
         (func : M St A) (s : St),
    Utils.max_attempts self = 3 ->
    let r := Utils.run time_sleep self func s in
    let d0 := Utils.backoff_delay self 0 in
    let d1 := Utils.backoff_delay self 1 in
    (forall e1 e2 v s1 s2 s3,
        func s = (Raise e1, s1) -> isinstance e1 (Utils.exceptions self) = true ->
        func (time_sleep d0 s1) = (Raise e2, s2) -> isinstance e2 (Utils.exceptions self) = true ->
        func (time_sleep d1 s2) = (Return v, s3) ->
        Utils.result r = Return (Some v) /\ Utils.invocations r = 3%nat /\ Utils.final r = s3)
    /\ (forall e1 e2 e3 s1 s2 s3,
        func s = (Raise e1, s1) -> isinstance e1 (Utils.exceptions self) = true ->
        func (time_sleep d0 s1) = (Raise e2, s2) -> isinstance e2 (Utils.exceptions self) = true ->
        func (time_sleep d1 s2) = (Raise e3, s3) -> isinstance e3 (Utils.exceptions self) = true ->
        Utils.result r = Raise e3 /\ Utils.invocations r = 3%nat /\ Utils.final r = s3)
    /\ (forall e s1,
        func s = (Raise e, s1) -> isinstance e (Utils.exceptions self) = false ->
        Utils.result r = Raise e /\ Utils.invocations r = 1%nat /\ Utils.final r = s1
        /\ Utils.delays r = []).
Proof.
  intros St A time_sleep self func s Hmax r d0 d1. subst r d0 d1.
  unfold Utils.run. rewrite Hmax. change (range 3) with [0; 1; 2].
  cbn [Utils.attempts]. rewrite Hmax. repeat split.
  - rewrite H, H0; cbn. rewrite H1, H2; cbn. rewrite H3. reflexivity.
  - rewrite H, H0; cbn. rewrite H1, H2; cbn. rewrite H3. reflexivity.
  - rewrite H, H0; cbn. rewrite H1, H2; cbn. rewrite H3. reflexivity.
  - rewrite H, H0; cbn. rewrite H1, H2; cbn. rewrite H3, H4. reflexivity.
  - rewrite H, H0; cbn. rewrite H1, H2; cbn. rewrite H3, H4. reflexivity.
  - rewrite H, H0; cbn. rewrite H1, H2; cbn. rewrite H3, H4. reflexivity.
  - rewrite H, H0. reflexivity.
  - rewrite H, H0. reflexivity.
  - rewrite H, H0. reflexivity.
  - rewrite H, H0. reflexivity.
Qed.

Lemma retry_three_attempts_witness :
  let r := Utils.run Utils.no_clock (Utils.retry_with 3 (1 # 10) [Exception])
                     Utils.failing_method 0%nat in
  Utils.max_attempts (Utils.retry_with 3 (1 # 10) [Exception]) = 3
  /\ Utils.result r = Return (Some "success"%string)
  /\ Utils.invocations r = 3%nat
  /\ Utils.final r = 3%nat.
Proof.
  split; [reflexivity|].
  destruct (retry_three_attempts nat string Utils.no_clock
              (Utils.retry_with 3 (1 # 10) [Exception]) Utils.failing_method 0%nat eq_refl)
    as [Hsucceeds _].
  eapply Hsucceeds; reflexivity.
Defined.

(** The two other cases of C7 on the operations of [Utils]: three
    invocations and the failure raised; one invocation for a failure that is
    not retryable. *)
Example retry_always_failing :
  let r := Utils.run Utils.no_clock (Utils.retry_with 3 (1 # 10) [Exception])
                     Utils.always_failing 0%nat in
  Utils.result r = Raise (mkExn Exception "failed") /\ Utils.invocations r = 3%nat.
Proof. vm_compute. split; reflexivity. Qed.

Example retry_not_retryable :
  let r := Utils.run Utils.no_clock (Utils.retry_with 3 (1 # 10) [OperationalError])
                     Utils.failing_with_key_error 0%nat in
  Utils.result r = Raise (mkExn KeyError "source") /\ Utils.invocations r = 1%nat.
Proof. vm_compute. split; reflexivity. Qed.

(** *** The decorator around a function that needs no retry *)

Section wrapper_facts.
Context {St A : Type}.
Variable time_sleep : Q -> St -> St.
Variable self : Utils.RetryWithBackoff.
Variable func : M St A.

Lemma wrapper_returns s v s' :
  0 < Utils.max_attempts self ->
  func s = (Return v, s') ->
  Utils.wrapper time_sleep self func s = (Return (Some v), s').
Proof.
  intros Hpos Hf. unfold Utils.wrapper, Utils.run, range.
  destruct (Z.to_nat (Utils.max_attempts self)) as [|n] eqn:E; [lia|].
  cbn. rewrite Hf. reflexivity.
Qed.

Lemma wrapper_raises s e s' :
  0 < Utils.max_attempts self ->
  func s = (Raise e, s') ->
  isinstance e (Utils.exceptions self) = false ->
  Utils.wrapper time_sleep self func s = (Raise e, s').
Proof.
  intros Hpos Hf He. unfold Utils.wrapper, Utils.run, range.
  destruct (Z.to_nat (Utils.max_attempts self)) as [|n] eqn:E; [lia|].
  cbn. rewrite Hf, He. reflexivity.
Qed.



End wrapper_facts.

(** ** The trend store *)

Lemma validate_accepted {St} src top score (s : St) :
  DB.input_accepted src top score = true ->
  DB._validate_trend_input src top score s = (Return tt, s).
Proof.
  unfold DB.input_accepted, DB._validate_trend_input. intros H.
  repeat (apply andb_prop in H; destruct H as [H ?]).
  repeat match goal with
         | Hn : negb ?b = true |- _ => apply negb_true_iff in Hn; rewrite Hn
         end.
  reflexivity.
Qed.

Lemma validate_refused {St} src top score (s : St) :
  DB.input_accepted src top score = false ->
  exists msg, DB._validate_trend_input src top score s = (Raise (mkExn ValueError msg), s).
Proof.
  unfold DB.input_accepted, DB._validate_trend_input. intros H.
  destruct (negb (truthy src) || (len (strip src) =? 0)); [eexists; reflexivity|].
  destruct (negb (truthy top) || (len (strip top) =? 0)); [eexists; reflexivity|].
  destruct (DB.Qltb score 0); [eexists; reflexivity|].
  destruct (50 <? len src); [eexists; reflexivity|].
  destruct (200 <? len top); [eexists; reflexivity|].
  discriminate H.
Qed.

Lemma len_zero_iff s : len s = 0 <-> s = EmptyString.
Proof. unfold len. destruct s; cbn; split; intros H; try reflexivity; try lia; discriminate. Qed.

Lemma len_nonneg s : 0 <= len s.
Proof. unfold len. lia. Qed.

(** What the five checks accept, in plain terms. *)
Lemma input_accepted_iff src top score :
  DB.input_accepted src top score = true <->
  strip src <> EmptyString /\ strip top <> EmptyString /\ (0 <= score)%Q
  /\ len src <= 50 /\ len top <= 200.
Proof.
  unfold DB.input_accepted, DB.Qltb.
  rewrite !andb_true_iff, !negb_true_iff, !orb_false_iff, !negb_false_iff.
  rewrite !Z.eqb_neq, !Z.ltb_ge, Qle_bool_iff, !len_zero_iff.
  split.
  - intros [[[[[_ ?] [_ ?]] ?] ?] ?]. tauto.
  - intros (Hs & Ht & ? & ? & ?). repeat split; try assumption.
    + destruct src; [exact (False_ind _ (Hs eq_refl))|reflexivity].
    + destruct top; [exact (False_ind _ (Ht eq_refl))|reflexivity].
Qed.

#[global] Opaque Hashlib.md5_hexdigest.

Lemma is_duplicate_trend_no_fault w h :
  DB.io_faults w = [] ->
  DB._is_duplicate_trend h w = (Return (DB.has_recent_duplicate w h), w).
Proof.
  intros Hio. unfold DB._is_duplicate_trend, try_except, DB._get_connection, DB.cursor_execute.
  rewrite Hio. reflexivity.
Qed.

Lemma is_duplicate_trend_fault w h f rest :
  DB.io_faults w = Some f :: rest ->
  DB._is_duplicate_trend h w
  = (Return false, DB.incr_error_count (DB.set_io_faults rest w)).
Proof.
  intros Hio. unfold DB._is_duplicate_trend, try_except, DB._get_connection, DB.cursor_execute.
  rewrite Hio. reflexivity.
Qed.


Lemma next_rowid_positive db : 0 < DB.next_rowid db.
Proof.
  unfold DB.next_rowid.
  assert (0 <= fold_right Z.max (Z.of_N (DB.trend_data_seq db)) (map DB.id (DB.trend_data db))).
  { induction (DB.trend_data db) as [|r l IH]; cbn; lia. }
  lia.
Qed.

Lemma sqlite_length_positive s :
  0 < DB.sqlite_length s <-> exists c s', s = String c s' /\ c <> Ascii.zero.
Proof.
  destruct s as [|c s]; cbn [DB.sqlite_length].
  - split; [lia|intros (c & s' & H & _); discriminate H].
  - assert (0 <= DB.sqlite_length s) by (induction s as [|d s IH]; cbn; [lia|destruct (_ =? _)%char; lia]).
    destruct (Ascii.eqb_spec c Ascii.zero) as [->|Hc].
    + split; [lia|intros (c & s' & [= <- _] & Hc); congruence].
    + split; [eauto|lia].
Qed.

(** The [CHECK] constraints on a record that passed the validation: its
    source and its topic do not begin with a NUL character. *)
Lemma accepted_check_constraints src top score :
  DB.input_accepted src top score = true ->
  (DB.check_constraints src top score = true
   <-> 0 < DB.sqlite_length src /\ 0 < DB.sqlite_length top).
Proof.
  unfold DB.input_accepted, DB.check_constraints, DB.Qltb.
  rewrite !andb_true_iff, !negb_true_iff, !orb_false_iff, !negb_false_iff, !Z.ltb_lt.
  intros [[[[[Hs _] [Ht _]] Hq] _] _]. tauto.
Qed.

Lemma insert_once_stores w src top con u score md :
  DB.input_accepted src top score = true ->
  DB.check_constraints src top score = true ->
  DB.io_faults w = [] ->
  DB.has_recent_duplicate w (DB._generate_content_hash src top con) = false ->
  DB.insert_trend_data_once src top con u score md w
  = (Return (DB.next_rowid (DB.disk w)),
     DB.incr_query_count
       (DB.set_disk (DB.with_new_row (DB.disk w) (DB.sqlite_now w) src top con u score md) w)).
Proof.
  intros Hok Hcheck Hio Hdup.
  unfold DB.insert_trend_data_once, try_except, bind.
  rewrite (validate_accepted _ _ _ _ Hok), (is_duplicate_trend_no_fault _ _ Hio), Hdup.
  unfold DB._get_connection, DB.cursor_execute, DB.sql_insert_trend.
  rewrite Hio, Hcheck. reflexivity.
Qed.

Lemma insert_once_duplicate w src top con u score md :
  DB.input_accepted src top score = true ->
  DB.io_faults w = [] ->
  DB.has_recent_duplicate w (DB._generate_content_hash src top con) = true ->
  DB.insert_trend_data_once src top con u score md w = (Return (-1), w).
Proof.
  intros Hok Hio Hdup.
  unfold DB.insert_trend_data_once, try_except, bind.
  rewrite (validate_accepted _ _ _ _ Hok), (is_duplicate_trend_no_fault _ _ Hio), Hdup.
  reflexivity.
Qed.

Lemma insert_once_refused w src top con u score md :
  DB.input_accepted src top score = false ->
  exists msg,
    DB.insert_trend_data_once src top con u score md w
    = (Raise (mkExn ValueError msg), DB.incr_error_count w).
Proof.
  intros Hbad. destruct (validate_refused src top score w Hbad) as [msg Hv].
  exists msg. unfold DB.insert_trend_data_once, try_except, bind. rewrite Hv. reflexivity.
Qed.

Lemma insert_stores w src top con u score md :
  DB.input_accepted src top score = true ->
  DB.check_constraints src top score = true ->
  DB.io_faults w = [] ->
  DB.has_recent_duplicate w (DB._generate_content_hash src top con) = false ->
  DB.insert_trend_data src top con u score md w
  = (Return (Some (DB.next_rowid (DB.disk w))),
     DB.incr_query_count
       (DB.set_disk (DB.with_new_row (DB.disk w) (DB.sqlite_now w) src top con u score md) w)).
Proof.
  intros Hok Hcheck Hio Hdup. apply wrapper_returns; [reflexivity|].
  apply insert_once_stores; assumption.
Qed.

Lemma insert_duplicate w src top con u score md :
  DB.input_accepted src top score = true ->
  DB.io_faults w = [] ->
  DB.has_recent_duplicate w (DB._generate_content_hash src top con) = true ->
  DB.insert_trend_data src top con u score md w = (Return (Some (-1)), w).
Proof.
  intros Hok Hio Hdup. apply wrapper_returns; [reflexivity|].
  apply insert_once_duplicate; assumption.
Qed.

Lemma recent_duplicate_later now now' h r :
  now <= now' ->
  DB.is_recent_duplicate now h r = false -> DB.is_recent_duplicate now' h r = false.
Proof.
  unfold DB.is_recent_duplicate. intros Hle.
  rewrite !andb_false_iff, !Z.ltb_ge. intros [H|H]; [left; exact H|right; lia].
Qed.

Lemma next_rowid_after_insert db now src top con u score md :
  DB.next_rowid db < DB.next_rowid (DB.with_new_row db now src top con u score md).
Proof.
  pose proof (next_rowid_positive db) as Hpos.
  unfold DB.next_rowid at 2. unfold DB.with_new_row. cbn [DB.trend_data DB.trend_data_seq].
  rewrite Z2N.id by lia.
  assert (forall l z, z <= fold_right Z.max z l) as Hge.
  { induction l as [|x l IH]; intros z; cbn; [lia|]. specialize (IH z). lia. }
  pose proof (Hge (map DB.id (DB.trend_data db ++
    [DB.mkRow (DB.next_rowid db) now src top con u score
       (match md with [] => None | _ => Some md end)
       (DB._generate_content_hash src top con)])) (DB.next_rowid db)).
  lia.
Qed.

Lemma no_recent_duplicate_later w w2 h :
  DB.sqlite_now w <= DB.sqlite_now w2 ->
  existsb (DB.is_recent_duplicate (DB.sqlite_now w) h) (DB.trend_data (DB.disk w)) = false ->
  existsb (DB.is_recent_duplicate (DB.sqlite_now w2) h) (DB.trend_data (DB.disk w)) = false.
Proof.
  intros Hnow. induction (DB.trend_data (DB.disk w)) as [|r l IH]; cbn; [reflexivity|].
  intros Hdup. apply orb_false_iff in Hdup as [Hr Hl].
  rewrite (recent_duplicate_later (DB.sqlite_now w) _ h r Hnow Hr). cbn. exact (IH Hl).
Qed.

(** C1: on a store that holds no copy of the record from the last 24 hours
    and whose storage works, a valid record that satisfies the CHECK
    constraints of the table (its source and topic do not begin with a NUL
    character) is stored under a positive row id; while less than 24 hours
    have passed since the timestamp of that row, an insert with the same
    source, topic and content (whatever its other fields) is answered with
    the sentinel -1 and changes nothing; once 24 hours have passed, the same
    insert is stored again, under a new row id. The decision is taken on the
    digest [_generate_content_hash source topic content], the MD5 of the text
    "source:topic:content": inside the window, a record with that digest is
    answered with -1, and a record with another digest, of which the store
    holds no recent copy either, is stored. *)
Theorem insert_stored_duplicate_stored :
  forall w src top con u score md,
    DB.input_accepted src top score = true ->
    DB.check_constraints src top score = true ->
    DB.io_faults w = [] ->
    DB.has_recent_duplicate w (DB._generate_content_hash src top con) = false ->
    exists id1 w1,
      DB.insert_trend_data src top con u score md w = (Return (Some id1), w1)
      /\ 0 < id1
      /\ DB.trend_data (DB.disk w1)
         = DB.trend_data (DB.disk w) ++
             [DB.mkRow id1 (DB.sqlite_now w) src top con u score
                       (match md with [] => None | _ => Some md end)
                       (DB._generate_content_hash src top con)]
      /\ (forall w2 u2 score2 md2,
             DB.disk w2 = DB.disk w1 -> DB.io_faults w2 = [] ->
             DB.input_accepted src top score2 = true ->
             DB.sqlite_now w2 < DB.sqlite_now w + 86400 ->
             DB.insert_trend_data src top con u2 score2 md2 w2 = (Return (Some (-1)), w2))
      /\ (forall w3 u3 score3 md3,
             DB.disk w3 = DB.disk w1 -> DB.io_faults w3 = [] ->
             DB.input_accepted src top score3 = true ->
             DB.check_constraints src top score3 = true ->
             DB.sqlite_now w + 86400 <= DB.sqlite_now w3 ->
             exists id3 w4,
               DB.insert_trend_data src top con u3 score3 md3 w3 = (Return (Some id3), w4)
               /\ id1 < id3
               /\ length (DB.trend_data (DB.disk w4)) = S (length (DB.trend_data (DB.disk w1))))
      /\ DB._generate_content_hash src top con
         = Hashlib.md5_hexdigest
             (Hashlib.encode_utf8 (src +:+ ":" +:+ top +:+ ":" +:+ default EmptyString con))
      /\ (forall w2 src2 top2 con2 u2 score2 md2,
             DB.disk w2 = DB.disk w1 -> DB.io_faults w2 = [] ->
             DB.input_accepted src2 top2 score2 = true ->
             DB.sqlite_now w2 < DB.sqlite_now w + 86400 ->
             DB._generate_content_hash src2 top2 con2 = DB._generate_content_hash src top con ->
             DB.insert_trend_data src2 top2 con2 u2 score2 md2 w2 = (Return (Some (-1)), w2))
      /\ (forall w2 src2 top2 con2 u2 score2 md2,
             DB.disk w2 = DB.disk w1 -> DB.io_faults w2 = [] ->
             DB.input_accepted src2 top2 score2 = true ->
             DB.check_constraints src2 top2 score2 = true ->
             DB.sqlite_now w <= DB.sqlite_now w2 ->
             DB.has_recent_duplicate w (DB._generate_content_hash src2 top2 con2) = false ->
             DB._generate_content_hash src2 top2 con2 <> DB._generate_content_hash src top con ->
             exists id2 w3,
               DB.insert_trend_data src2 top2 con2 u2 score2 md2 w2 = (Return (Some id2), w3)
               /\ id1 < id2
               /\ length (DB.trend_data (DB.disk w3)) = S (length (DB.trend_data (DB.disk w1)))).
Proof.
  intros w src top con u score md Hok Hcheck Hio Hdup.
  eexists _, _. split; [apply insert_stores; assumption|].
  split; [apply next_rowid_positive|].
  split; [reflexivity|].
  set (h := DB._generate_content_hash src top con) in *.
  assert (Hsame : forall w2 src2 top2 con2 u2 score2 md2,
             DB.disk w2
             = DB.disk (DB.incr_query_count
                 (DB.set_disk (DB.with_new_row (DB.disk w) (DB.sqlite_now w)
                                               src top con u score md) w)) ->
             DB.io_faults w2 = [] ->
             DB.input_accepted src2 top2 score2 = true ->
             DB.sqlite_now w2 < DB.sqlite_now w + 86400 ->
             DB._generate_content_hash src2 top2 con2 = h ->
             DB.insert_trend_data src2 top2 con2 u2 score2 md2 w2 = (Return (Some (-1)), w2)).
  { intros w2 src2 top2 con2 u2 score2 md2 Hdisk Hio2 Hok2 Hnow Hh.
    apply insert_duplicate; try assumption. rewrite Hh.
    unfold DB.has_recent_duplicate. rewrite Hdisk. cbn.
    rewrite existsb_app. cbn. unfold DB.is_recent_duplicate at 2. cbn. fold h.
    rewrite String.eqb_refl. replace (DB.sqlite_now w2 - 86400 <? DB.sqlite_now w) with true
      by (symmetry; apply Z.ltb_lt; lia).
    cbn. apply orb_true_r. }
  split; [intros w2 u2 score2 md2 Hdisk Hio2 Hok2 Hnow; apply Hsame; auto|].
  split.
  - intros w3 u3 score3 md3 Hdisk Hio3 Hok3 Hcheck3 Hnow.
    assert (Hdup3 : DB.has_recent_duplicate w3 h = false).
    { unfold DB.has_recent_duplicate. rewrite Hdisk. cbn.
      rewrite existsb_app. cbn. unfold DB.is_recent_duplicate at 2. cbn.
      replace (DB.sqlite_now w3 - 86400 <? DB.sqlite_now w) with false
        by (symmetry; apply Z.ltb_ge; lia).
      rewrite andb_false_r, orb_false_r.
      apply (no_recent_duplicate_later w w3 h); [lia|exact Hdup]. }
    eexists _, _. split; [apply insert_stores; assumption|].
    rewrite Hdisk. cbn. split.
    + apply next_rowid_after_insert.
    + rewrite !length_app. cbn. lia.
  - split; [reflexivity|]. split; [exact Hsame|].
    intros w2 src2 top2 con2 u2 score2 md2 Hdisk Hio2 Hok2 Hcheck2 Hnow Hdup2 Hother.
    assert (Hdup' : DB.has_recent_duplicate w2 (DB._generate_content_hash src2 top2 con2)
                    = false).
    { unfold DB.has_recent_duplicate. rewrite Hdisk. cbn.
      rewrite existsb_app. cbn. unfold DB.is_recent_duplicate at 2. cbn. fold h.
      replace (h =? DB._generate_content_hash src2 top2 con2)%string with false
        by (symmetry; apply String.eqb_neq; congruence).
      cbn. rewrite orb_false_r.
      apply (no_recent_duplicate_later w w2 _ Hnow Hdup2). }
    eexists _, _. split; [apply insert_stores; assumption|].
    rewrite Hdisk. cbn. split.
    + apply next_rowid_after_insert.
    + rewrite !length_app. cbn. lia.
Qed.

Lemma insert_stored_duplicate_stored_witness :
  let w := DB.world_at 1000 DB.empty_database in
  DB.input_accepted "test" "duplicate test" 0 = true
  /\ DB.check_constraints "test" "duplicate test" 0 = true
  /\ DB.io_faults w = []
  /\ DB.has_recent_duplicate w
       (DB._generate_content_hash "test" "duplicate test" (Some "same content"%string)) = false
  /\ exists id1 w1,
       DB.insert_trend_data "test" "duplicate test" (Some "same content"%string) None 0 [] w
       = (Return (Some id1), w1)
       /\ 0 < id1
       /\ DB.insert_trend_data "test" "duplicate test" (Some "same content"%string) None 0 []
            (DB.elapse 10 w1)
          = (Return (Some (-1)), DB.elapse 10 w1)
       /\ exists id2 w3,
            DB.insert_trend_data "test" "duplicate test" (Some "other content"%string) None 0 []
              (DB.elapse 10 w1)
            = (Return (Some id2), w3)
            /\ id1 < id2.
Proof.
  intros w.
  split; [vm_compute; reflexivity|]. split; [vm_compute; reflexivity|].
  split; [reflexivity|]. split; [reflexivity|].
  destruct (insert_stored_duplicate_stored w
              "test" "duplicate test" (Some "same content"%string) None 0 [])
    as (id1 & w1 & Hins & Hpos & Hrows & Hsame & _ & _ & _ & Hother);
    [vm_compute; reflexivity|vm_compute; reflexivity|reflexivity|reflexivity|].
  assert (Hw1 : w1 = snd (DB.insert_trend_data "test" "duplicate test"
                            (Some "same content"%string) None 0 [] w))
    by (rewrite Hins; reflexivity).
  assert (Hfaults : DB.io_faults (DB.elapse 10 w1) = [])
    by (rewrite Hw1; vm_compute; reflexivity).
  assert (Hnow : DB.sqlite_now (DB.elapse 10 w1) = 1010)
    by (rewrite Hw1; vm_compute; reflexivity).
  exists id1, w1. split; [exact Hins|]. split; [exact Hpos|]. split.
  - apply Hsame; [reflexivity|exact Hfaults|vm_compute; reflexivity|].
    rewrite Hnow. vm_compute. reflexivity.
  - destruct (Hother (DB.elapse 10 w1) "test"%string "duplicate test"%string
                (Some "other content"%string) None 0%Q [])
      as (id2 & w3 & Hins2 & Hlt & _).
    + reflexivity.
    + exact Hfaults.
    + vm_compute. reflexivity.
    + vm_compute. reflexivity.
    + rewrite Hnow. vm_compute. discriminate.
    + reflexivity.
    + vm_compute. discriminate.
    + exists id2, w3. split; assumption.
Defined.

(** A source that begins with a NUL character passes the validation and is
    refused by the table: [LENGTH] of it is 0. The insert is tried three
    times and raises [IntegrityError]; nothing is stored. *)
Example insert_refuses_leading_nul :
  let src := String Ascii.zero "abc" in
  let r := DB.insert_trend_data src "topic" None None 1 []
                                (DB.world_at 1000 DB.empty_database) in
  DB.input_accepted src "topic" 1 = true
  /\ DB.check_constraints src "topic" 1 = false
  /\ fst r = Raise (mkExn IntegrityError "CHECK constraint failed: check_source_not_empty")
  /\ map Qred (DB.slept (snd r)) = [(1 # 2)%Q; 1%Q]
  /\ DB.disk (snd r) = DB.empty_database.
Proof. vm_compute. repeat split; reflexivity. Qed.

(** The unit test of the duplicate detection, run on the model: the second
    insert, in the same second, is answered with -1; a day later the record
    is stored again. *)
Example duplicate_detection :
  let w0 := DB.world_at 1000 DB.empty_database in
  let ins := DB.insert_trend_data "test" "duplicate test" (Some "same content"%string)
                                  None 0 [] in
  let '(r1, w1) := ins w0 in
  let '(r2, w2) := ins w1 in
  let '(r3, w3) := ins (DB.elapse 86400 w2) in
  r1 = Return (Some 1) /\ r2 = Return (Some (-1)) /\ r3 = Return (Some 2)
  /\ map DB.timestamp (DB.trend_data (DB.disk w3)) = [1000; 87400].
Proof. vm_compute. repeat split; reflexivity. Qed.



Lemma storage_error_not_value_error f msg : DB.exn_of_fault f <> mkExn ValueError msg.
Proof. destruct f; discriminate. Qed.



Example insert_accepts_short_topic :
  fst (DB.insert_trend_data "test" "a" None None 0 [] (DB.world_at 1000 DB.empty_database))
  = Return (Some 1)
  /\ ~ DB.spec_valid_for_storage "test" "a" 0.
Proof.
  split; [vm_compute; reflexivity|].
  intros (_ & [Hlen _] & _). vm_compute in Hlen. apply Hlen. reflexivity.
Qed.

(** C10: when the lookup of the duplicate check fails, the check answers
    "not a duplicate" instead of raising, whatever the record, and the insert
    goes on: provided the INSERT statement itself runs, a valid record that
    satisfies the CHECK constraints of the table (its source and topic do not
    begin with a NUL character) is stored under a new positive row id
    whatever the store holds, a copy of it from the last 24 hours
    included. *)
Theorem duplicate_check_fails_open :
  forall w f rest src top con u score md,
    DB.io_faults w = Some f :: rest ->
    hd None rest = None ->
    DB.input_accepted src top score = true ->
    DB.check_constraints src top score = true ->
    DB._is_duplicate_trend (DB._generate_content_hash src top con) w
    = (Return false, DB.incr_error_count (DB.set_io_faults rest w))
    /\ exists trend_id w',
         DB.insert_trend_data src top con u score md w = (Return (Some trend_id), w')
         /\ 0 < trend_id
         /\ DB.trend_data (DB.disk w')
            = DB.trend_data (DB.disk w) ++
                [DB.mkRow trend_id (DB.sqlite_now w) src top con u score
                          (match md with [] => None | _ => Some md end)
                          (DB._generate_content_hash src top con)].
Proof.
  intros w f rest src top con u score md Hio Hrest Hok Hcheck.
  pose proof (is_duplicate_trend_fault w (DB._generate_content_hash src top con) f rest Hio)
    as Hdup.
  split; [exact Hdup|].
  exists (DB.next_rowid (DB.disk w)).
  assert (exists w',
    DB.insert_trend_data_once src top con u score md w
    = (Return (DB.next_rowid (DB.disk w)), w')
    /\ DB.disk w' = DB.with_new_row (DB.disk w) (DB.sqlite_now w) src top con u score md)
    as (w' & Honce & Hdisk).
  { unfold DB.insert_trend_data_once, try_except, bind.
    rewrite (validate_accepted _ _ _ _ Hok), Hdup.
    unfold DB._get_connection, DB.cursor_execute, DB.sql_insert_trend.
    rewrite Hcheck.
    destruct rest as [|[f'|] rest']; [| discriminate Hrest |]; cbn; eexists; split; reflexivity. }
  exists w'. split; [apply wrapper_returns; [reflexivity|exact Honce]|].
  split; [apply next_rowid_positive|].
  rewrite Hdisk. reflexivity.
Qed.

Lemma duplicate_check_fails_open_witness :
  let w := DB.mkWorld 1000 [] DB.empty_database [Some DB.DatabaseLocked] 0 0 in
  DB.io_faults w = [Some DB.DatabaseLocked]
  /\ hd None (@nil (option DB.Fault)) = None
  /\ DB.input_accepted "test" "duplicate test" 0 = true
  /\ DB.check_constraints "test" "duplicate test" 0 = true
  /\ DB._is_duplicate_trend
       (DB._generate_content_hash "test" "duplicate test" (Some "same content"%string)) w
     = (Return false, DB.incr_error_count (DB.set_io_faults [] w))
  /\ exists trend_id w',
       DB.insert_trend_data "test" "duplicate test" (Some "same content"%string) None 0 [] w
       = (Return (Some trend_id), w')
       /\ 0 < trend_id.
Proof.
  split; [reflexivity|]. split; [reflexivity|]. split; [vm_compute; reflexivity|].
  split; [vm_compute; reflexivity|].
  destruct (duplicate_check_fails_open
              (DB.mkWorld 1000 [] DB.empty_database [Some DB.DatabaseLocked] 0 0)
              DB.DatabaseLocked [] "test" "duplicate test" (Some "same content"%string)
              None 0 [])
    as (Hcheck & trend_id & w' & Hins & Hpos & _);
    [reflexivity|reflexivity|vm_compute; reflexivity|vm_compute; reflexivity|].
  split; [exact Hcheck|]. exists trend_id, w'. split; assumption.
Defined.

(** A copy within the window is stored when the lookup fails: the record is
    stored, the storage fails once, and the same record, inserted in the same
    second, is stored a second time instead of being answered with -1. *)
Example duplicate_stored_when_lookup_fails :
  let w0 := DB.world_at 1000 DB.empty_database in
  let ins := DB.insert_trend_data "test" "duplicate test" (Some "same content"%string)
                                  None 0 [] in
  let '(r1, w1) := ins w0 in
  let '(r2, w2) := ins (DB.set_io_faults [Some DB.DiskIOError] w1) in
  r1 = Return (Some 1) /\ r2 = Return (Some 2)
  /\ map DB.hash_value (DB.trend_data (DB.disk w2))
     = ["1f2f991c13d98f0a539c32a40d40d114"; "1f2f991c13d98f0a539c32a40d40d114"]%string
  /\ map DB.timestamp (DB.trend_data (DB.disk w2)) = [1000; 1000].
Proof. vm_compute. repeat split; reflexivity. Qed.

(** *** Cleanup *)

Lemma cursor_execute_no_fault {A} (stmt : DB.Stmt A) w c :
  DB.io_faults w = [] -> DB.cursor_execute stmt (w, c) = stmt (w, c).
Proof. intros Hio. unfold DB.cursor_execute. rewrite Hio. reflexivity. Qed.

Ltac run_statements Hio :=
  repeat first
    [ rewrite cursor_execute_no_fault by exact Hio
    | match goal with
      | H : (0 <? _) = _ |- _ => rewrite H
      end
    | progress cbn -[Z.mul Z.ltb DB.count_older DB.delete_older DB.datetime_now_minus
                     DB.cursor_execute] ].

(** With a working storage, the cleanup returns only when it finds nothing
    to delete: after a DELETE the connection is inside a transaction, VACUUM
    is refused, and the exception rolls the deletions back. *)
Lemma cleanup_no_fault w days :
  DB.io_faults w = [] ->
  (0 <? DB.old_trend_data days w) || (0 <? DB.old_trend_analysis days w)
  || (0 <? DB.old_published_content days w) = true ->
  DB.cleanup_old_data days w
  = (Raise DB.vacuum_error, DB.incr_error_count (DB.incr_error_count w)).
Proof.
  intros Hio Hold.
  unfold DB.old_trend_data, DB.old_trend_analysis, DB.old_published_content in Hold.
  unfold DB.cleanup_old_data, try_except, bind, DB._get_connection.
  destruct (0 <? DB.count_older DB.timestamp (DB.datetime_now_minus days 86400 w)
                   (DB.trend_data (DB.disk w))) eqn:H1;
    destruct (0 <? DB.count_older DB.analysis_timestamp
                     (DB.datetime_now_minus (days * 2) 86400 w)
                     (DB.trend_analysis (DB.disk w))) eqn:H2;
    destruct (0 <? DB.count_older DB.published_timestamp
                     (DB.datetime_now_minus days 86400 w)
                     (DB.published_content (DB.disk w))) eqn:H3;
    try discriminate Hold; run_statements Hio; reflexivity.
Qed.

Lemma cleanup_nothing_old w days :
  DB.io_faults w = [] ->
  (0 <? DB.old_trend_data days w) || (0 <? DB.old_trend_analysis days w)
  || (0 <? DB.old_published_content days w) = false ->
  exists w', DB.cleanup_old_data days w = (Return (DB.mkCleanupStats 0 0 0), w')
             /\ DB.disk w' = DB.disk w.
Proof.
  intros Hio Hold. apply orb_false_iff in Hold as [Hold H3].
  apply orb_false_iff in Hold as [H1 H2].
  unfold DB.old_trend_data, DB.old_trend_analysis, DB.old_published_content in H1, H2, H3.
  unfold DB.cleanup_old_data, try_except, bind, DB._get_connection.
  run_statements Hio. eexists. split; reflexivity.
Qed.

(** C6 on the store of the unit test: one trend, 35 days old, retention 30
    days. The count finds the row and the DELETE removes it on the
    connection, but VACUUM is refused inside the transaction the DELETE
    opened: the call raises [OperationalError] instead of returning counts,
    and the rollback leaves the old row in the store. *)
Theorem cleanup_old_record_raises :
  let w := DB.world_at DB.thirty_five_days DB.store_with_old_row in
  DB.old_trend_data 30 w = 1
  /\ fst (DB.cleanup_old_data 30 w) = Raise DB.vacuum_error
  /\ DB.disk (snd (DB.cleanup_old_data 30 w)) = DB.store_with_old_row.
Proof. vm_compute. repeat split; reflexivity. Qed.

(** *** The recent-trends query *)

Lemma recent_leb_iff r1 r2 :
  DB.recent_leb r1 r2 = true <->
  (DB.engagement_score r2 < DB.engagement_score r1)%Q
  \/ (DB.engagement_score r1 == DB.engagement_score r2)%Q /\ DB.timestamp r2 <= DB.timestamp r1.
Proof.
  unfold DB.recent_leb, DB.Qltb.
  rewrite orb_true_iff, andb_true_iff, negb_true_iff, Qeq_bool_iff, Z.leb_le.
  rewrite <- not_true_iff_false, Qle_bool_iff.
  split; (intros [H|H]; [left|right; exact H]).
  - apply Qnot_le_lt. exact H.
  - apply Qlt_not_le. exact H.
Qed.

Lemma recent_order_iff r1 r2 :
  DB.recent_order r1 r2 <->
  (DB.engagement_score r2 < DB.engagement_score r1)%Q
  \/ (DB.engagement_score r1 == DB.engagement_score r2)%Q /\ DB.timestamp r2 <= DB.timestamp r1.
Proof. unfold DB.recent_order. rewrite Is_true_true. apply recent_leb_iff. Qed.

#[global] Instance recent_order_transitive : Transitive DB.recent_order.
Proof.
  intros r1 r2 r3. rewrite !recent_order_iff.
  intros [H12|[E12 T12]] [H23|[E23 T23]].
  - left. eapply Qlt_trans; eassumption.
  - left. rewrite <- E23. exact H12.
  - left. rewrite E12. exact H23.
  - right. split; [rewrite E12; exact E23|lia].
Qed.

#[global] Instance recent_order_total : Total DB.recent_order.
Proof.
  intros r1 r2. rewrite !recent_order_iff.
  destruct (Q_dec (DB.engagement_score r1) (DB.engagement_score r2)) as [[Hlt|Hgt]|Heq].
  - right. left. exact Hlt.
  - left. left. exact Hgt.
  - destruct (Z_le_gt_dec (DB.timestamp r2) (DB.timestamp r1)).
    + left. right. split; [exact Heq|assumption].
    + right. right. split; [symmetry; exact Heq|lia].
Qed.

Lemma In_firstn_In {A} (x : A) n l : In x (firstn n l) -> In x l.
Proof.
  revert n. induction l as [|y l IH]; intros [|n]; cbn; try tauto.
  intros [->|H]; [left; reflexivity|right; exact (IH _ H)].
Qed.







(** With no cap the query returns every row it selects. *)
Lemma select_recent_complete threshold src rows :
  DB.select_recent threshold src None rows
  ≡ₚ List.filter (fun r => DB.sql_ge (DB.timestamp r) threshold && DB.source_clause src r) rows.
Proof. unfold DB.select_recent. cbn. apply merge_sort_Permutation. Qed.

Lemma get_recent_once_returns hours src limit w rows w' :
  DB.get_recent_trend_data_once hours src limit w = (Return rows, w') ->
  rows = DB.select_recent (DB.datetime_now_minus hours 3600 w') src limit
                          (DB.trend_data (DB.disk w')).
Proof.
  unfold DB.get_recent_trend_data_once, try_except, bind, DB._get_connection,
    DB.cursor_execute, DB.sql_select_recent.
  destruct (DB.limit_binds limit); destruct (DB.io_faults w) as [|[f|] rest]; cbn;
    try discriminate; intros [= <- <-]; reflexivity.
Qed.

Lemma limit_binds_iff limit :
  DB.limit_binds limit = true
  <-> forall n, limit = Some n -> n = 0 \/ - 2 ^ 63 <= n <= 2 ^ 63 - 1.
Proof.
  unfold DB.limit_binds. destruct limit as [n|]; [|split; [discriminate|reflexivity]].
  rewrite orb_true_iff, andb_true_iff, Z.eqb_eq, !Z.leb_le. split.
  - intros H m [= <-]. tauto.
  - intros H. specialize (H n eq_refl). tauto.
Qed.

Lemma limit_overflows n :
  n < - 2 ^ 63 \/ 2 ^ 63 - 1 < n -> DB.limit_binds (Some n) = false.
Proof.
  intros Hn. apply not_true_iff_false. rewrite limit_binds_iff. intros H.
  specialize (H n eq_refl). change (2 ^ 63) with 9223372036854775808 in *. lia.
Qed.

Lemma get_recent_no_fault hours src limit w :
  DB.io_faults w = [] ->
  DB.limit_binds limit = true ->
  DB.get_recent_trend_data hours src limit w
  = (Return (Some (DB.select_recent (DB.datetime_now_minus hours 3600 w) src limit
                                    (DB.trend_data (DB.disk w)))),
     DB.incr_query_count w).
Proof.
  intros Hio Hlimit. apply wrapper_returns; [reflexivity|].
  unfold DB.get_recent_trend_data_once, try_except, bind, DB._get_connection,
    DB.cursor_execute, DB.sql_select_recent.
  rewrite Hio, Hlimit. reflexivity.
Qed.





(** A limit that does not fit a signed 64-bit integer cannot be bound: the
    call raises [OverflowError], at once. *)
Example recent_limit_overflow :
  let r := DB.get_recent_trend_data 24 None (Some (2 ^ 63))
                                    (DB.world_at 1000 DB.store_with_old_row) in
  fst r = Raise DB.limit_overflow /\ DB.slept (snd r) = []
  /\ DB.error_count (snd r) = 2%nat.
Proof. vm_compute. repeat split; reflexivity. Qed.

(** A window that starts before the first date SQLite represents: the
    threshold is NULL and no row is selected. *)
Example recent_window_out_of_range :
  let w := DB.world_at 1000000000 DB.store_with_old_row in
  fst (DB.get_recent_trend_data 58851877 None None w) = Return (Some [DB.old_row])
  /\ fst (DB.get_recent_trend_data 58851878 None None w) = Return (Some []).
Proof. vm_compute. repeat split; reflexivity. Qed.

(** An empty source filter is taken for no filter. *)
Example recent_empty_source_filter :
  fst (DB.get_recent_trend_data 24 (Some EmptyString) None
                                (DB.world_at 1000 DB.store_with_old_row))
  = Return (Some [DB.old_row])
  /\ DB.source DB.old_row <> EmptyString.
Proof. split; [vm_compute; reflexivity|discriminate]. Qed.

(** A negative window formats to a modifier SQLite does not parse: no row
    is selected. *)
Example recent_negative_window :
  fst (DB.get_recent_trend_data (-5) None None (DB.world_at 1000 DB.store_with_old_row))
  = Return (Some []).
Proof. vm_compute. reflexivity. Qed.

(** ** The rate limiter *)

Lemma Qltb_true a b : DB.Qltb a b = true <-> (a < b)%Q.
Proof.
  unfold DB.Qltb. rewrite negb_true_iff, <- not_true_iff_false, Qle_bool_iff.
  split; [apply Qnot_le_lt|apply Qlt_not_le].
Qed.

Lemma Qltb_false a b : DB.Qltb a b = false <-> (b <= a)%Q.
Proof. unfold DB.Qltb. rewrite negb_false_iff. apply Qle_bool_iff. Qed.

Lemma adaptive_delay_nonneg errors : 0 < errors -> (0 <= Collectors.adaptive_delay errors)%Q.
Proof.
  intros H. unfold Collectors.adaptive_delay. apply Q.min_glb; [|discriminate].
  unfold Qle. cbn. lia.
Qed.

Lemma adaptive_delay_three : (Collectors.adaptive_delay 3 == (3 # 2))%Q.
Proof. reflexivity. Qed.

(** The gate stamps the source with the time at which it lets the caller
    through. *)
Lemma gate_records_time src p :
  Collectors.last_request_times (Collectors.collector (Collectors._rate_limit_check src p))
    !! src
  = Some (Collectors.clock (Collectors._rate_limit_check src p)).
Proof.
  unfold Collectors._rate_limit_check, Collectors.set_last_request_time. cbn.
  apply lookup_insert_eq.
Qed.

Lemma gate_keeps_intervals src p :
  Collectors.min_request_intervals (Collectors.collector (Collectors._rate_limit_check src p))
  = Collectors.min_request_intervals (Collectors.collector p)
  /\ Collectors.api_status (Collectors.collector (Collectors._rate_limit_check src p))
     = Collectors.api_status (Collectors.collector p).
Proof.
  unfold Collectors._rate_limit_check, Collectors.set_last_request_time. cbn.
  destruct (DB.Qltb _ _); cbn; split; reflexivity.
Qed.

(** The part of the gate's contract the code keeps: the caller is let
    through no sooner than the minimum interval after the time stamped by
    the previous call for the source. *)
Lemma gate_waits_min_interval src p :
  (default 0%Q (Collectors.last_request_times (Collectors.collector p) !! src)
   + default 1%Q (Collectors.min_request_intervals (Collectors.collector p) !! src)
   <= Collectors.clock (Collectors._rate_limit_check src p))%Q.
Proof.
  unfold Collectors._rate_limit_check, Collectors.set_last_request_time, Collectors.time_time.
  set (last := default 0%Q _). set (interval := default 1%Q _).
  set (errors := default 0 _).
  destruct (DB.Qltb (Collectors.clock p - last) interval) eqn:Hlt; cbn.
  - destruct (Z.ltb_spec 0 errors) as [Herr|Herr]; cbn.
    + pose proof (adaptive_delay_nonneg errors Herr). lra.
    + lra.
  - apply Qltb_false in Hlt. lra.
Qed.

(** Two consecutive calls for a source are at least the minimum interval
    apart, however long the caller takes between them. *)
Lemma consecutive_gates_spaced src p d :
  let p1 := Collectors._rate_limit_check src p in
  let p2 := Collectors._rate_limit_check src (Collectors.elapse d p1) in
  (Collectors.clock p1
   + default 1%Q (Collectors.min_request_intervals (Collectors.collector p) !! src)
   <= Collectors.clock p2)%Q.
Proof.
  intros p1 p2.
  pose proof (gate_waits_min_interval src (Collectors.elapse d p1)) as H.
  cbn [Collectors.elapse Collectors.collector] in H.
  subst p1 p2. rewrite gate_records_time in H.
  destruct (gate_keeps_intervals src p) as [Hint _]. rewrite Hint in H. exact H.
Qed.

(** When the gate has to wait for the interval and the source has errors,
    it waits the adaptive delay on top. *)
Lemma gate_adds_adaptive_delay src p status :
  Collectors.api_status (Collectors.collector p) !! src = Some status ->
  0 < Collectors.error_count status ->
  (Collectors.clock p
   < default 0%Q (Collectors.last_request_times (Collectors.collector p) !! src)
     + default 1%Q (Collectors.min_request_intervals (Collectors.collector p) !! src))%Q ->
  (Collectors.clock (Collectors._rate_limit_check src p)
   == default 0%Q (Collectors.last_request_times (Collectors.collector p) !! src)
      + default 1%Q (Collectors.min_request_intervals (Collectors.collector p) !! src)
      + Collectors.adaptive_delay (Collectors.error_count status))%Q.
Proof.
  intros Hst Herr Hearly.
  unfold Collectors._rate_limit_check, Collectors.set_last_request_time, Collectors.time_time.
  rewrite Hst.
  change (default 0 (Collectors.error_count <$> Some status))
    with (Collectors.error_count status).
  set (last := default 0%Q _) in *. set (interval := default 1%Q _) in *.
  replace (DB.Qltb (Collectors.clock p - last) interval) with true
    by (symmetry; apply Qltb_true; lra).
  replace (0 <? Collectors.error_count status) with true by (symmetry; apply Z.ltb_lt; lia).
  cbn. lra.
Qed.

(** C5 on two consecutive calls for a source with three errors: the source
    has a minimum interval of 2 seconds; the first call is made at time 100,
    the caller comes back 2 seconds later. The second call does not sleep:
    the adaptive delay is only ever added to a wait for the interval, so the
    two calls are 2 seconds apart, not the 3.5 seconds of the interval plus
    [min(3 * 0.5, 5.0)]. The same holds for a first call, which the unit
    test of the adaptive delay times: it returns at once. *)
Theorem gate_without_adaptive_delay :
  let c := Collectors.with_error_count "reddit" 3 Collectors.initial_collector in
  let p1 := Collectors._rate_limit_check "reddit" (Collectors.process_at 100 c) in
  let p2 := Collectors._rate_limit_check "reddit" (Collectors.elapse 2 p1) in
  Collectors.slept p1 = [] /\ Collectors.slept p2 = []
  /\ (Collectors.clock p2 - Collectors.clock p1 == 2)%Q
  /\ ~ (2 + Collectors.adaptive_delay 3 <= Collectors.clock p2 - Collectors.clock p1)%Q.
Proof.
  vm_compute. repeat split; try reflexivity. intros H. apply H. reflexivity.
Qed.

(** When the caller comes back sooner, the wait includes the adaptive
    delay. *)
Example gate_with_adaptive_delay :
  let c := Collectors.with_error_count "reddit" 3 Collectors.initial_collector in
  let p1 := Collectors._rate_limit_check "reddit" (Collectors.process_at 100 c) in
  let p2 := Collectors._rate_limit_check "reddit" (Collectors.elapse 1 p1) in
  (Collectors.clock p2 - Collectors.clock p1 == 2 + Collectors.adaptive_delay 3)%Q.
Proof. vm_compute. reflexivity. Qed.

(** ** Cleaning *)

Lemma slice_to_length n s : len (slice_to n s) <= Z.of_nat n.
Proof.
  unfold len. revert s. induction n as [|n IH]; intros [|c s]; cbn; try lia.
  specialize (IH s). lia.
Qed.

Lemma clean_trend_bounds now trend cleaned :
  Collectors.clean_trend now trend = Return (Some cleaned) ->
  2 <= len (Collectors.topic cleaned) <= 200
  /\ (0 <= Collectors.engagement_score cleaned)%Q
  /\ len (Collectors.content cleaned) <= 1000
  /\ len (Collectors.url cleaned) <= 500.
Proof.
  unfold Collectors.clean_trend.
  destruct (negb (truthy_opt (Collectors.raw_source trend))
            || negb (truthy_opt (Collectors.raw_topic trend))); [discriminate|].
  destruct (Collectors.float_of_score (Collectors.raw_engagement_score trend)) as [score|e];
    [|discriminate].
  cbn [Collectors.topic].
  destruct (Z.leb_spec 2 (len (slice_to 200 (strip (default EmptyString
                                                     (Collectors.raw_topic trend))))))
    as [Htopic|Htopic]; [|discriminate].
  intros [= <-].
  cbn [Collectors.topic Collectors.engagement_score Collectors.content Collectors.url].
  split; [split; [exact Htopic|apply (slice_to_length 200)]|].
  split; [apply Q.le_max_l|].
  split.
  - destruct (truthy_opt (Collectors.raw_content trend));
      [apply (slice_to_length 1000)|discriminate].
  - destruct (truthy_opt (Collectors.raw_url trend));
      [apply (slice_to_length 500)|discriminate].
Qed.

Lemma clean_loop_invariant (P : Collectors.Trend -> Prop) now :
  (forall trend cleaned, Collectors.clean_trend now trend = Return (Some cleaned) -> P cleaned) ->
  forall trends validated,
    Forall P validated -> Forall P (Collectors.clean_loop now trends validated).
Proof.
  intros HP trends. induction trends as [|trend rest IH]; intros validated Hv; cbn;
    [exact Hv|].
  destruct (Collectors.clean_trend now trend) as [[cleaned|]|e] eqn:Hc; apply IH; try exact Hv.
  apply Forall_app. split; [exact Hv|]. constructor; [|constructor]. eapply HP, Hc.
Qed.

(** What the cleaning does guarantee, for every batch: it returns (a record
    it cannot convert is skipped), and every record it keeps has a topic of
    2 to 200 characters, an engagement score that is not negative, a content
    of at most 1000 characters and a url of at most 500. *)
Lemma clean_survivors_bounded now trends :
  Forall (fun cleaned =>
            2 <= len (Collectors.topic cleaned) <= 200
            /\ (0 <= Collectors.engagement_score cleaned)%Q
            /\ len (Collectors.content cleaned) <= 1000
            /\ len (Collectors.url cleaned) <= 500)
         (Collectors._validate_and_clean_trends now trends).
Proof.
  apply clean_loop_invariant; [|constructor].
  intros trend cleaned. apply clean_trend_bounds.
Qed.

(** A negative score is clamped to 0, a record without source is dropped,
    a score that is no number drops the record instead of raising. *)
Example clean_examples :
  map Collectors.engagement_score
      (Collectors._validate_and_clean_trends 1000
         [Collectors.mkRawTrend (Some "test"%string) (Some "Negative engagement"%string)
                                None None (Collectors.ScoreNumber (-10)) None;
          Collectors.mkRawTrend None (Some "No source"%string) None None
                                Collectors.ScoreAbsent None;
          Collectors.mkRawTrend (Some "test"%string) (Some "Bad score"%string) None None
                                Collectors.ScoreNotNumeric None])
  = [0%Q].
Proof. vm_compute. reflexivity. Qed.

(** C2 on a raw trend whose source is one blank: the record passes the
    check for a missing source, which is made before the source is trimmed,
    and survives with an empty source. It does not satisfy the validity
    invariant, and the store refuses it with "Source cannot be empty". *)
Theorem clean_keeps_blank_source :
  let cleaned := Collectors._validate_and_clean_trends 1000 [Collectors.blank_source_trend] in
  map Collectors.source cleaned = [EmptyString]
  /\ ~ Forall Collectors.spec_clean cleaned
  /\ Forall (fun trend =>
               fst (Main.insert_trend trend (DB.world_at 1000 DB.empty_database))
               = Raise (mkExn ValueError "Source cannot be empty")) cleaned.
Proof.
  intros cleaned.
  assert (Hcleaned : cleaned = [Collectors.mkTrend "" "AI news" "Content about AI" "" 5 [] 1000])
    by (vm_compute; reflexivity).
  rewrite Hcleaned. clear Hcleaned cleaned.
  split; [reflexivity|]. split.
  - intros H. apply Forall_inv in H. destruct H as [Hsrc _]. apply Hsrc. reflexivity.
  - constructor; [vm_compute; reflexivity|constructor].
Qed.

(** ** The batch-insert loop *)

Lemma too_many_failures_iff failed batch_size :
  Main.too_many_failures failed batch_size = true <-> batch_size < 2 * failed.
Proof.
  unfold Main.too_many_failures. rewrite Qltb_true.
  unfold Qlt, Qmult, inject_Z. cbn [Qnum Qden]. lia.
Qed.

Lemma too_many_failures_not failed batch_size :
  Main.too_many_failures failed batch_size = false <-> 2 * failed <= batch_size.
Proof.
  rewrite <- not_true_iff_false, too_many_failures_iff. lia.
Qed.

Lemma count_returned_cons {A} (o : outcome A) os :
  Main.count_returned (o :: os)
  = (if raised o then 0 else 1) + Main.count_returned os.
Proof. unfold Main.count_returned. cbn. destruct (raised o); cbn; lia. Qed.

Lemma count_raised_cons {A} (o : outcome A) os :
  Main.count_raised (o :: os) = (if raised o then 1 else 0) + Main.count_raised os.
Proof. unfold Main.count_raised. cbn. destruct (raised o); cbn; lia. Qed.

Lemma count_returned_app {A} (os1 os2 : list (outcome A)) :
  Main.count_returned (os1 ++ os2) = Main.count_returned os1 + Main.count_returned os2.
Proof. unfold Main.count_returned. rewrite List.filter_app, length_app. lia. Qed.

Lemma count_raised_app {A} (os1 os2 : list (outcome A)) :
  Main.count_raised (os1 ++ os2) = Main.count_raised os1 + Main.count_raised os2.
Proof. unfold Main.count_raised. rewrite List.filter_app, length_app. lia. Qed.

(** The loop runs the inserts of a prefix of what is left of the batch, in
    order; it counts those that returned and those that raised; it goes
    through the whole batch unless the failures exceed half the batch size,
    and then the insert it stops after is the failure that exceeded it. *)
Lemma store_loop_spec batch_size todo :
  forall stored failed done w,
    Main.too_many_failures failed batch_size = false ->
    let r := Main.store_loop batch_size todo stored failed done w in
    exists k,
      (k <= length todo)%nat
      /\ Main.attempted r = done ++ fst (Main.run_inserts (firstn k todo) w)
      /\ Main.world r = snd (Main.run_inserts (firstn k todo) w)
      /\ Main.stored_count r
         = stored + Main.count_returned (fst (Main.run_inserts (firstn k todo) w))
      /\ Main.failed_count r
         = failed + Main.count_raised (fst (Main.run_inserts (firstn k todo) w))
      /\ (Main.too_many_failures (Main.failed_count r) batch_size = false -> k = length todo)
      /\ (Main.too_many_failures (Main.failed_count r) batch_size = true ->
          Main.too_many_failures (Main.failed_count r - 1) batch_size = false
          /\ exists e, last (fst (Main.run_inserts (firstn k todo) w)) = Some (Raise e)).
Proof.
  induction todo as [|trend rest IH]; intros stored failed done w Hfew;
    cbn [Main.store_loop].
  - exists 0%nat. cbn. rewrite app_nil_r.
    split; [lia|]. split; [reflexivity|]. split; [reflexivity|].
    split; [unfold Main.count_returned; cbn; lia|].
    split; [unfold Main.count_raised; cbn; lia|].
    split; [reflexivity|]. intros H. congruence.
  - destruct (Main.insert_trend trend w) as [[trend_id|e] w'] eqn:Hins.
    + destruct (IH (stored + 1) failed (done ++ [Return trend_id]) w' Hfew)
        as (k & Hk & Hatt & Hw & Hst & Hfl & Hall & Hstop).
      exists (S k). cbn [firstn Main.run_inserts]. rewrite Hins.
      destruct (Main.run_inserts (firstn k rest) w') as [os w''] eqn:Hrun.
      cbn [fst snd] in *.
      rewrite count_returned_cons, count_raised_cons. cbn [raised].
      split; [cbn; lia|]. split; [rewrite Hatt, <- app_assoc; reflexivity|].
      split; [exact Hw|]. split; [lia|]. split; [lia|].
      split; [intros H; cbn; f_equal; exact (Hall H)|].
      intros H. destruct (Hstop H) as [Hbefore [e He]]. split; [exact Hbefore|].
      exists e. destruct os as [|o os']; [discriminate He|]. exact He.
    + destruct (Main.too_many_failures (failed + 1) batch_size) eqn:Hmany.
      * exists 1%nat. change (firstn 1 (trend :: rest)) with [trend].
        cbn [Main.run_inserts]. rewrite Hins. cbn.
        split; [lia|]. split; [reflexivity|]. split; [reflexivity|].
        split; [unfold Main.count_returned; cbn; lia|].
        split; [unfold Main.count_raised; cbn; lia|].
        split; [congruence|]. intros _.
        replace (failed + 1 - 1) with failed by lia. split; [exact Hfew|].
        exists e. reflexivity.
      * destruct (IH stored (failed + 1) (done ++ [Raise e]) w' Hmany)
          as (k & Hk & Hatt & Hw & Hst & Hfl & Hall & Hstop).
        exists (S k). cbn [firstn Main.run_inserts]. rewrite Hins.
        destruct (Main.run_inserts (firstn k rest) w') as [os w''] eqn:Hrun.
        cbn [fst snd] in *.
        rewrite count_returned_cons, count_raised_cons. cbn [raised].
        split; [cbn; lia|]. split; [rewrite Hatt, <- app_assoc; reflexivity|].
        split; [exact Hw|]. split; [lia|]. split; [lia|].
        split; [intros H; cbn; f_equal; exact (Hall H)|].
        intros H. destruct (Hstop H) as [Hbefore [e' He]]. split; [exact Hbefore|].
        exists e'. destruct os as [|o os']; [discriminate He|]. exact He.
Qed.

(** The part of the contract of the loop that the code keeps: the loop
    attempts the items of a prefix of the batch, in order, and returns the
    number of those whose insert did not raise. While the failures are at
    most half the batch size every item is attempted; when they exceed half
    the batch size, the loop has stopped right after the failure that
    exceeded it, and no later item was attempted. *)
Theorem batch_insert_tolerates_failures_then_stops :
  forall trends w,
    let r := Main.batch_run trends w in
    let batch_size := Z.of_nat (length trends) in
    Main._store_trends_batch trends w = (Return (Main.stored_count r), Main.world r)
    /\ exists k,
         (k <= length trends)%nat
         /\ (Main.attempted r, Main.world r) = Main.run_inserts (firstn k trends) w
         /\ Main.stored_count r = Main.count_returned (Main.attempted r)
         /\ Main.failed_count r = Main.count_raised (Main.attempted r)
         /\ (2 * Main.failed_count r <= batch_size -> k = length trends)
         /\ (batch_size < 2 * Main.failed_count r ->
             2 * (Main.failed_count r - 1) <= batch_size
             /\ exists e, last (Main.attempted r) = Some (Raise e)).
Proof.
  intros trends w r batch_size. split; [reflexivity|].
  assert (Hfew : Main.too_many_failures 0 batch_size = false)
    by (apply too_many_failures_not; subst batch_size; lia).
  destruct (store_loop_spec batch_size trends 0 0 [] w Hfew)
    as (k & Hk & Hatt & Hw & Hst & Hfl & Hall & Hstop).
  change (Main.store_loop batch_size trends 0 0 [] w) with r in Hatt, Hw, Hst, Hfl, Hall, Hstop.
  cbn [app] in Hatt.
  exists k. split; [exact Hk|].
  split; [rewrite Hatt, Hw; symmetry; apply surjective_pairing|].
  split; [rewrite Hatt; lia|]. split; [rewrite Hatt; lia|].
  split.
  - intros H. apply Hall, too_many_failures_not, H.
  - intros H. apply too_many_failures_iff in H. destruct (Hstop H) as [Hbefore He].
    split; [apply too_many_failures_not, Hbefore|]. rewrite Hatt. exact He.
Qed.

(** C9 on a batch that holds the same record twice: both items are
    attempted, the second insert is answered with -1, one row is stored, and
    the loop returns 2: the counter named [stored_count], reported as
    "Collected and stored 2 trends", is incremented after every insert that
    returns, the answer of the insert not being looked at. *)
Theorem batch_counts_duplicate_as_stored :
  let r := Main.batch_run [Main.sample_trend; Main.sample_trend]
                          (DB.world_at 1000 DB.empty_database) in
  Main.attempted r = [Return (Some 1); Return (Some (-1))]
  /\ length (DB.trend_data (DB.disk (Main.world r))) = 1%nat
  /\ Main.stored_count r = 2
  /\ Main.stored_count r <> Main.count_stored (Main.attempted r).
Proof. vm_compute. repeat split; try reflexivity. discriminate. Qed.

(** Three failures in a batch of four: the loop stops after the third item;
    the fourth, a valid record, is not attempted. *)
Example batch_stops_early :
  let bad := Collectors.mkTrend "" "no source" "" "" 0 [] 1000 in
  let r := Main.batch_run [bad; bad; bad; Main.sample_trend]
                          (DB.world_at 1000 DB.empty_database) in
  length (Main.attempted r) = 3%nat /\ Main.failed_count r = 3 /\ Main.stored_count r = 0
  /\ DB.trend_data (DB.disk (Main.world r)) = [].
Proof. vm_compute. repeat split; reflexivity. Qed.

(** Two failures in a batch of four are tolerated: the valid records after
    them are stored. *)
Example batch_tolerates_failures :
  let bad := Collectors.mkTrend "" "no source" "" "" 0 [] 1000 in
  let r := Main.batch_run [bad; bad; Main.sample_trend; Main.sample_trend]
                          (DB.world_at 1000 DB.empty_database) in
  length (Main.attempted r) = 4%nat /\ Main.failed_count r = 2 /\ Main.stored_count r = 2
  /\ length (DB.trend_data (DB.disk (Main.world r))) = 1%nat.
Proof. vm_compute. repeat split; reflexivity. Qed.

(** * Further properties *)

(** ** Retries *)

Lemma backoff_formula_monotone base factor cap (a b : Z) :
  (0 <= base)%Q -> (1 <= factor)%Q -> a <= b ->
  (Qmin (base * factor ^ a) cap <= Qmin (base * factor ^ b) cap)%Q.
Proof.
  intros Hbase Hfactor Hab.
  apply Q.min_le_compat_r.
  pose proof (Qpower_le_compat_l factor a b Hab Hfactor) as Hpow.
  set (x := (factor ^ a)%Q) in *. set (y := (factor ^ b)%Q) in *. nra.
Qed.

Lemma upto_cons k n : upto k (S n) = Z.of_nat k :: upto (S k) n.
Proof. reflexivity. Qed.

Lemma upto_lower_bound k n i : In i (upto k n) -> Z.of_nat k <= i.
Proof.
  unfold upto. rewrite in_map_iff. intros (j & <- & Hj). apply in_seq in Hj. lia.
Qed.

Lemma delays_sorted (delay : Z -> Q) :
  (forall a b, 0 <= a -> a <= b -> (delay a <= delay b)%Q) ->
  forall n k, StronglySorted Qle (map delay (upto k n)).
Proof.
  intros Hmono n. induction n as [|n IH]; intros k; [constructor|].
  rewrite upto_cons. cbn [map]. constructor; [apply IH|].
  apply List.Forall_forall. intros d Hd. apply in_map_iff in Hd as (i & <- & Hi).
  apply upto_lower_bound in Hi. apply Hmono; lia.
Qed.

Section retry_bounds.
Context {St A : Type}.
Variable time_sleep : Q -> St -> St.
Variable self : Utils.RetryWithBackoff.
Variable func : M St A.

(** Inside the range of the loop, falling out of the loop does not happen:
    the last attempt returns or raises. *)
Lemma attempts_never_none (m : nat) : forall (k : nat) s (c : nat) (sl : list Q),
  (0 < m)%nat -> Z.of_nat (k + m) = Utils.max_attempts self ->
  Utils.result (Utils.attempts time_sleep self func (upto k m) s c sl) <> Return None.
Proof.
  induction m as [|m IH]; intros k s c sl Hm Hk; [lia|].
  rewrite upto_cons. cbn [Utils.attempts].
  destruct (func s) as [[v|e] s']; cbn; [discriminate|].
  destruct (isinstance e (Utils.exceptions self)); cbn; [|discriminate].
  destruct (Z.eqb_spec (Z.of_nat k) (Utils.max_attempts self - 1)) as [Hlast|Hlast]; cbn;
    [discriminate|].
  apply IH; lia.
Qed.

End retry_bounds.

(** X1. The decorated function invokes the operation at most [max_attempts]
    times. With [max_attempts <= 0] it does not invoke it at all and returns
    [None]; with [max_attempts >= 1] it invokes it at least once and never
    returns [None] of its own: the line after the loop is not reached. *)
Theorem retry_attempts_bounded :
  forall (St A : Type) (time_sleep : Q -> St -> St) (self : Utils.RetryWithBackoff)
         (func : M St A) (s : St),
    let r := Utils.run time_sleep self func s in
    Z.of_nat (Utils.invocations r) <= Z.max 0 (Utils.max_attempts self)
    /\ (Utils.max_attempts self <= 0 -> r = Utils.mkRun (Return None) s 0%nat [])
    /\ (1 <= Utils.max_attempts self ->
        (1 <= Utils.invocations r)%nat /\ Utils.result r <> Return None).
Proof.
  intros St A time_sleep self func s r. subst r.
  split; [apply run_trace|]. split.
  - intros Hle. unfold Utils.run, range.
    replace (Z.to_nat (Utils.max_attempts self)) with 0%nat by lia. reflexivity.
  - intros Hge. unfold Utils.run, range.
    destruct (attempts_trace time_sleep self func (Z.to_nat (Utils.max_attempts self))
                             0 s 0 []) as (_ & Hpos & _); [right; lia|].
    split; [apply Hpos; lia|].
    apply attempts_never_none; lia.
Qed.

Lemma retry_attempts_bounded_witness :
  let r := Utils.run Utils.no_clock (Utils.retry_with 0 1 [Exception])
                     Utils.failing_method 0%nat in
  Utils.max_attempts (Utils.retry_with 0 1 [Exception]) <= 0
  /\ r = Utils.mkRun (Return None) 0%nat 0%nat [].
Proof.
  split; [discriminate|].
  apply (retry_attempts_bounded nat string Utils.no_clock (Utils.retry_with 0 1 [Exception])
           Utils.failing_method 0%nat).
  discriminate.
Defined.

(** X2. No sleep of the decorated function is longer than [max_delay]; and
    with a base delay that is not negative and a backoff factor of at least
    1, each sleep is at least as long as the one before. *)
Theorem retry_delays_capped_and_increasing :
  forall (St A : Type) (time_sleep : Q -> St -> St) (self : Utils.RetryWithBackoff)
         (func : M St A) (s : St),
    Forall (fun d => (d <= Utils.max_delay self)%Q)
           (Utils.delays (Utils.run time_sleep self func s))
    /\ ((0 <= Utils.base_delay self)%Q -> (1 <= Utils.backoff_factor self)%Q ->
        StronglySorted Qle (Utils.delays (Utils.run time_sleep self func s))).
Proof.
  intros St A time_sleep self func s.
  destruct (run_trace time_sleep self func s) as [-> _]. split.
  - apply List.Forall_forall. intros d Hd. apply in_map_iff in Hd as (i & <- & _).
    apply Q.le_min_r.
  - intros Hbase Hfactor. apply delays_sorted. intros a b _ Hab.
    apply backoff_formula_monotone; assumption.
Qed.

Lemma retry_delays_capped_and_increasing_witness :
  (0 <= Utils.base_delay (Utils.retry_with 3 1 [Exception]))%Q
  /\ (1 <= Utils.backoff_factor (Utils.retry_with 3 1 [Exception]))%Q
  /\ StronglySorted Qle
       (Utils.delays (Utils.run Utils.no_clock (Utils.retry_with 3 1 [Exception])
                                Utils.always_failing 0%nat)).
Proof.
  split; [discriminate|]. split; [discriminate|].
  apply (retry_delays_capped_and_increasing nat string Utils.no_clock
           (Utils.retry_with 3 1 [Exception]) Utils.always_failing 0%nat); discriminate.
Defined.

(** X3. [RetryConfig.get_delay] never exceeds [max_delay], does not decrease
    with the attempt number when the base delay is not negative and the
    factor is at least 1, and is, for the same four parameters, the delay
    the retry decorator sleeps after the failure of that attempt. *)
Theorem get_delay_capped_monotone :
  forall (self : Config.RetryConfig) (a b : Z) (excs : list ExnClass),
    (Config.get_delay self a <= Config.max_delay self)%Q
    /\ ((0 <= Config.base_delay self)%Q -> (1 <= Config.backoff_factor self)%Q -> a <= b ->
        (Config.get_delay self a <= Config.get_delay self b)%Q)
    /\ Config.get_delay self a
       = Utils.backoff_delay
           {| Utils.max_attempts := Config.max_attempts self;
              Utils.base_delay := Config.base_delay self;
              Utils.backoff_factor := Config.backoff_factor self;
              Utils.max_delay := Config.max_delay self;
              Utils.exceptions := excs |} a.
Proof.
  intros self a b excs. split; [apply Q.le_min_r|]. split; [|reflexivity].
  intros Hbase Hfactor Hab. apply backoff_formula_monotone; assumption.
Qed.

Lemma get_delay_capped_monotone_witness :
  (0 <= Config.base_delay Config.default_retry_config)%Q
  /\ (1 <= Config.backoff_factor Config.default_retry_config)%Q
  /\ 2 <= 7
  /\ (Config.get_delay Config.default_retry_config 2
      <= Config.get_delay Config.default_retry_config 7)%Q.
Proof.
  split; [discriminate|]. split; [discriminate|]. split; [lia|].
  apply (get_delay_capped_monotone Config.default_retry_config 2 7 []);
    [discriminate|discriminate|lia].
Defined.

(** The default schedule: 1, 2, 4, ... seconds, 60 from the seventh retry. *)
Example default_delays :
  map (fun a => Qred (Config.get_delay Config.default_retry_config a)) [0; 1; 5; 6; 10]
  = [1; 2; 32; 60; 60]%Q.
Proof. vm_compute. reflexivity. Qed.

(** ** The store under failures *)

Section wrapper_invariant.
Context {St A : Type}.
Variable time_sleep : Q -> St -> St.
Variable self : Utils.RetryWithBackoff.
Variable func : M St A.

(** A property of the state that sleeping keeps and that a failed invocation
    keeps holds when an invocation starts; what the last invocation
    establishes holds of the decorated function. *)
Lemma attempts_invariant (I : St -> Prop) (P : outcome (option A) -> St -> Prop) :
  (forall d s, I s -> I (time_sleep d s)) ->
  (forall s v s', I s -> func s = (Return v, s') -> P (Return (Some v)) s') ->
  (forall s e s', I s -> func s = (Raise e, s') -> I s' /\ P (Raise e) s') ->
  (forall s, I s -> P (Return None) s) ->
  forall todo s c sl,
    I s ->
    P (Utils.result (Utils.attempts time_sleep self func todo s c sl))
      (Utils.final (Utils.attempts time_sleep self func todo s c sl)).
Proof.
  intros Hsleep Hret Hraise Hnone todo.
  induction todo as [|a rest IH]; intros s c sl Hs; cbn [Utils.attempts].
  - cbn. apply Hnone, Hs.
  - destruct (func s) as [[v|e] s'] eqn:Hf.
    + cbn. eapply Hret; eassumption.
    + destruct (Hraise s e s' Hs Hf) as [Hs' HP].
      destruct (isinstance e (Utils.exceptions self)); [|exact HP].
      destruct (a =? Utils.max_attempts self - 1); [exact HP|].
      apply IH, Hsleep, Hs'.
Qed.

End wrapper_invariant.

(** One attempt of the insert: it raises and leaves the store as it was, or
    answers -1 and leaves the store as it was, or appends one row under the
    next row id. *)
Lemma insert_once_effect w src top con u score md :
  DB.insert_effect src top con u score md (DB.disk w)
    (match fst (DB.insert_trend_data_once src top con u score md w) with
     | Return v => Return (Some v)
     | Raise e => Raise e
     end)
    (DB.disk (snd (DB.insert_trend_data_once src top con u score md w))).
Proof.
  destruct (DB.input_accepted src top score) eqn:Hok.
  - unfold DB.insert_trend_data_once, try_except, bind.
    rewrite (validate_accepted _ _ _ _ Hok).
    unfold DB._is_duplicate_trend, try_except, DB._get_connection, DB.cursor_execute,
      DB.sql_insert_trend.
    unfold DB.insert_effect.
    destruct (DB.check_constraints src top score).
    + destruct (DB.io_faults w) as [|[f|] rest] eqn:Hio; cbn; rewrite ?Hio; cbn.
      * destruct (existsb _ _); cbn; rewrite ?Hio; cbn; rewrite ?Hok;
          [split; [reflexivity|left; split; reflexivity]|].
        split; [reflexivity|right]. split; [reflexivity|]. eexists. reflexivity.
      * destruct rest as [|[f'|] rest']; cbn; rewrite ?Hok; try reflexivity;
          (split; [reflexivity|right]; split; [reflexivity|]; eexists; reflexivity).
      * destruct (existsb _ _); cbn; rewrite ?Hok;
          [split; [reflexivity|left; split; reflexivity]|].
        destruct rest as [|[f'|] rest']; cbn; rewrite ?Hok; try reflexivity;
          (split; [reflexivity|right]; split; [reflexivity|]; eexists; reflexivity).
    + destruct (DB.io_faults w) as [|[f|] rest] eqn:Hio; cbn; rewrite ?Hio; cbn.
      * destruct (existsb _ _); cbn; rewrite ?Hio; cbn; rewrite ?Hok;
          [split; [reflexivity|left; split; reflexivity]|reflexivity].
      * destruct rest as [|[f'|] rest']; cbn; reflexivity.
      * destruct (existsb _ _); cbn; rewrite ?Hok;
          [split; [reflexivity|left; split; reflexivity]|].
        destruct rest as [|[f'|] rest']; cbn; reflexivity.
  - destruct (insert_once_refused w src top con u score md Hok) as [msg ->]. reflexivity.
Qed.

(** The effect of the decorated insert, whatever the storage does. *)
Lemma insert_trend_data_effect w src top con u score md :
  DB.insert_effect src top con u score md (DB.disk w)
    (fst (DB.insert_trend_data src top con u score md w))
    (DB.disk (snd (DB.insert_trend_data src top con u score md w))).
Proof.
  unfold DB.insert_trend_data, Utils.wrapper. cbn [fst snd]. unfold Utils.run.
  apply (attempts_invariant DB.time_sleep DB.insert_retry
           (DB.insert_trend_data_once src top con u score md)
           (fun s => DB.disk s = DB.disk w)
           (fun o s' => o <> Return None ->
                        DB.insert_effect src top con u score md (DB.disk w) o (DB.disk s'))).
  - intros d s Hs. exact Hs.
  - intros s v s' Hs Hf _. pose proof (insert_once_effect s src top con u score md) as H.
    rewrite Hf, Hs in H. exact H.
  - intros s e s' Hs Hf. pose proof (insert_once_effect s src top con u score md) as H.
    rewrite Hf, Hs in H. cbn in H. split; [exact H|]. intros _. exact H.
  - intros s Hs Hnone. exfalso. apply Hnone. reflexivity.
  - reflexivity.
  - apply (attempts_never_none DB.time_sleep DB.insert_retry _ 3 0 w 0 []); [lia|reflexivity].
Qed.

(** X4. An insert is all or nothing, whatever the storage does and however
    often the call is retried: either it returns the next row id and the
    store has exactly one more row, which holds the fields given and their
    hash; or it returns -1 or raises, and the store is as it was. It never
    returns [None], and it stores nothing that the validation refuses. *)
Theorem insert_is_atomic :
  forall w src top con u score md,
    let o := fst (DB.insert_trend_data src top con u score md w) in
    let db' := DB.disk (snd (DB.insert_trend_data src top con u score md w)) in
    match o with
    | Return (Some trend_id) =>
        DB.input_accepted src top score = true
        /\ (trend_id = -1 /\ db' = DB.disk w
            \/ 0 < trend_id
               /\ exists now,
                    DB.trend_data db'
                    = DB.trend_data (DB.disk w) ++
                        [DB.mkRow trend_id now src top con u score
                                  (match md with [] => None | _ => Some md end)
                                  (DB._generate_content_hash src top con)]
                    /\ DB.trend_analysis db' = DB.trend_analysis (DB.disk w)
                    /\ DB.published_content db' = DB.published_content (DB.disk w))
    | Return None => False
    | Raise _ => db' = DB.disk w
    end.
Proof.
  intros w src top con u score md o db'. subst o db'.
  pose proof (insert_trend_data_effect w src top con u score md) as Heff.
  unfold DB.insert_effect in Heff.
  destruct (fst (DB.insert_trend_data src top con u score md w)) as [[trend_id|]|e];
    [|exact Heff|exact Heff].
  destruct Heff as [Hok [Hdup|[-> [now ->]]]]; (split; [exact Hok|]); [left; exact Hdup|].
  right. split; [apply next_rowid_positive|]. exists now. repeat split.
Qed.

Lemma next_rowid_above_seq db : Z.of_N (DB.trend_data_seq db) < DB.next_rowid db.
Proof.
  unfold DB.next_rowid.
  assert (forall l z, z <= fold_right Z.max z l) as Hge.
  { induction l as [|x l IH]; intros z; cbn; [lia|]. specialize (IH z). lia. }
  pose proof (Hge (map DB.id (DB.trend_data db)) (Z.of_N (DB.trend_data_seq db))). lia.
Qed.

Lemma with_new_row_well_formed db now src top con u score md :
  DB.input_accepted src top score = true ->
  DB.well_formed db ->
  DB.well_formed (DB.with_new_row db now src top con u score md).
Proof.
  intros Hok (Hrows & Hids & Hseq).
  pose proof (next_rowid_above_seq db) as Hnext.
  pose proof (next_rowid_positive db) as Hpos.
  unfold DB.well_formed, DB.with_new_row. cbn [DB.trend_data DB.trend_data_seq].
  split; [|split].
  - apply Forall_app. split; [exact Hrows|]. constructor; [|constructor].
    unfold DB.row_ok. cbn. repeat split; assumption.
  - rewrite map_app. cbn [map DB.id]. apply StronglySorted_app. split; [|split].
    + intros x1 x2 Hx1 Hx2. apply list_elem_of_In in Hx1, Hx2.
      destruct Hx2 as [<-|[]]. apply in_map_iff in Hx1 as (r & <- & Hr).
      rewrite List.Forall_forall in Hseq. specialize (Hseq r Hr). cbn in Hseq. lia.
    + exact Hids.
    + repeat constructor.
  - rewrite Z2N.id by lia. apply Forall_app. split.
    + eapply Forall_impl; [exact Hseq|]. cbn. intros r Hr. lia.
    + constructor; [cbn; lia|constructor].
Qed.

(** X5. Whatever the storage does, an insert keeps the store well formed:
    every row passes the checks of the validation, carries the hash of its
    own source, topic and content, and row ids are positive, strictly
    increasing in insertion order and bounded by the sequence number. *)
Theorem insert_keeps_well_formed :
  forall w src top con u score md,
    DB.well_formed (DB.disk w) ->
    DB.well_formed (DB.disk (snd (DB.insert_trend_data src top con u score md w))).
Proof.
  intros w src top con u score md Hwf.
  pose proof (insert_trend_data_effect w src top con u score md) as Heff.
  unfold DB.insert_effect in Heff.
  destruct (fst (DB.insert_trend_data src top con u score md w)) as [[trend_id|]|e].
  - destruct Heff as [Hok [[_ ->]|[_ [now ->]]]]; [exact Hwf|].
    apply with_new_row_well_formed; assumption.
  - contradiction.
  - rewrite Heff. exact Hwf.
Qed.

Lemma insert_keeps_well_formed_witness :
  DB.well_formed (DB.disk (DB.world_at 1000 DB.empty_database))
  /\ DB.well_formed
       (DB.disk (snd (DB.insert_trend_data "test" "duplicate test"
                                           (Some "same content"%string) None 0 []
                                           (DB.world_at 1000 DB.empty_database)))).
Proof.
  assert (Hempty : DB.well_formed (DB.disk (DB.world_at 1000 DB.empty_database)))
    by (repeat split; constructor).
  split; [exact Hempty|].
  apply (insert_keeps_well_formed (DB.world_at 1000 DB.empty_database)
           "test" "duplicate test" (Some "same content"%string) None 0 []).
  exact Hempty.
Defined.

Lemma ForallOrdPairs_snoc {A} (R : A -> A -> Prop) l x :
  ForallOrdPairs R l -> Forall (fun y => R y x) l -> ForallOrdPairs R (l ++ [x]).
Proof.
  intros Hl. induction Hl as [|y l Hy Hl IH]; intros Hx; cbn.
  - constructor; constructor.
  - apply Forall_cons_1 in Hx as [Hyx Hx]. constructor; [|apply IH, Hx].
    apply Forall_app. split; [exact Hy|]. constructor; [exact Hyx|constructor].
Qed.

(** When the table's CHECK constraints refuse the record, every attempt of
    the insert leaves the store as it was. *)
Lemma insert_check_fails w src top con u score md :
  DB.input_accepted src top score = true ->
  DB.check_constraints src top score = false ->
  DB.io_faults w = [] ->
  DB.disk (snd (DB.insert_trend_data src top con u score md w)) = DB.disk w.
Proof.
  intros Hok Hcheck Hio.
  assert (Honce : forall s,
             DB.io_faults s = [] ->
             DB.disk (snd (DB.insert_trend_data_once src top con u score md s)) = DB.disk s
             /\ DB.io_faults (snd (DB.insert_trend_data_once src top con u score md s)) = []).
  { intros s Hs. unfold DB.insert_trend_data_once, try_except, bind.
    rewrite (validate_accepted _ _ _ _ Hok), (is_duplicate_trend_no_fault _ _ Hs).
    destruct (DB.has_recent_duplicate s _); [split; [reflexivity|exact Hs]|].
    unfold DB._get_connection, DB.cursor_execute, DB.sql_insert_trend.
    rewrite Hs, Hcheck. cbn. split; [reflexivity|exact Hs]. }
  unfold DB.insert_trend_data, Utils.wrapper. cbn [fst snd]. unfold Utils.run.
  apply (attempts_invariant DB.time_sleep DB.insert_retry
           (DB.insert_trend_data_once src top con u score md)
           (fun s => DB.disk s = DB.disk w /\ DB.io_faults s = [])
           (fun _ s' => DB.disk s' = DB.disk w)).
  - intros d s Hs. exact Hs.
  - intros s v s' [Hs Hs0] Hf. destruct (Honce s Hs0) as [Hd _]. rewrite Hf in Hd.
    cbn in Hd. congruence.
  - intros s e s' [Hs Hs0] Hf. destruct (Honce s Hs0) as [Hd Hf0]. rewrite Hf in Hd, Hf0.
    cbn in Hd, Hf0. split; [split|]; congruence.
  - intros s [Hs _]. exact Hs.
  - split; [reflexivity|exact Hio].
Qed.

(** X6. While the storage works, the deduplication is an invariant of the
    store: if any two rows with the same hash are at least 24 hours apart
    before an insert, they are after it. *)
Theorem insert_keeps_deduplicated :
  forall w src top con u score md,
    DB.io_faults w = [] ->
    DB.deduplicated (DB.disk w) ->
    DB.deduplicated (DB.disk (snd (DB.insert_trend_data src top con u score md w))).
Proof.
  intros w src top con u score md Hio Hdedup.
  destruct (DB.input_accepted src top score) eqn:Hok.
  - destruct (DB.has_recent_duplicate w (DB._generate_content_hash src top con)) eqn:Hdup.
    + rewrite (insert_duplicate _ _ _ _ _ _ _ Hok Hio Hdup). exact Hdedup.
    + destruct (DB.check_constraints src top score) eqn:Hcheck;
        [|rewrite (insert_check_fails _ _ _ _ _ _ _ Hok Hcheck Hio); exact Hdedup].
      rewrite (insert_stores _ _ _ _ _ _ _ Hok Hcheck Hio Hdup).
      unfold DB.deduplicated, DB.with_new_row. cbn.
      apply ForallOrdPairs_snoc; [exact Hdedup|].
      apply List.Forall_forall. intros r Hr Hhash. cbn in Hhash |- *.
      unfold DB.has_recent_duplicate in Hdup.
      assert (Hr' : DB.is_recent_duplicate (DB.sqlite_now w)
                      (DB._generate_content_hash src top con) r = false).
      { destruct (DB.is_recent_duplicate _ _ r) eqn:E; [|reflexivity].
        rewrite <- Hdup. symmetry. apply existsb_exists. exists r. split; assumption. }
      unfold DB.is_recent_duplicate in Hr'. rewrite Hhash, String.eqb_refl in Hr'.
      cbn in Hr'. apply Z.ltb_ge in Hr'. lia.
  - destruct (insert_once_refused w src top con u score md Hok) as [msg Hraise].
    assert (Hins : DB.insert_trend_data src top con u score md w
                   = (Raise (mkExn ValueError msg), DB.incr_error_count w))
      by (apply wrapper_raises; [reflexivity|exact Hraise|reflexivity]).
    rewrite Hins. exact Hdedup.
Qed.

Lemma insert_keeps_deduplicated_witness :
  DB.io_faults (DB.world_at 1000 DB.empty_database) = []
  /\ DB.deduplicated (DB.disk (DB.world_at 1000 DB.empty_database))
  /\ DB.deduplicated
       (DB.disk (snd (DB.insert_trend_data "test" "duplicate test"
                                           (Some "same content"%string) None 0 []
                                           (DB.world_at 1000 DB.empty_database)))).
Proof.
  assert (Hempty : DB.deduplicated (DB.disk (DB.world_at 1000 DB.empty_database)))
    by constructor.
  split; [reflexivity|]. split; [exact Hempty|].
  apply (insert_keeps_deduplicated (DB.world_at 1000 DB.empty_database)
           "test" "duplicate test" (Some "same content"%string) None 0 []);
    [reflexivity|exact Hempty].
Defined.

(** ** What the cleanup leaves of the store *)

Lemma triple_bind {St A B} (P : St -> Prop) (m : M St A) (k : A -> M St B)
    (Q1 : outcome A -> St -> Prop) (Q2 : outcome B -> St -> Prop) :
  triple P m Q1 ->
  (forall a, triple (Q1 (Return a)) (k a) Q2) ->
  (forall e s, Q1 (Raise e) s -> Q2 (Raise e) s) ->
  triple P (bind m k) Q2.
Proof.
  intros Hm Hk Hraise s Hs. specialize (Hm s Hs). unfold bind.
  destruct (m s) as [[a|e] s']; cbn in *; [apply Hk, Hm|apply Hraise, Hm].
Qed.

Lemma triple_ret {St A} (P : St -> Prop) (a : A) (Q : outcome A -> St -> Prop) :
  (forall s, P s -> Q (Return a) s) -> triple P (ret a) Q.
Proof. intros H s Hs. apply H, Hs. Qed.

Lemma triple_weaken {St A} (P P' : St -> Prop) (m : M St A) (Q Q' : outcome A -> St -> Prop) :
  triple P m Q -> (forall s, P' s -> P s) -> (forall o s, Q o s -> Q' o s) -> triple P' m Q'.
Proof. intros Hm HP HQ s Hs. apply HQ, Hm, HP, Hs. Qed.

(** A statement run through [cursor.execute]: if the storage fails, the
    connection is where it was. *)
Lemma triple_cursor_execute {A} (P : DB.World * DB.Conn -> Prop) (stmt : DB.Stmt A)
    (Q : outcome A -> DB.World * DB.Conn -> Prop) :
  (forall w c fs, P (w, c) -> P (DB.set_io_faults fs w, c)) ->
  triple P stmt Q ->
  (forall e s, P s -> Q (Raise e) s) ->
  triple P (DB.cursor_execute stmt) Q.
Proof.
  intros Hio Hstmt Hraise [w c] Hs. unfold DB.cursor_execute.
  destruct (DB.io_faults w) as [|[f|] rest].
  - apply Hstmt, Hs.
  - cbn. apply Hraise, Hio, Hs.
  - apply Hstmt, Hio, Hs.
Qed.

Section cleanup_keeps_store.
Variable db0 : DB.Database.

Let kept : forall A : Type, outcome A -> DB.World * DB.Conn -> Prop :=
  fun A _ s => DB.uncommitted db0 s.

Lemma uncommitted_io w c fs :
  DB.uncommitted db0 (w, c) -> DB.uncommitted db0 (DB.set_io_faults fs w, c).
Proof. intros H. exact H. Qed.

Lemma count_keeps {A} (stmt : DB.Stmt A) :
  (forall s, snd (stmt s) = s) ->
  triple (DB.uncommitted db0) (DB.cursor_execute stmt) (kept A).
Proof.
  intros Hsame. apply triple_cursor_execute.
  - apply uncommitted_io.
  - intros s Hs. unfold kept. rewrite Hsame. exact Hs.
  - intros e s Hs. exact Hs.
Qed.

Lemma delete_keeps (stmt : DB.Stmt unit) :
  (forall w c, fst (snd (stmt (w, c))) = w /\ DB.in_transaction (snd (snd (stmt (w, c)))) = true) ->
  triple (DB.uncommitted db0) (DB.cursor_execute stmt) (kept unit).
Proof.
  intros Hdel. apply triple_cursor_execute.
  - apply uncommitted_io.
  - intros [w c] [Hdisk _]. destruct (Hdel w c) as [Hw Htx]. unfold kept, DB.uncommitted.
    rewrite Hw, Htx. split; [exact Hdisk|discriminate].
  - intros e s Hs. exact Hs.
Qed.

Lemma delete_if_any_keeps (n : Z) (stmt : DB.Stmt unit) :
  (forall w c, fst (snd (stmt (w, c))) = w /\ DB.in_transaction (snd (snd (stmt (w, c)))) = true) ->
  triple (DB.uncommitted db0)
         (if 0 <? n then bind (DB.cursor_execute stmt) (fun _ => ret n) else ret 0)
         (kept Z).
Proof.
  intros Hdel. destruct (0 <? n).
  - eapply triple_bind; [apply delete_keeps, Hdel| |intros e s H; exact H].
    intros []. apply triple_ret. intros s H. exact H.
  - apply triple_ret. intros s H. exact H.
Qed.

Lemma vacuum_then_commit_keeps (stats : DB.CleanupStats) :
  triple (DB.uncommitted db0)
         (bind (DB.cursor_execute DB.sql_vacuum)
               (fun _ => bind DB.conn_commit (fun _ => ret stats)))
         (fun _ s => DB.disk (fst s) = db0).
Proof.
  eapply triple_bind with
    (Q1 := fun o s => DB.uncommitted db0 s
                      /\ (raised o = false -> DB.in_transaction (snd s) = false)).
  - apply triple_cursor_execute.
    + apply uncommitted_io.
    + intros [w c] Hs. unfold DB.sql_vacuum.
      destruct (DB.in_transaction c) eqn:Htx; cbn; split; try exact Hs; try discriminate.
      intros _. exact Htx.
    + intros e s Hs. split; [exact Hs|discriminate].
  - intros [] [w c] [[Hdisk Hpending] Htx]. cbn in *.
    rewrite (Hpending (Htx eq_refl)). reflexivity.
  - intros e s [[Hdisk _] _]. exact Hdisk.
Qed.

Lemma cleanup_body_keeps days w :
  DB.disk w = db0 ->
  DB.disk (snd (DB.cleanup_old_data days w)) = db0.
Proof.
  intros Hw. unfold DB.cleanup_old_data, try_except, DB._get_connection.
  match goal with
  | |- context [match ?body (w, ?c) with _ => _ end] =>
      assert (Hbody : triple (DB.uncommitted db0) body (fun _ s => DB.disk (fst s) = db0));
      [|specialize (Hbody (w, c)); destruct (body (w, c)) as [[stats|e] [w' c']]]
  end.
  - assert (Hout : forall A e (s : DB.World * DB.Conn), kept A (Raise e) s -> DB.disk (fst s) = db0)
      by (intros A e s [H _]; exact H).
    eapply triple_bind; [apply count_keeps; intros [w1 c1]; reflexivity| |apply Hout].
    intros n1. eapply triple_bind;
      [apply delete_if_any_keeps; intros w1 c1; split; reflexivity| |apply Hout].
    intros d1. eapply triple_bind; [apply count_keeps; intros [w1 c1]; reflexivity| |apply Hout].
    intros n2. eapply triple_bind;
      [apply delete_if_any_keeps; intros w1 c1; split; reflexivity| |apply Hout].
    intros d2. eapply triple_bind; [apply count_keeps; intros [w1 c1]; reflexivity| |apply Hout].
    intros n3. eapply triple_bind;
      [apply delete_if_any_keeps; intros w1 c1; split; reflexivity| |apply Hout].
    intros d3. apply vacuum_then_commit_keeps.
  - cbn in *. apply Hbody. split; [exact Hw|intros _; exact Hw].
  - cbn in *. apply Hbody. split; [exact Hw|intros _; exact Hw].
Qed.

End cleanup_keeps_store.

(** X7. Whatever the retention, the state of the store and the behaviour of
    the storage, [cleanup_old_data] leaves the committed store as it was: it
    commits only after VACUUM, and VACUUM runs only on a connection on which
    no DELETE was made. No call of it removes a record. *)
Theorem cleanup_never_removes :
  forall w days, DB.disk (snd (DB.cleanup_old_data days w)) = DB.disk w.
Proof. intros w days. apply cleanup_body_keeps. reflexivity. Qed.

Section cleanup_counts.

Lemma busy_count {A} b (stmt : DB.Stmt A) :
  (forall s, snd (stmt s) = s) ->
  triple (DB.busy b) (DB.cursor_execute stmt) (fun _ s => DB.busy b s).
Proof.
  intros Hsame. apply triple_cursor_execute.
  - intros w c fs H. exact H.
  - intros s Hs. rewrite Hsame. exact Hs.
  - intros e s Hs. exact Hs.
Qed.

Lemma busy_delete_if_any b (n : Z) (stmt : DB.Stmt unit) :
  (forall w c, fst (snd (stmt (w, c))) = w /\ DB.in_transaction (snd (snd (stmt (w, c)))) = true) ->
  triple (DB.busy b)
         (if 0 <? n then bind (DB.cursor_execute stmt) (fun _ => ret n) else ret 0)
         (fun o s => match o with
                     | Return d => DB.busy (b || negb (d =? 0)) s
                     | Raise _ => True
                     end).
Proof.
  intros Hdel. destruct (Z.ltb_spec 0 n) as [Hn|Hn].
  - eapply triple_bind with
      (Q1 := fun o s => match o with
                        | Return _ => DB.in_transaction (snd s) = true
                        | Raise _ => True
                        end).
    + apply triple_cursor_execute.
      * intros w c fs H. exact H.
      * intros [w c] Hs. destruct (stmt (w, c)) as [[[]|e] s'] eqn:Hst; cbn; [|exact I].
        pose proof (Hdel w c) as [_ Htx]. rewrite Hst in Htx. exact Htx.
      * intros e s Hs. exact I.
    + intros []. apply triple_ret. intros s Htx _. exact Htx.
    + intros e s _. exact I.
  - apply triple_ret. intros s Hs. unfold DB.busy in *. cbn. rewrite orb_false_r. exact Hs.
Qed.

Lemma busy_vacuum_then_commit b (stats : DB.CleanupStats) :
  triple (DB.busy b)
         (bind (DB.cursor_execute DB.sql_vacuum)
               (fun _ => bind DB.conn_commit (fun _ => ret stats)))
         (fun o _ => match o with
                     | Return stats' => b = false /\ stats' = stats
                     | Raise _ => True
                     end).
Proof.
  eapply triple_bind with
    (Q1 := fun o s => match o with Return _ => b = false | Raise _ => True end).
  - apply triple_cursor_execute.
    + intros w c fs H. exact H.
    + intros [w c] Hs. unfold DB.sql_vacuum, DB.busy in *. cbn in Hs.
      destruct (DB.in_transaction c) eqn:Htx; cbn; [exact I|].
      destruct b; [|reflexivity]. specialize (Hs eq_refl). discriminate Hs.
    + intros e s _. exact I.
  - intros [] [w c] Hb. cbn. split; [exact Hb|reflexivity].
  - intros e s _. exact I.
Qed.

Lemma cleanup_returns_zeros days w stats w' :
  DB.cleanup_old_data days w = (Return stats, w') ->
  stats = DB.mkCleanupStats 0 0 0.
Proof.
  unfold DB.cleanup_old_data, try_except, DB._get_connection.
  match goal with
  | |- context [match ?body (w, ?c) with _ => _ end] =>
      assert (Hbody : triple (DB.busy false) body
                        (fun o _ => match o with
                                    | Return stats' => stats' = DB.mkCleanupStats 0 0 0
                                    | Raise _ => True
                                    end));
      [|specialize (Hbody (w, c)); destruct (body (w, c)) as [[stats'|e] [w1 c1]]]
  end.
  - eapply triple_bind;
      [apply (busy_count false); intros [w1 c1]; reflexivity| |intros e s _; exact I].
    intros n1. eapply triple_bind;
      [apply busy_delete_if_any; intros w1 c1; split; reflexivity| |intros e s _; exact I].
    intros d1. eapply triple_bind;
      [apply busy_count; intros [w1 c1]; reflexivity| |intros e s _; exact I].
    intros n2. eapply triple_bind;
      [apply busy_delete_if_any; intros w1 c1; split; reflexivity| |intros e s _; exact I].
    intros d2. eapply triple_bind;
      [apply busy_count; intros [w1 c1]; reflexivity| |intros e s _; exact I].
    intros n3. eapply triple_bind;
      [apply busy_delete_if_any; intros w1 c1; split; reflexivity| |intros e s _; exact I].
    intros d3. eapply triple_weaken; [apply busy_vacuum_then_commit|intros s H; exact H|].
    intros [stats'|e] s; [|intros _; exact I]. intros [Hb ->].
    cbn in Hb. apply orb_false_iff in Hb as [Hb H3]. apply orb_false_iff in Hb as [H1 H2].
    apply negb_false_iff, Z.eqb_eq in H1, H2, H3. subst. reflexivity.
  - cbn in *. intros [= <- _]. apply Hbody. discriminate.
  - cbn. discriminate.
Qed.

End cleanup_counts.

(** X8. Whatever the storage does, the only counts [cleanup_old_data] ever
    returns are three zeros; and with a working storage it returns exactly
    when no record of any table is past its retention (twice the retention
    for analyses), and raises otherwise. *)
Theorem cleanup_returns_only_zeros :
  forall w days,
    (forall stats w', DB.cleanup_old_data days w = (Return stats, w') ->
                      stats = DB.mkCleanupStats 0 0 0)
    /\ (DB.io_faults w = [] ->
        ((exists stats w', DB.cleanup_old_data days w = (Return stats, w'))
         <-> DB.old_trend_data days w <= 0 /\ DB.old_trend_analysis days w <= 0
             /\ DB.old_published_content days w <= 0)).
Proof.
  intros w days. split; [intros stats w'; apply cleanup_returns_zeros|].
  intros Hio.
  destruct ((0 <? DB.old_trend_data days w) || (0 <? DB.old_trend_analysis days w)
            || (0 <? DB.old_published_content days w)) eqn:Hold.
  - rewrite (cleanup_no_fault w days Hio Hold). split.
    + intros (stats & w' & H). discriminate H.
    + intros (H1 & H2 & H3). apply orb_true_iff in Hold as [Hold|Hold];
        [apply orb_true_iff in Hold as [Hold|Hold]|]; apply Z.ltb_lt in Hold; lia.
  - destruct (cleanup_nothing_old w days Hio Hold) as (w' & Hret & _). split.
    + intros _. apply orb_false_iff in Hold as [Hold H3].
      apply orb_false_iff in Hold as [H1 H2]. apply Z.ltb_ge in H1, H2, H3. tauto.
    + intros _. eauto.
Qed.

Lemma cleanup_returns_only_zeros_witness :
  DB.io_faults (DB.world_at 1000 DB.store_with_old_row) = []
  /\ ((exists stats w',
         DB.cleanup_old_data 30 (DB.world_at 1000 DB.store_with_old_row) = (Return stats, w'))
      <-> DB.old_trend_data 30 (DB.world_at 1000 DB.store_with_old_row) <= 0
          /\ DB.old_trend_analysis 30 (DB.world_at 1000 DB.store_with_old_row) <= 0
          /\ DB.old_published_content 30 (DB.world_at 1000 DB.store_with_old_row) <= 0).
Proof.
  split; [reflexivity|].
  apply (cleanup_returns_only_zeros (DB.world_at 1000 DB.store_with_old_row) 30).
  reflexivity.
Defined.

(** ** Reading the store *)

Lemma get_recent_once_disk hours src limit w :
  DB.disk (snd (DB.get_recent_trend_data_once hours src limit w)) = DB.disk w.
Proof.
  unfold DB.get_recent_trend_data_once, try_except, bind, DB._get_connection,
    DB.cursor_execute, DB.sql_select_recent.
  destruct (DB.limit_binds limit); destruct (DB.io_faults w) as [|[f|] rest]; reflexivity.
Qed.

Lemma get_recent_effect hours src limit w :
  DB.disk (snd (DB.get_recent_trend_data hours src limit w)) = DB.disk w
  /\ (forall rows, fst (DB.get_recent_trend_data hours src limit w) = Return (Some rows) ->
      rows = DB.select_recent
               (DB.datetime_now_minus hours 3600
                  (snd (DB.get_recent_trend_data hours src limit w)))
               src limit (DB.trend_data (DB.disk w))).
Proof.
  unfold DB.get_recent_trend_data, Utils.wrapper. cbn [fst snd]. unfold Utils.run.
  apply (attempts_invariant DB.time_sleep DB.recent_retry
           (DB.get_recent_trend_data_once hours src limit)
           (fun s => DB.disk s = DB.disk w)
           (fun o s' => DB.disk s' = DB.disk w
                        /\ (forall rows, o = Return (Some rows) ->
                            rows = DB.select_recent (DB.datetime_now_minus hours 3600 s')
                                                    src limit (DB.trend_data (DB.disk w))))).
  - intros d s Hs. exact Hs.
  - intros s v s' Hs Hf.
    pose proof (get_recent_once_disk hours src limit s) as Hd. rewrite Hf in Hd. cbn in Hd.
    split; [congruence|]. intros rows [= <-].
    rewrite (get_recent_once_returns _ _ _ _ _ _ Hf). congruence.
  - intros s e s' Hs Hf.
    pose proof (get_recent_once_disk hours src limit s) as Hd. rewrite Hf in Hd. cbn in Hd.
    split; [congruence|]. split; [congruence|discriminate].
  - intros s Hs. split; [exact Hs|discriminate].
  - reflexivity.
Qed.

(** X9. The recent-trends query only reads: whatever the storage does, the
    store is as it was after the call. And when it returns with no limit,
    and the start of the window, [hours] hours before now with [hours] not
    negative, is a date SQLite represents (none before -4713-11-24
    12:00:00), it returns every stored row of the window that matches the
    source filter, each once. For any other [hours] the threshold of the
    query is NULL and no row is returned. *)
Theorem recent_reads_every_row_in_window :
  forall w hours src,
    DB.disk (snd (DB.get_recent_trend_data hours src None w)) = DB.disk w
    /\ (forall rows w',
          DB.get_recent_trend_data hours src None w = (Return (Some rows), w') ->
          let start := DB.sqlite_now w' - hours * 3600 in
          (0 <= hours ->
           DB.sqlite_min_time <= start <= DB.sqlite_max_time ->
           Permutation rows
             (List.filter (fun r => (start <=? DB.timestamp r) && DB.source_clause src r)
                          (DB.trend_data (DB.disk w))))
          /\ (hours < 0 \/ start < DB.sqlite_min_time \/ DB.sqlite_max_time < start ->
              rows = [])).
Proof.
  intros w hours src. destruct (get_recent_effect hours src None w) as [Hdisk Hrows].
  split; [exact Hdisk|]. intros rows w' Hget start. rewrite Hget in Hrows.
  cbn [fst snd] in Hrows.
  rewrite (Hrows rows eq_refl). unfold DB.datetime_now_minus, DB.valid_time. fold start.
  split.
  - intros Hhours [Hmin Hmax].
    replace (0 <=? hours) with true by (symmetry; apply Z.leb_le; exact Hhours).
    replace (DB.sqlite_min_time <=? start) with true by (symmetry; apply Z.leb_le; exact Hmin).
    replace (start <=? DB.sqlite_max_time) with true by (symmetry; apply Z.leb_le; exact Hmax).
    cbn [andb]. apply select_recent_complete.
  - intros Hnull.
    assert (Hnone : (0 <=? hours)
                    && ((DB.sqlite_min_time <=? start) && (start <=? DB.sqlite_max_time))
                    = false).
    { destruct Hnull as [H|[H|H]].
      - apply andb_false_iff. left. apply Z.leb_gt. exact H.
      - apply andb_false_iff. right. apply andb_false_iff. left. apply Z.leb_gt. exact H.
      - apply andb_false_iff. right. apply andb_false_iff. right. apply Z.leb_gt. exact H. }
    rewrite Hnone. unfold DB.select_recent, DB.limit_clause, DB.sql_ge. cbn [andb].
    assert (Hfilter : forall l : list DB.Row, List.filter (fun _ => false) l = [])
      by (induction l; [reflexivity|assumption]).
    rewrite Hfilter. reflexivity.
Qed.

Lemma recent_reads_every_row_in_window_witness :
  (exists rows,
     DB.get_recent_trend_data 24 None None (DB.world_at 1000 DB.store_with_old_row)
     = (Return (Some rows), DB.incr_query_count (DB.world_at 1000 DB.store_with_old_row))
     /\ Permutation rows [DB.old_row])
  /\ fst (DB.get_recent_trend_data 60000000 None None (DB.world_at 1000 DB.store_with_old_row))
     = Return (Some []).
Proof.
  split; [|vm_compute; reflexivity].
  eexists. split; [apply get_recent_no_fault; reflexivity|].
  destruct (recent_reads_every_row_in_window (DB.world_at 1000 DB.store_with_old_row) 24 None)
    as [_ Hrows].
  destruct (Hrows _ _ (get_recent_no_fault 24 None None
                         (DB.world_at 1000 DB.store_with_old_row) eq_refl eq_refl))
    as [Hwindow _].
  apply Hwindow; [discriminate|split; discriminate].
Defined.

Lemma get_recent_once_fault hours src limit w f rest :
  DB.io_faults w = Some f :: rest ->
  DB.get_recent_trend_data_once hours src limit w
  = (Raise (DB.exn_of_fault f),
     DB.incr_error_count (DB.incr_error_count (DB.set_io_faults rest w))).
Proof.
  intros Hio. unfold DB.get_recent_trend_data_once, try_except, bind, DB._get_connection,
    DB.cursor_execute.
  rewrite Hio. reflexivity.
Qed.

Lemma get_recent_once_runs hours src limit w :
  hd None (DB.io_faults w) = None ->
  DB.limit_binds limit = true ->
  exists w',
    DB.get_recent_trend_data_once hours src limit w
    = (Return (DB.select_recent (DB.datetime_now_minus hours 3600 w) src limit
                                (DB.trend_data (DB.disk w))), w')
    /\ DB.slept w' = DB.slept w /\ DB.error_count w' = DB.error_count w.
Proof.
  intros Hio Hlimit. unfold DB.get_recent_trend_data_once, try_except, bind,
    DB._get_connection, DB.cursor_execute, DB.sql_select_recent.
  rewrite Hlimit.
  destruct (DB.io_faults w) as [|[f|] rest]; [|discriminate Hio|];
    cbn; eexists; repeat split.
Qed.

Lemma get_recent_once_overflow hours src limit w :
  hd None (DB.io_faults w) = None ->
  DB.limit_binds limit = false ->
  exists w',
    DB.get_recent_trend_data_once hours src limit w = (Raise DB.limit_overflow, w')
    /\ DB.slept w' = DB.slept w /\ DB.error_count w' = S (S (DB.error_count w)).
Proof.
  intros Hio Hlimit. unfold DB.get_recent_trend_data_once, try_except, bind,
    DB._get_connection, DB.cursor_execute, DB.sql_select_recent.
  rewrite Hlimit.
  destruct (DB.io_faults w) as [|[f|] rest]; [|discriminate Hio|];
    cbn; eexists; repeat split.
Qed.

(** X10. The recent-trends query is retried once, and only after a failure
    of the class [OperationalError]. If the storage fails once with a lock
    or an I/O error and then works, the caller of a query whose limit can be
    bound (absent, 0, or a signed 64-bit integer) gets the rows, selected
    half a second later (none when the start of the window is no date SQLite
    represents), and the failure is only counted; with any other limit the
    second attempt raises [OverflowError]. A second failure in a row is
    raised to the caller after that one sleep. A malformed database
    ([DatabaseError]) is raised at once, without sleep or second attempt. *)
Theorem recent_retries_operational_errors_once :
  forall w f rest hours src limit,
    DB.io_faults w = Some f :: rest ->
    let failed := DB.incr_error_count (DB.incr_error_count (DB.set_io_faults rest w)) in
    let r := DB.get_recent_trend_data hours src limit w in
    (f = DB.DatabaseMalformed -> r = (Raise (DB.exn_of_fault f), failed))
    /\ (f <> DB.DatabaseMalformed -> hd None rest = None ->
        (forall n, limit = Some n -> n = 0 \/ - 2 ^ 63 <= n <= 2 ^ 63 - 1) ->
        fst r = Return (Some (DB.select_recent
                                (DB.datetime_now_minus hours 3600 (DB.time_sleep (1 # 2) failed))
                                src limit (DB.trend_data (DB.disk w))))
        /\ DB.slept (snd r) = DB.slept w ++ [(1 # 2)%Q]
        /\ DB.error_count (snd r) = S (S (DB.error_count w)))
    /\ (f <> DB.DatabaseMalformed -> hd None rest = None ->
        forall n, limit = Some n -> n < - 2 ^ 63 \/ 2 ^ 63 - 1 < n ->
        fst r = Raise DB.limit_overflow
        /\ DB.slept (snd r) = DB.slept w ++ [(1 # 2)%Q]
        /\ DB.error_count (snd r) = S (S (S (S (DB.error_count w)))))
    /\ (f <> DB.DatabaseMalformed ->
        forall f' rest', rest = Some f' :: rest' ->
        fst r = Raise (DB.exn_of_fault f')
        /\ DB.slept (snd r) = DB.slept w ++ [(1 # 2)%Q]).
Proof.
  intros w f rest hours src limit Hio failed r. subst r.
  pose proof (get_recent_once_fault hours src limit w f rest Hio) as Hfirst.
  fold failed in Hfirst.
  unfold DB.get_recent_trend_data, Utils.wrapper, Utils.run.
  change (range (Utils.max_attempts DB.recent_retry)) with [0; 1].
  cbn [Utils.attempts]. rewrite Hfirst.
  split; [|split; [|split]].
  - intros ->. reflexivity.
  - intros Hf Hrest Hlimit.
    assert (Hretry : isinstance (DB.exn_of_fault f) (Utils.exceptions DB.recent_retry) = true)
      by (destruct f; [reflexivity|reflexivity|contradiction]).
    rewrite Hretry.
    change (0 =? Utils.max_attempts DB.recent_retry - 1) with false. cbv iota.
    change (Utils.backoff_delay DB.recent_retry 0) with (1 # 2)%Q.
    destruct (get_recent_once_runs hours src limit (DB.time_sleep (1 # 2) failed))
      as (w' & Hsecond & Hslept & Herr); [exact Hrest|apply limit_binds_iff, Hlimit|].
    rewrite Hsecond. cbn [fst snd Utils.result Utils.final].
    split; [reflexivity|]. split; [rewrite Hslept; reflexivity|rewrite Herr; reflexivity].
  - intros Hf Hrest n Hn Hout.
    assert (Hretry : isinstance (DB.exn_of_fault f) (Utils.exceptions DB.recent_retry) = true)
      by (destruct f; [reflexivity|reflexivity|contradiction]).
    rewrite Hretry.
    change (0 =? Utils.max_attempts DB.recent_retry - 1) with false. cbv iota.
    change (Utils.backoff_delay DB.recent_retry 0) with (1 # 2)%Q.
    destruct (get_recent_once_overflow hours src limit (DB.time_sleep (1 # 2) failed))
      as (w' & Hsecond & Hslept & Herr);
      [exact Hrest|rewrite Hn; apply limit_overflows, Hout|].
    rewrite Hsecond.
    change (isinstance DB.limit_overflow (Utils.exceptions DB.recent_retry)) with false.
    cbn [fst snd Utils.result Utils.final].
    split; [reflexivity|]. split; [rewrite Hslept; reflexivity|rewrite Herr; reflexivity].
  - intros Hf f' rest' ->.
    assert (Hretry : isinstance (DB.exn_of_fault f) (Utils.exceptions DB.recent_retry) = true)
      by (destruct f; [reflexivity|reflexivity|contradiction]).
    rewrite Hretry.
    change (0 =? Utils.max_attempts DB.recent_retry - 1) with false. cbv iota.
    change (Utils.backoff_delay DB.recent_retry 0) with (1 # 2)%Q.
    rewrite (get_recent_once_fault hours src limit (DB.time_sleep (1 # 2) failed) f' rest')
      by reflexivity.
    destruct (isinstance (DB.exn_of_fault f') (Utils.exceptions DB.recent_retry));
      split; reflexivity.
Qed.

Lemma recent_retries_operational_errors_once_witness :
  let w := DB.mkWorld 1000 [] DB.store_with_old_row [Some DB.DatabaseLocked] 0 0 in
  DB.io_faults w = [Some DB.DatabaseLocked]
  /\ DB.DatabaseLocked <> DB.DatabaseMalformed
  /\ fst (DB.get_recent_trend_data 24 None None w) = Return (Some [DB.old_row])
  /\ DB.slept (snd (DB.get_recent_trend_data 24 None None w)) = [(1 # 2)%Q].
Proof.
  split; [reflexivity|]. split; [discriminate|].
  destruct (recent_retries_operational_errors_once
              (DB.mkWorld 1000 [] DB.store_with_old_row [Some DB.DatabaseLocked] 0 0)
              DB.DatabaseLocked [] 24 None None eq_refl) as (_ & Hretry & _).
  destruct Hretry as (Hrows & Hslept & _); [discriminate|reflexivity|discriminate|].
  split; [rewrite Hrows; vm_compute; reflexivity|exact Hslept].
Defined.

(** ** The health check of the database *)

Lemma recent_never_none hours src limit w :
  fst (DB.get_recent_trend_data hours src limit w) <> Return None.
Proof.
  unfold DB.get_recent_trend_data, Utils.wrapper, Utils.run. cbn [fst].
  apply (attempts_never_none DB.time_sleep DB.recent_retry _ 2 0 w 0 []); [lia|reflexivity].
Qed.

Lemma count_of_length rows : Health.count_of (Some rows) = Z.of_nat (length rows).
Proof. destruct rows; reflexivity. Qed.

(** X11. The health check of the database never raises and never changes
    the store. It reports 'healthy' exactly when the recent-trends query of
    the last hour returns, with the number of stored rows of the last hour,
    and otherwise 'unhealthy' with the text of the failure. *)
Theorem database_health_reflects_query :
  forall w,
    exists report w',
      Health.check_database_health w = (Return report, w')
      /\ DB.disk w' = DB.disk w
      /\ match fst (DB.get_recent_trend_data 1 None None w) with
         | Return _ =>
             Health.status report = "healthy"%string
             /\ Health.recent_data_count report
                = Some (Z.of_nat (length (Health.last_hour w')))
         | Raise e =>
             Health.status report = "unhealthy"%string
             /\ Health.recent_data_count report = None
             /\ Health.message report = Health.database_error e
         end.
Proof.
  intros w. unfold Health.check_database_health, try_except, bind.
  pose proof (recent_never_none 1 None None w) as Hnone.
  destruct (get_recent_effect 1 None None w) as [Hdisk Hrows].
  destruct (DB.get_recent_trend_data 1 None None w) as [[[rows|]|e] w'] eqn:Hget;
    cbn [fst snd] in *.
  - eexists _, _. split; [reflexivity|]. split; [exact Hdisk|]. split; [reflexivity|].
    cbn [Health.recent_data_count]. rewrite count_of_length. do 2 f_equal.
    rewrite (Hrows rows eq_refl).
    pose proof (select_recent_complete (DB.datetime_now_minus 1 3600 w') None
                  (DB.trend_data (DB.disk w))) as Hperm.
    rewrite (Permutation_length Hperm). unfold Health.last_hour. rewrite Hdisk.
    f_equal. apply List.filter_ext. intros r. unfold DB.sql_ge, DB.datetime_now_minus. cbn.
    rewrite andb_true_r. reflexivity.
  - contradiction Hnone. reflexivity.
  - eexists _, _. split; [reflexivity|]. split; [exact Hdisk|]. repeat split.
Qed.

(** A lock that clears is not reported; a malformed file is. *)
Example database_health_examples :
  let locked := DB.mkWorld 1000 [] DB.store_with_old_row [Some DB.DatabaseLocked] 0 0 in
  let broken := DB.mkWorld 1000 [] DB.store_with_old_row [Some DB.DatabaseMalformed] 0 0 in
  fst (Health.check_database_health locked)
  = Return (Health.mkReport "healthy" (Some 1) "Database accessible")
  /\ fst (Health.check_database_health broken)
     = Return (Health.mkReport "unhealthy" None
                 "Database error: database disk image is malformed").
Proof. vm_compute. split; reflexivity. Qed.

(** ** The status of the sources *)

Lemma adaptive_delay_monotone a b :
  a <= b -> (Collectors.adaptive_delay a <= Collectors.adaptive_delay b)%Q.
Proof.
  intros Hab. unfold Collectors.adaptive_delay. apply Q.min_le_compat_r.
  unfold Qle. cbn. lia.
Qed.

(** X12. [_update_api_status] never lowers the error count of a source: it
    raises it by one when the source is known and an error text that is not
    empty is given, and leaves it alone otherwise, a report of success
    included. No other source is touched. The adaptive delay of the rate
    limiter, which reads this count, therefore never shrinks. *)
Theorem update_api_status_never_lowers_errors :
  forall c api_name is_available error src,
    let c' := Collectors._update_api_status api_name is_available error c in
    Collectors.errors_of c' src
    = (if decide (src = api_name)
       then if truthy_opt error && bool_decide (is_Some (Collectors.api_status c !! api_name))
            then Collectors.errors_of c src + 1
            else Collectors.errors_of c src
       else Collectors.errors_of c src)
    /\ (Collectors.adaptive_delay (Collectors.errors_of c src)
        <= Collectors.adaptive_delay (Collectors.errors_of c' src))%Q
    /\ (src <> api_name -> Collectors.api_status c' !! src = Collectors.api_status c !! src)
    /\ Collectors.last_request_times c' = Collectors.last_request_times c
    /\ Collectors.min_request_intervals c' = Collectors.min_request_intervals c.
Proof.
  intros c api_name is_available error src c'.
  assert (Herr : Collectors.errors_of c' src
    = (if decide (src = api_name)
       then if truthy_opt error && bool_decide (is_Some (Collectors.api_status c !! api_name))
            then Collectors.errors_of c src + 1
            else Collectors.errors_of c src
       else Collectors.errors_of c src)).
  { subst c'. unfold Collectors._update_api_status, Collectors.errors_of.
    destruct (Collectors.api_status c !! api_name) as [st|] eqn:Hst.
    - cbn [Collectors.set_api_status Collectors.api_status].
      destruct (decide (src = api_name)) as [->|Hne].
      + rewrite lookup_insert_eq, Hst. rewrite bool_decide_eq_true_2 by eauto.
        destruct (truthy_opt error); reflexivity.
      + rewrite lookup_insert_ne by congruence. reflexivity.
    - destruct (decide (src = api_name)) as [->|Hne]; [|reflexivity].
      rewrite bool_decide_eq_false_2 by (intros [x Hx]; discriminate Hx).
      rewrite andb_false_r. reflexivity. }
  split; [exact Herr|]. split; [|split; [|split]].
  - apply adaptive_delay_monotone. rewrite Herr.
    destruct (decide (src = api_name)); [|lia].
    destruct (truthy_opt error && _); lia.
  - intros Hne. subst c'. unfold Collectors._update_api_status.
    destruct (Collectors.api_status c !! api_name); [|reflexivity].
    cbn. apply lookup_insert_ne. congruence.
  - subst c'. unfold Collectors._update_api_status.
    destruct (Collectors.api_status c !! api_name); reflexivity.
  - subst c'. unfold Collectors._update_api_status.
    destruct (Collectors.api_status c !! api_name); reflexivity.
Qed.

(** An error, then a success: the count stays at 1, the source is available
    again and keeps the text of the error. *)
Example api_status_after_recovery :
  let c := Collectors._update_api_status "github" true None
             (Collectors._update_api_status "github" false (Some "API request failed"%string)
                                            Collectors.initial_collector) in
  Collectors.api_status c !! "github"%string
  = Some (Collectors.mkApiStatus true (Some "API request failed"%string) 1).
Proof. vm_compute. reflexivity. Qed.

(** ** From the link aggregator to the store *)

Lemma fetch_hn_story_passes_gate story_id response p :
  snd (Collectors._fetch_hn_story story_id response p)
  = Collectors._rate_limit_check "hackernews" p.
Proof.
  unfold Collectors._fetch_hn_story.
  destruct response as [[story|]|e]; try reflexivity.
  destruct (negb _); [reflexivity|]. destruct (_ || _); [reflexivity|].
  destruct (_ <? 5); reflexivity.
Qed.

Lemma Qmax_0_inject e : 0 <= e -> (Qmax 0 (inject_Z e) == inject_Z e)%Q.
Proof. intros He. apply Q.max_r. unfold Qle. cbn. lia. Qed.

(** X13. A story that [_fetch_hn_story] turns into a trend is of type
    'story', has a title and an engagement (score plus twice the comments) of
    at least 5; the trend passes the cleaning with its source, topic and
    engagement unchanged, and the cleaned record passes the validation of
    the store. The rate limiter is passed whatever the request yields. *)
Theorem hn_story_reaches_store :
  forall story_id response p raw p' now,
    Collectors._fetch_hn_story story_id response p = (Some raw, p') ->
    p' = Collectors._rate_limit_check "hackernews" p
    /\ exists story cleaned,
         response = Return (Some story)
         /\ Collectors.story_type story = Some "story"%string
         /\ Collectors.story_deleted story = false
         /\ 5 <= default 0 (Collectors.story_score story)
                 + default 0 (Collectors.story_descendants story) * 2
         /\ Collectors.clean_trend now raw = Return (Some cleaned)
         /\ Collectors.source cleaned = "hackernews"%string
         /\ Collectors.topic cleaned = "Hacker News"%string
         /\ Collectors.content cleaned <> EmptyString
         /\ (Collectors.engagement_score cleaned
             == inject_Z (default 0%Z (Collectors.story_score story)
                          + default 0%Z (Collectors.story_descendants story) * 2)%Z)%Q
         /\ DB.input_accepted (Collectors.source cleaned) (Collectors.topic cleaned)
                              (Collectors.engagement_score cleaned) = true.
Proof.
  intros story_id response p raw p' now Hfetch.
  pose proof (fetch_hn_story_passes_gate story_id response p) as Hgate.
  rewrite Hfetch in Hgate. cbn in Hgate. split; [exact Hgate|].
  unfold Collectors._fetch_hn_story in Hfetch.
  destruct response as [[story|]|e]; try discriminate Hfetch.
  destruct (Collectors.story_type story) as [t|] eqn:Htype; [|discriminate Hfetch].
  destruct (String.eqb_spec t "story") as [->|Hne]; [|discriminate Hfetch].
  cbn [negb] in Hfetch.
  destruct (Collectors.story_title story) as [[|c title]|] eqn:Htitle;
    try discriminate Hfetch.
  cbn [truthy_opt truthy negb orb] in Hfetch.
  destruct (Collectors.story_deleted story) eqn:Hdel; [discriminate Hfetch|].
  set (e := default 0 (Collectors.story_score story)
            + default 0 (Collectors.story_descendants story) * 2) in *.
  destruct (Z.ltb_spec e 5) as [Hlow|Hhigh]; [discriminate Hfetch|].
  injection Hfetch as <- _.
  exists story. eexists. split; [reflexivity|]. split; [exact Htype|].
  split; [exact Hdel|]. split; [exact Hhigh|].
  unfold Collectors.clean_trend.
  cbn [Collectors.raw_source Collectors.raw_topic Collectors.raw_content Collectors.raw_url
       Collectors.raw_engagement_score Collectors.raw_metadata truthy_opt truthy negb orb
       Collectors.float_of_score default from_option id].
  change (strip "hackernews") with "hackernews"%string.
  change (slice_to 200 (strip "Hacker News")) with "Hacker News"%string.
  cbn [Collectors.topic].
  change (2 <=? len "Hacker News") with true. cbv iota.
  split; [reflexivity|]. cbn [Collectors.source Collectors.topic Collectors.content
                              Collectors.engagement_score].
  split; [reflexivity|]. split; [reflexivity|]. split; [discriminate|].
  split; [apply Qmax_0_inject; lia|].
  unfold DB.input_accepted.
  change (negb (negb (truthy "hackernews") || (len (strip "hackernews") =? 0))) with true.
  change (negb (negb (truthy "Hacker News") || (len (strip "Hacker News") =? 0))) with true.
  change (negb (50 <? len "hackernews")) with true.
  change (negb (200 <? len "Hacker News")) with true.
  cbn [andb]. rewrite !andb_true_r. apply negb_true_iff, Qltb_false, Q.le_max_l.
Qed.

Lemma hn_story_reaches_store_witness :
  let story := Collectors.mkStory (Some "story"%string) (Some "Show HN: a proof"%string)
                                  false (Some 3) (Some 1) None (Some "pg"%string) (Some 0) in
  let p := Collectors.process_at 100 Collectors.initial_collector in
  exists raw,
    Collectors._fetch_hn_story 42 (Return (Some story)) p
    = (Some raw, Collectors._rate_limit_check "hackernews" p)
    /\ Collectors.raw_url raw = Some "https://news.ycombinator.com/item?id=42"%string
    /\ exists cleaned, Collectors.clean_trend 100 raw = Return (Some cleaned).
Proof.
  intros story p. eexists. split; [vm_compute; reflexivity|]. split; [reflexivity|].
  destruct (hn_story_reaches_store 42 (Return (Some story)) p _ _ 100 eq_refl)
    as (_ & story' & cleaned & _ & _ & _ & _ & Hclean & _).
  exists cleaned. exact Hclean.
Defined.

(** ** Keyword filter *)

Lemma lower_char_idempotent c : PyText.lower_char (PyText.lower_char c) = PyText.lower_char c.
Proof. destruct c as [[] [] [] [] [] [] [] []]; reflexivity. Qed.

Lemma lower_idempotent s : PyText.lower (PyText.lower s) = PyText.lower s.
Proof.
  induction s as [|c s IH]; [reflexivity|].
  cbn [PyText.lower]. rewrite lower_char_idempotent, IH. reflexivity.
Qed.

Lemma lower_app a b : PyText.lower (a +:+ b) = PyText.lower a +:+ PyText.lower b.
Proof.
  induction a as [|c a IH]; [reflexivity|].
  change (String (PyText.lower_char c) (PyText.lower (a +:+ b))
          = String (PyText.lower_char c) (PyText.lower a +:+ PyText.lower b)).
  rewrite IH. reflexivity.
Qed.

Lemma startswith_lower k s :
  PyText.startswith k s = true -> PyText.startswith (PyText.lower k) (PyText.lower s) = true.
Proof.
  revert s. induction k as [|a k IH]; intros [|b s] H; cbn in *; try congruence.
  apply andb_true_iff in H as [Hab Hk]. apply Ascii.eqb_eq in Hab as ->.
  rewrite Ascii.eqb_refl. cbn. apply IH, Hk.
Qed.

Lemma contains_lower k s :
  PyText.contains k s = true -> PyText.contains (PyText.lower k) (PyText.lower s) = true.
Proof.
  induction s as [|b s IH]; intros H.
  - destruct k; cbn in *; congruence.
  - cbn [PyText.contains] in H. apply orb_true_iff in H as [H|H].
    + apply startswith_lower in H. cbn [PyText.lower PyText.contains] in *.
      rewrite H. reflexivity.
    + cbn [PyText.lower PyText.contains]. rewrite (IH H). apply orb_true_r.
Qed.

Lemma startswith_app k a b :
  PyText.startswith k a = true -> PyText.startswith k (a +:+ b) = true.
Proof.
  revert a. induction k as [|c k IH]; intros a H.
  { destruct (a +:+ b); reflexivity. }
  destruct a as [|d a]; [cbn in H; congruence|].
  - change (String d a +:+ b) with (String d (a +:+ b)).
    cbn [PyText.startswith] in *. apply andb_true_iff in H as [Hcd Hk].
    rewrite Hcd, (IH _ Hk). reflexivity.
Qed.

Lemma contains_unfold k s :
  PyText.contains k s
  = PyText.startswith k s
    || match s with EmptyString => false | String _ s' => PyText.contains k s' end.
Proof. destruct s; reflexivity. Qed.

Lemma contains_app_l k a b :
  PyText.contains k a = true -> PyText.contains k (a +:+ b) = true.
Proof.
  induction a as [|c a IH]; intros H.
  - destruct k; [|cbn in H; congruence]. rewrite contains_unfold. reflexivity.
  - cbn [PyText.contains] in H. apply orb_true_iff in H as [H|H].
    + rewrite contains_unfold, (startswith_app _ _ b H). reflexivity.
    + change (String c a +:+ b) with (String c (a +:+ b)). cbn [PyText.contains]. rewrite (IH H). apply orb_true_r.
Qed.

Lemma contains_app_r k a b :
  PyText.contains k b = true -> PyText.contains k (a +:+ b) = true.
Proof.
  intros H. induction a as [|c a IH]; [exact H|].
  change (String c a +:+ b) with (String c (a +:+ b)). cbn [PyText.contains]. rewrite IH. apply orb_true_r.
Qed.

Lemma list_filter_sublist {A} (f : A -> bool) (l : list A) : sublist (List.filter f l) l.
Proof.
  induction l as [|x l IH]; cbn; [constructor|].
  destruct (f x); constructor; exact IH.
Qed.

Lemma list_filter_idempotent {A} (f : A -> bool) (l : list A) :
  List.filter f (List.filter f l) = List.filter f l.
Proof.
  induction l as [|x l IH]; cbn; [reflexivity|].
  destruct (f x) eqn:Hx; cbn; [rewrite Hx, IH|]; auto.
Qed.

Lemma matches_keyword_iff keywords trend :
  Collectors.matches_keyword (map PyText.lower keywords) trend = true
  <-> exists keyword,
        In keyword keywords
        /\ PyText.contains (PyText.lower keyword)
             (PyText.lower (Collectors.content trend +:+ " " +:+ Collectors.topic trend)) = true.
Proof.
  unfold Collectors.matches_keyword. rewrite existsb_exists. split.
  - intros (k & Hin & Hk). apply in_map_iff in Hin as (k0 & <- & Hin). eauto.
  - intros (k & Hin & Hk). exists (PyText.lower k). split; [apply in_map, Hin|exact Hk].
Qed.

(** X14. [filter_trends_by_keywords] returns its input when no keyword is
    given; otherwise it keeps, in their order, exactly the trends whose
    lowered "content topic" text contains a lowered keyword. Filtering twice
    changes nothing, and neither does the case of the keywords. *)
Theorem filter_by_keywords_selects :
  forall trends keywords,
    let filtered := Collectors.filter_trends_by_keywords trends keywords in
    sublist filtered trends
    /\ (forall trend,
          In trend filtered
          <-> In trend trends
              /\ (keywords = []
                  \/ exists keyword,
                       In keyword keywords
                       /\ PyText.contains (PyText.lower keyword)
                            (PyText.lower (Collectors.content trend +:+ " "
                                           +:+ Collectors.topic trend)) = true))
    /\ Collectors.filter_trends_by_keywords filtered keywords = filtered
    /\ Collectors.filter_trends_by_keywords trends (map PyText.lower keywords) = filtered.
Proof.
  intros trends keywords filtered. subst filtered.
  destruct keywords as [|k keywords].
  - change (Collectors.filter_trends_by_keywords trends []) with trends.
    split; [reflexivity|]. split; [intros trend; tauto|]. split; reflexivity.
  - set (keywords_lower := map PyText.lower (k :: keywords)).
    assert (Hfilter : forall l,
               Collectors.filter_trends_by_keywords l (k :: keywords)
               = List.filter (Collectors.matches_keyword keywords_lower) l)
      by reflexivity.
    rewrite !Hfilter. split; [apply list_filter_sublist|]. split; [|split].
    + intros trend. subst keywords_lower. rewrite filter_In, matches_keyword_iff.
      split; [intros [Hin Hex]; auto|].
      intros [Hin [Hnil|Hex]]; [discriminate|auto].
    + apply list_filter_idempotent.
    + subst keywords_lower. cbn [map]. unfold Collectors.filter_trends_by_keywords.
      cbn [map]. rewrite lower_idempotent, map_map.
      rewrite (map_ext _ PyText.lower); [reflexivity|]. intros a. apply lower_idempotent.
Qed.

(** X15. On Latin-1 text (keywords, contents and topics whose characters
    are all code points below 256, as every [string] of this development
    is), where [str.lower] acts on each character by itself, the keyword
    filter ignores case and looks at content and topic alike: a trend is
    kept as soon as some spelling of one of the keywords, differing from it
    in case only, occurs in its content or in its topic. Beyond Latin-1 this
    fails: a capital sigma is lowered by its position in the word. *)
Theorem keyword_match_ignores_case :
  forall trends keywords keyword spelling trend,
    In trend trends ->
    In keyword keywords ->
    PyText.lower spelling = PyText.lower keyword ->
    PyText.contains spelling (Collectors.content trend) = true
    \/ PyText.contains spelling (Collectors.topic trend) = true ->
    In trend (Collectors.filter_trends_by_keywords trends keywords).
Proof.
  intros trends keywords keyword spelling trend Htrend Hkeyword Hcase Hoccurs.
  destruct keywords as [|k keywords]; [destruct Hkeyword|].
  unfold Collectors.filter_trends_by_keywords.
  rewrite filter_In, matches_keyword_iff. split; [exact Htrend|].
  exists keyword. split; [exact Hkeyword|]. rewrite <- Hcase, !lower_app.
  destruct Hoccurs as [H|H]; apply contains_lower in H.
  - apply contains_app_l, H.
  - apply contains_app_r, contains_app_r, H.
Qed.

Lemma keyword_match_ignores_case_witness :
  let trend := Collectors.mkTrend "hackernews" "Hacker News" "Rocq 9 released" "" 12 [] 0 in
  In trend (Collectors.filter_trends_by_keywords [trend] ["ROCQ"%string; "ocaml"%string]).
Proof.
  intros trend.
  apply (keyword_match_ignores_case [trend] _ "ROCQ" "Rocq" trend).
  - left. reflexivity.
  - left. reflexivity.
  - reflexivity.
  - left. reflexivity.
Defined.

(** ** Collection from all sources *)

Lemma collect_with_timeout_worker {St} (collect_func : M St (list Collectors.RawTrend)) s :
  Collectors._collect_with_timeout Collectors.WorkerThread collect_func s = (Return [], s).
Proof. reflexivity. Qed.

Lemma gather_nothing completed c :
  Forall (fun task => snd task = Return []) completed ->
  forall all_trends, Collectors.gather completed all_trends c = (all_trends, c).
Proof.
  induction 1 as [|[name o] completed Ho _ IH]; intros all_trends; [reflexivity|].
  cbn in Ho. subst o. cbn [Collectors.gather]. apply IH.
Qed.

(** X16. The tasks of [collect_all_trends] run [_collect_with_timeout] in
    the threads of a pool, where installing the alarm handler raises
    [ValueError]: the wrapper answers with the empty list before the
    collection function is called, leaving the state as it is. So whatever
    the collection functions would do, whatever the state each task starts
    from and whichever tasks finish in time, [collect_all_trends] returns no
    trend and counts no error. *)
Theorem pooled_collection_yields_nothing :
  forall (St : Type) (collect_funcs : string -> M St (list Collectors.RawTrend))
         (states : string -> St) now finished c,
    (forall name,
       Collectors._collect_with_timeout Collectors.WorkerThread (collect_funcs name)
                                        (states name)
       = (Return [], states name))
    /\ Collectors.collect_all_trends now
         (fun name => Collectors.submitted (collect_funcs name) (states name)) finished c
       = ([], c).
Proof.
  intros St collect_funcs states now finished c. split; [reflexivity|].
  unfold Collectors.collect_all_trends.
  rewrite gather_nothing; [reflexivity|].
  apply List.Forall_forall. intros task Hin.
  apply in_map_iff in Hin as (name & <- & _). reflexivity.
Qed.

(** In the main thread the wrapper hands on what the collection function
    returns and turns an exception into the empty list. *)
Lemma collect_with_timeout_main {St} (collect_func : M St (list Collectors.RawTrend)) s :
  Collectors._collect_with_timeout Collectors.MainThread collect_func s
  = (match fst (collect_func s) with Return trends => Return trends | Raise _ => Return [] end,
     snd (collect_func s)).
Proof.
  unfold Collectors._collect_with_timeout, Collectors.try_finally, try_except, bind.
  cbn. destruct (collect_func s) as [[trends|e] s']; reflexivity.
Qed.

Lemma gather_trends completed :
  forall all_trends c,
    fst (Collectors.gather completed all_trends c) = all_trends ++ flat_map Collectors.yielded completed.
Proof.
  induction completed as [|[name [trends|e]] completed IH]; intros all_trends c.
  - cbn. rewrite app_nil_r. reflexivity.
  - cbn [Collectors.gather flat_map]. unfold Collectors.yielded at 1. cbn [snd].
    destruct trends as [|t trends]; rewrite IH; [reflexivity|].
    rewrite <- app_assoc. reflexivity.
  - cbn [Collectors.gather flat_map]. rewrite IH. reflexivity.
Qed.

Lemma count_error_effect name c src :
  Collectors.is_available (Collectors.count_error name c) src = Collectors.is_available c src
  /\ Collectors.errors_of c src <= Collectors.errors_of (Collectors.count_error name c) src
  /\ Collectors.last_request_times (Collectors.count_error name c)
     = Collectors.last_request_times c
  /\ Collectors.min_request_intervals (Collectors.count_error name c)
     = Collectors.min_request_intervals c.
Proof.
  unfold Collectors.is_available, Collectors.errors_of, Collectors.count_error,
    Collectors.set_api_status.
  cbn [Collectors.api_status Collectors.last_request_times Collectors.min_request_intervals].
  destruct (decide (name = src)) as [->|Hne].
  - rewrite lookup_alter_eq. destruct (Collectors.api_status c !! src) as [st|]; cbn.
    + repeat split; lia.
    + repeat split; lia.
  - rewrite lookup_alter_ne by exact Hne. repeat split; lia.
Qed.

Lemma gather_collector completed :
  forall all_trends c src,
    let c' := snd (Collectors.gather completed all_trends c) in
    Collectors.is_available c' src = Collectors.is_available c src
    /\ Collectors.errors_of c src <= Collectors.errors_of c' src
    /\ Collectors.last_request_times c' = Collectors.last_request_times c
    /\ Collectors.min_request_intervals c' = Collectors.min_request_intervals c.
Proof.
  induction completed as [|[name [trends|e]] completed IH]; intros all_trends c src.
  - cbn. repeat split; lia.
  - cbn [Collectors.gather]. destruct trends; apply IH.
  - cbn [Collectors.gather].
    destruct (IH all_trends (Collectors.count_error (PyText.lower name) c) src)
      as (Ha & He & Hl & Hm).
    destruct (count_error_effect (PyText.lower name) c src) as (Ha' & He' & Hl' & Hm').
    cbv zeta in *. rewrite Ha, Hl, Hm.
    split; [exact Ha'|split; [lia|split; [exact Hl'|exact Hm']]].
Qed.

Lemma insert_by_engagement_permutation x sorted :
  Collectors.insert_by_engagement x sorted ≡ₚ x :: sorted.
Proof.
  induction sorted as [|y rest IH]; [reflexivity|].
  cbn [Collectors.insert_by_engagement]. destruct (DB.Qltb _ _); [|reflexivity].
  rewrite IH. apply Permutation_swap.
Qed.

Lemma insert_by_engagement_sorted x sorted :
  StronglySorted Collectors.ranked_before sorted ->
  StronglySorted Collectors.ranked_before (Collectors.insert_by_engagement x sorted).
Proof.
  induction 1 as [|y rest Hrest IH Hy]; cbn [Collectors.insert_by_engagement].
  - repeat constructor.
  - destruct (DB.Qltb _ _) eqn:Hlt.
    + apply Qltb_true in Hlt. constructor; [exact IH|].
      rewrite insert_by_engagement_permutation. constructor; [|exact Hy].
      unfold Collectors.ranked_before. lra.
    + apply Qltb_false in Hlt. constructor; [constructor; assumption|].
      constructor; [exact Hlt|].
      eapply List.Forall_impl; [|exact Hy]. unfold Collectors.ranked_before. intros z Hz. lra.
Qed.

Lemma sort_by_engagement_permutation trends :
  Collectors.sort_by_engagement trends ≡ₚ trends.
Proof.
  induction trends as [|x trends IH]; [reflexivity|].
  cbn [Collectors.sort_by_engagement fold_right].
  rewrite insert_by_engagement_permutation. constructor. exact IH.
Qed.

Lemma sort_by_engagement_sorted trends :
  StronglySorted Collectors.ranked_before (Collectors.sort_by_engagement trends).
Proof.
  induction trends as [|x trends IH]; [constructor|].
  apply insert_by_engagement_sorted, IH.
Qed.

Lemma insert_by_engagement_stable q x sorted :
  List.filter (Collectors.scored q) (Collectors.insert_by_engagement x sorted)
  = List.filter (Collectors.scored q) (x :: sorted).
Proof.
  induction sorted as [|y rest IH]; [reflexivity|].
  cbn [Collectors.insert_by_engagement]. destruct (DB.Qltb _ _) eqn:Hlt; [|reflexivity].
  apply Qltb_true in Hlt. cbn [List.filter] in *. rewrite IH.
  destruct (Collectors.scored q x) eqn:Hx, (Collectors.scored q y) eqn:Hy; try reflexivity.
  unfold Collectors.scored in *. apply Qeq_bool_iff in Hx, Hy. lra.
Qed.

Lemma sort_by_engagement_stable q trends :
  List.filter (Collectors.scored q) (Collectors.sort_by_engagement trends)
  = List.filter (Collectors.scored q) trends.
Proof.
  induction trends as [|x trends IH]; [reflexivity|].
  cbn [Collectors.sort_by_engagement fold_right].
  rewrite insert_by_engagement_stable. cbn [List.filter].
  change (fold_right Collectors.insert_by_engagement [] trends)
    with (Collectors.sort_by_engagement trends).
  rewrite IH. reflexivity.
Qed.

Lemma yielded_by_name (results : string -> outcome (list Collectors.RawTrend)) names :
  flat_map Collectors.yielded (map (fun name => (name, results name)) names)
  = flat_map (fun name => match results name with
                          | Return trends => trends
                          | Raise _ => []
                          end) names.
Proof.
  induction names as [|name names IH]; [reflexivity|].
  cbn [map flat_map]. rewrite IH. reflexivity.
Qed.

(** X17. Whatever the futures yield and in whatever order they complete,
    [collect_all_trends] returns the cleaned trends of the tasks that
    returned, a failed task costing nothing but its own trends: the result is
    a rearrangement of the cleaning of their concatenation, in order of
    engagement, the larger first, trends of equal engagement in the order in
    which they were gathered. The task list is never empty (HackerNews is
    always on it), and the loop changes nothing in the collector but error
    counts, which only grow. *)
Theorem collect_all_trends_ranked :
  forall now results finished c,
    let dispatched :=
      List.filter (fun name => existsb (String.eqb name) (Collectors.collection_tasks c))
                  finished in
    let all_trends :=
      flat_map (fun name => match results name with
                            | Return trends => trends
                            | Raise _ => []
                            end) dispatched in
    let cleaned := Collectors._validate_and_clean_trends now all_trends in
    let ranked := fst (Collectors.collect_all_trends now results finished c) in
    let c' := snd (Collectors.collect_all_trends now results finished c) in
    ranked ≡ₚ cleaned
    /\ StronglySorted Collectors.ranked_before ranked
    /\ (forall q, List.filter (Collectors.scored q) ranked = List.filter (Collectors.scored q) cleaned)
    /\ In "HackerNews"%string (Collectors.collection_tasks c)
    /\ (forall src,
          Collectors.is_available c' src = Collectors.is_available c src
          /\ Collectors.errors_of c src <= Collectors.errors_of c' src)
    /\ Collectors.last_request_times c' = Collectors.last_request_times c
    /\ Collectors.min_request_intervals c' = Collectors.min_request_intervals c.
Proof.
  intros now results finished c dispatched all_trends cleaned ranked c'.
  set (completed := map (fun name => (name, results name)) dispatched).
  assert (Hrun : Collectors.collect_all_trends now results finished c
                 = (Collectors.sort_by_engagement
                      (Collectors._validate_and_clean_trends now
                         (fst (Collectors.gather completed [] c))),
                    snd (Collectors.gather completed [] c))).
  { unfold Collectors.collect_all_trends. fold dispatched. fold completed.
    destruct (Collectors.gather completed [] c); reflexivity. }
  assert (Hall : fst (Collectors.gather completed [] c) = all_trends).
  { rewrite gather_trends. cbn [app]. apply yielded_by_name. }
  subst ranked c'. rewrite Hrun, Hall. cbn [fst snd]. fold cleaned.
  split; [apply sort_by_engagement_permutation|].
  split; [apply sort_by_engagement_sorted|].
  split; [intros q; apply sort_by_engagement_stable|].
  split.
  { unfold Collectors.collection_tasks. rewrite !in_app_iff. right. right. right. left.
    reflexivity. }
  pose proof (gather_collector completed [] c) as Hc. cbv zeta in Hc.
  split; [intros src; destruct (Hc src) as (Ha & He & _); split; assumption|].
  destruct (Hc EmptyString) as (_ & _ & Hl & Hm). split; assumption.
Qed.

(** ** From the cleaning to the store *)

Lemma rstrip_head s c r : rstrip s = String c r -> exists s', s = String c s'.
Proof.
  destruct s as [|d s]; cbn; [discriminate|].
  destruct (rstrip s); [destruct (isspace d)|]; intros [= <- _]; eauto.
Qed.

Lemma lstrip_head s c r : lstrip s = String c r -> isspace c = false.
Proof.
  induction s as [|d s IH]; cbn; [discriminate|].
  destruct (isspace d) eqn:Hd; [exact IH|]. intros [= <- _]. exact Hd.
Qed.

Lemma strip_head s c r : strip s = String c r -> isspace c = false.
Proof.
  unfold strip. intros H. destruct (rstrip_head _ _ _ H) as [s' Hs'].
  eapply lstrip_head, Hs'.
Qed.

Lemma strip_keeps_head c s : isspace c = false -> strip (String c s) <> EmptyString.
Proof.
  intros Hc. unfold strip. cbn [lstrip]. rewrite Hc. cbn [rstrip].
  destruct (rstrip s); [rewrite Hc|]; discriminate.
Qed.

Lemma strip_of_strip_empty s : strip (strip s) = EmptyString <-> strip s = EmptyString.
Proof.
  split; [|intros ->; reflexivity].
  destruct (strip s) as [|c r] eqn:Hs; [reflexivity|].
  intros H. exfalso. revert H. apply strip_keeps_head. eapply strip_head, Hs.
Qed.

Lemma clean_trend_shape now trend cleaned :
  Collectors.clean_trend now trend = Return (Some cleaned) ->
  (exists s, Collectors.source cleaned = strip s)
  /\ strip (Collectors.topic cleaned) <> EmptyString.
Proof.
  intros Hclean. destruct (clean_trend_bounds _ _ _ Hclean) as ([Htop2 _] & _).
  unfold Collectors.clean_trend in Hclean.
  destruct (_ || _); [discriminate|].
  destruct (Collectors.float_of_score _); [|discriminate].
  destruct (2 <=? _); [|discriminate]. injection Hclean as <-.
  cbn [Collectors.topic Collectors.source] in *.
  split; [eexists; reflexivity|].
  destruct (strip (default EmptyString (Collectors.raw_topic trend))) as [|c r] eqn:Hs.
  - exfalso. revert Htop2. change (slice_to 200 EmptyString) with EmptyString.
    change (len EmptyString) with 0. lia.
  - apply strip_head in Hs. change (slice_to 200 (String c r)) with (String c (slice_to 199 r)).
    apply strip_keeps_head, Hs.
Qed.

Lemma clean_trend_accepted now trend cleaned :
  Collectors.clean_trend now trend = Return (Some cleaned) ->
  (DB.input_accepted (Collectors.source cleaned) (Collectors.topic cleaned)
                     (Collectors.engagement_score cleaned) = true
   <-> Collectors.source cleaned <> EmptyString /\ len (Collectors.source cleaned) <= 50).
Proof.
  intros Hclean. destruct (clean_trend_bounds _ _ _ Hclean) as ([Htop2 Htop200] & Hscore & _).
  destruct (clean_trend_shape _ _ _ Hclean) as ([s Hs] & Htopic).
  rewrite input_accepted_iff, Hs, strip_of_strip_empty. tauto.
Qed.

(** X18. What the store's validation can still object to in a trend that
    went through [_validate_and_clean_trends] is its source alone: a cleaned
    trend passes the five checks of [_validate_trend_input] exactly when its
    source is not empty and has at most 50 characters. Its topic and its
    engagement score always pass. *)
Theorem cleaned_trend_accepted_by_store :
  forall now trends cleaned,
    In cleaned (Collectors._validate_and_clean_trends now trends) ->
    DB.input_accepted (Collectors.source cleaned) (Collectors.topic cleaned)
                      (Collectors.engagement_score cleaned) = true
    <-> Collectors.source cleaned <> EmptyString /\ len (Collectors.source cleaned) <= 50.
Proof.
  intros now trends cleaned Hin.
  pose proof (clean_loop_invariant
                (fun cleaned =>
                   exists trend, Collectors.clean_trend now trend = Return (Some cleaned))
                now (fun trend cleaned H => ex_intro _ trend H) trends [] (List.Forall_nil _)) as Hall.
  rewrite List.Forall_forall in Hall. destruct (Hall cleaned Hin) as [trend Hclean].
  eapply clean_trend_accepted, Hclean.
Qed.

Lemma cleaned_trend_accepted_by_store_witness :
  let long_name := "a source whose name is longer than fifty characters"%string in
  let raw source :=
    Collectors.mkRawTrend (Some source) (Some "AI news"%string) None None
                          (Collectors.ScoreNumber 5) None in
  map (fun cleaned =>
         DB.input_accepted (Collectors.source cleaned) (Collectors.topic cleaned)
                           (Collectors.engagement_score cleaned))
      (Collectors._validate_and_clean_trends 0 [raw "reddit"%string; raw " "%string; raw long_name])
  = [true; false; false]
  /\ exists cleaned,
       In cleaned (Collectors._validate_and_clean_trends 0 [raw "reddit"%string])
       /\ DB.input_accepted (Collectors.source cleaned) (Collectors.topic cleaned)
                            (Collectors.engagement_score cleaned) = true.
Proof.
  intros long_name raw. split; [vm_compute; reflexivity|].
  eexists. split; [left; reflexivity|].
  apply (cleaned_trend_accepted_by_store 0 [raw "reddit"%string]); [left; reflexivity|].
  split; [discriminate|]. vm_compute. discriminate.
Defined.

(** ** Bounds on the wait of the rate limiter *)

(** X19. [_rate_limit_check] never sets the clock back, lets the caller
    through no earlier than one interval after the last request of the source
    and no later than five seconds after that (or at once, when the caller
    arrives later than that). When the interval has elapsed it does not
    sleep; with no error on record it waits for the end of the interval
    exactly. It sleeps at most once and stamps the source alone. *)
Theorem gate_wait_bounds :
  forall src p,
    let c := Collectors.collector p in
    let last := default 0%Q (Collectors.last_request_times c !! src) in
    let interval := default 1%Q (Collectors.min_request_intervals c !! src) in
    let p' := Collectors._rate_limit_check src p in
    (Collectors.clock p <= Collectors.clock p')%Q
    /\ (last + interval <= Collectors.clock p')%Q
    /\ (Collectors.clock p' <= Qmax (Collectors.clock p) (last + interval + 5))%Q
    /\ ((last + interval <= Collectors.clock p)%Q ->
        Collectors.clock p' = Collectors.clock p
        /\ Collectors.slept p' = Collectors.slept p)
    /\ (Collectors.errors_of c src <= 0 ->
        (Collectors.clock p' == Qmax (Collectors.clock p) (last + interval))%Q)
    /\ (Collectors.slept p' = Collectors.slept p
        \/ exists d, (0 < d)%Q /\ Collectors.slept p' = Collectors.slept p ++ [d]
                     /\ (Collectors.clock p' == Collectors.clock p + d)%Q)
    /\ (forall other, other <> src ->
          Collectors.last_request_times (Collectors.collector p') !! other
          = Collectors.last_request_times c !! other).
Proof.
  intros src p c last interval p'. subst p'.
  unfold Collectors._rate_limit_check, Collectors.set_last_request_time, Collectors.time_time,
    Collectors.errors_of.
  fold c. fold last. fold interval.
  set (errors := default 0 (Collectors.error_count <$> Collectors.api_status c !! src)).
  assert (Hcap : (Collectors.adaptive_delay errors <= 5)%Q) by apply Q.le_min_r.
  destruct (DB.Qltb (Collectors.clock p - last) interval) eqn:Hlt.
  - apply Qltb_true in Hlt.
    destruct (Z.ltb_spec 0 errors) as [Herr|Herr];
      cbn [Collectors.clock Collectors.slept Collectors.time_sleep Collectors.collector
           Collectors.last_request_times].
    + pose proof (adaptive_delay_nonneg errors Herr) as Hpos.
      repeat apply conj.
      * lra.
      * lra.
      * apply Qle_trans with (last + interval + 5)%Q; [lra|apply Q.le_max_r].
      * intros H. lra.
      * intros H. lia.
      * right. eexists. split; [|split; [reflexivity|reflexivity]]. lra.
      * intros other Hother. apply lookup_insert_ne. congruence.
    + repeat apply conj.
      * lra.
      * lra.
      * apply Qle_trans with (last + interval + 5)%Q; [lra|apply Q.le_max_r].
      * intros H. lra.
      * intros _. rewrite Q.max_r by lra. ring.
      * right. eexists. split; [|split; [reflexivity|reflexivity]]. lra.
      * intros other Hother. apply lookup_insert_ne. congruence.
  - apply Qltb_false in Hlt.
    cbn [Collectors.clock Collectors.slept Collectors.collector
         Collectors.last_request_times].
    repeat apply conj.
    + lra.
    + lra.
    + apply Q.le_max_l.
    + intros _. split; reflexivity.
    + intros _. rewrite Q.max_l by lra. reflexivity.
    + left. reflexivity.
    + intros other Hother. apply lookup_insert_ne. congruence.
Qed.

(** ** What a batch leaves in the store *)

Lemma run_inserts_rows trends :
  forall w,
    exists new_rows,
      DB.trend_data (DB.disk (snd (Main.run_inserts trends w)))
      = DB.trend_data (DB.disk w) ++ new_rows
      /\ Z.of_nat (length new_rows) = Main.count_stored (fst (Main.run_inserts trends w))
      /\ Main.count_returned (fst (Main.run_inserts trends w))
         = Main.count_stored (fst (Main.run_inserts trends w))
           + Main.count_skipped (fst (Main.run_inserts trends w))
      /\ Forall (fun r => exists trend, In trend trends /\ Main.row_of trend r) new_rows
      /\ DB.trend_analysis (DB.disk (snd (Main.run_inserts trends w)))
         = DB.trend_analysis (DB.disk w)
      /\ DB.published_content (DB.disk (snd (Main.run_inserts trends w)))
         = DB.published_content (DB.disk w).
Proof.
  induction trends as [|trend rest IH]; intros w.
  - exists []. cbn. rewrite app_nil_r. repeat split; constructor.
  - cbn [Main.run_inserts].
    pose proof (insert_trend_data_effect w (Collectors.source trend) (Collectors.topic trend)
                  (Some (Collectors.content trend)) (Some (Collectors.url trend))
                  (Collectors.engagement_score trend) (Collectors.metadata trend)) as Heff.
    fold (Main.insert_trend trend) in Heff.
    destruct (Main.insert_trend trend w) as [o w'] eqn:Hins. cbn [fst snd] in Heff.
    destruct (IH w') as (rows & Hrows & Hlen & Hcount & Hfrom & Han & Hpub).
    destruct (Main.run_inserts rest w') as [os w''] eqn:Hrun. cbn [fst snd] in *.
    assert (Hrest : Forall (fun r => exists t, In t (trend :: rest) /\ Main.row_of t r) rows).
    { eapply List.Forall_impl; [|exact Hfrom]. intros r (t & Hin & Hr). exists t.
      split; [right; exact Hin|exact Hr]. }
    unfold Main.count_stored, Main.count_skipped in *.
    rewrite count_returned_cons. cbn [List.filter].
    unfold DB.insert_effect in Heff. destruct o as [[trend_id|]|e]; [| destruct Heff |].
    + destruct Heff as [_ [[-> Hdb]|[-> [now Hdb]]]].
      * exists rows. rewrite <- Hdb. cbn [raised Main.is_stored Main.is_skipped].
        change (0 <? -1) with false. change (-1 =? -1) with true. cbn [length].
        repeat split; try assumption. lia.
      * eexists (_ :: rows).
        pose proof (next_rowid_positive (DB.disk w)) as Hpos.
        cbn [raised Main.is_stored Main.is_skipped].
        replace (0 <? DB.next_rowid (DB.disk w)) with true by (symmetry; apply Z.ltb_lt; lia).
        replace (DB.next_rowid (DB.disk w) =? -1) with false by (symmetry; apply Z.eqb_neq; lia).
        rewrite Hrows, Han, Hpub, Hdb. cbn [DB.with_new_row DB.trend_data DB.trend_analysis
                                            DB.published_content length].
        rewrite <- app_assoc. cbn [app].
        split; [reflexivity|]. split; [lia|]. split; [lia|].
        split; [|split; reflexivity].
        constructor; [|exact Hrest]. exists trend. split; [left; reflexivity|].
        repeat split.
    + exists rows. rewrite <- Heff. cbn [raised Main.is_stored Main.is_skipped].
      repeat split; try assumption; lia.
Qed.

Lemma batch_run_rows :
  forall trends w,
    let r := Main.batch_run trends w in
    exists new_rows,
      fst (Main._store_trends_batch trends w) = Return (Main.stored_count r)
      /\ DB.trend_data (DB.disk (snd (Main._store_trends_batch trends w)))
         = DB.trend_data (DB.disk w) ++ new_rows
      /\ Z.of_nat (length new_rows) = Main.count_stored (Main.attempted r)
      /\ Main.stored_count r
         = Z.of_nat (length new_rows) + Main.count_skipped (Main.attempted r)
      /\ Main.stored_count r + Main.failed_count r <= Z.of_nat (length trends)
      /\ Forall (fun row => exists trend, In trend trends /\ Main.row_of trend row) new_rows
      /\ DB.trend_analysis (DB.disk (Main.world r)) = DB.trend_analysis (DB.disk w)
      /\ DB.published_content (DB.disk (Main.world r)) = DB.published_content (DB.disk w).
Proof.
  intros trends w r.
  assert (Hfew : Main.too_many_failures 0 (Z.of_nat (length trends)) = false)
    by (apply too_many_failures_not; lia).
  destruct (store_loop_spec (Z.of_nat (length trends)) trends 0 0 [] w Hfew)
    as (k & Hk & Hatt & Hw & Hst & Hfl & _).
  change (Main.store_loop (Z.of_nat (length trends)) trends 0 0 [] w) with r
    in Hatt, Hw, Hst, Hfl.
  cbn [app] in Hatt.
  destruct (run_inserts_rows (firstn k trends) w)
    as (new_rows & Hrows & Hlen & Hcount & Hfrom & Han & Hpub).
  rewrite <- Hatt, <- Hw in *.
  exists new_rows. split; [reflexivity|]. split; [exact Hrows|]. split; [exact Hlen|].
  split; [lia|]. split.
  { rewrite Hst, Hfl. unfold Main.count_returned, Main.count_raised.
    assert (Hlenk : length (Main.attempted r) = length (firstn k trends)).
    { rewrite Hatt. clear. generalize (firstn k trends) as l. intros l. revert w.
      induction l as [|t l IH]; intros w; [reflexivity|].
      cbn [Main.run_inserts]. destruct (Main.insert_trend t w) as [o w'].
      specialize (IH w'). destruct (Main.run_inserts l w') as [os w'']. cbn in *. lia. }
    rewrite length_firstn in Hlenk.
    pose proof (List.filter_length raised (Main.attempted r)) as Hsplit.
    lia. }
  split; [|split; assumption].
  eapply List.Forall_impl; [|exact Hfrom]. intros row (trend & Hin & Hrow).
  exists trend. split; [|exact Hrow]. eapply In_firstn_In, Hin.
Qed.

(** X20. The store after [_store_trends_batch] is the store before with one
    row appended for every insert that was answered with a new row id,
    holding the fields of a trend of the batch; the other tables are
    untouched. The number the batch returns is the number of those rows plus
    the number of items the store skipped as duplicates. *)
Theorem batch_adds_one_row_per_new_id :
  forall trends w,
    let r := Main.batch_run trends w in
    exists new_rows,
      fst (Main._store_trends_batch trends w) = Return (Main.stored_count r)
      /\ DB.trend_data (DB.disk (snd (Main._store_trends_batch trends w)))
         = DB.trend_data (DB.disk w) ++ new_rows
      /\ Z.of_nat (length new_rows) = Main.count_stored (Main.attempted r)
      /\ Main.stored_count r
         = Z.of_nat (length new_rows) + Main.count_skipped (Main.attempted r)
      /\ Main.stored_count r + Main.failed_count r <= Z.of_nat (length trends)
      /\ Forall (fun row => exists trend, In trend trends /\ Main.row_of trend row) new_rows
      /\ DB.trend_analysis (DB.disk (Main.world r)) = DB.trend_analysis (DB.disk w)
      /\ DB.published_content (DB.disk (Main.world r)) = DB.published_content (DB.disk w).
Proof. exact batch_run_rows. Qed.

(** ** A collection cycle *)

(** X21. What the result of [collect_trends] says about the store: a result
    that is no success leaves the store and the success counter as they
    were and reports a count of 0; a success means that the pre-flight checks
    passed and that at least one trend was collected, not that one was
    stored: the rows appended to the store are the reported count less the
    items skipped as duplicates, which is at most the number collected. The
    two counters never go down and at most one of them goes up, by one. *)
Theorem collect_trends_report :
  forall pre_flight collected bot,
    let r := fst (Main.collect_trends pre_flight collected bot) in
    let bot' := snd (Main.collect_trends pre_flight collected bot) in
    (Main.success r = true
     <-> pre_flight = true /\ exists trends, collected = Return trends /\ trends <> [])
    /\ (Main.success r = false ->
        Main.count r = 0 /\ Main.database bot' = Main.database bot
        /\ Main.success_count bot' = Main.success_count bot)
    /\ (Main.success r = true ->
        exists trends new_rows,
          collected = Return trends
          /\ Main.collected_count r = Some (Z.of_nat (length trends))
          /\ DB.trend_data (DB.disk (Main.database bot'))
             = DB.trend_data (DB.disk (Main.database bot)) ++ new_rows
          /\ Z.of_nat (length new_rows) <= Main.count r <= Z.of_nat (length trends)
          /\ Main.count r - Z.of_nat (length new_rows)
             = Main.count_skipped (Main.attempted (Main.batch_run trends (Main.database bot)))
          /\ Main.success_count bot' = Main.success_count bot + 1
          /\ Main.error_count bot' = Main.error_count bot)
    /\ Main.error_count bot <= Main.error_count bot'
    /\ Main.success_count bot <= Main.success_count bot'
    /\ Main.error_count bot' + Main.success_count bot'
       <= Main.error_count bot + Main.success_count bot + 1.
Proof.
  intros pre_flight collected bot r bot'. subst r bot'.
  unfold Main.collect_trends.
  destruct pre_flight; cbn [negb].
  2:{ cbn. split; [split; [discriminate|intros [? _]; discriminate]|].
      split; [auto|]. split; [discriminate|]. lia. }
  destruct collected as [[|trend trends]|e].
  - cbn. split; [split; [discriminate|intros [_ (ts & [= <-] & Hne)]; congruence]|].
    split; [auto|]. split; [discriminate|]. lia.
  - destruct (batch_run_rows (trend :: trends) (Main.database bot))
      as (new_rows & Hret & Hrows & Hlen & Hcount & Hbound & _).
    cbv zeta in Hcount, Hbound, Hret.
    set (run := Main.batch_run (trend :: trends) (Main.database bot)) in *.
    destruct (Main._store_trends_batch (trend :: trends) (Main.database bot)) as [o w] eqn:Hb.
    cbn [fst snd] in Hret, Hrows. subst o.
    cbn [fst snd Main.success Main.count Main.collected_count Main.database
         Main.success_count Main.error_count].
    split; [split; [intros _; split; [reflexivity|eexists; split; [reflexivity|discriminate]]
                   |reflexivity]|].
    split; [discriminate|].
    split.
    { intros _. exists (trend :: trends), new_rows.
      assert (0 <= Main.count_skipped (Main.attempted run))
        by (unfold Main.count_skipped; lia).
      assert (0 <= Main.failed_count run).
      { subst run. clear.
        assert (Hgen : forall size todo stored failed done w,
                   0 <= failed ->
                   0 <= Main.failed_count (Main.store_loop size todo stored failed done w)).
        { intros size todo. induction todo as [|t todo IH]; intros stored failed done w Hf;
            cbn [Main.store_loop]; [exact Hf|].
          destruct (Main.insert_trend t w) as [[v|e] w']; [apply IH, Hf|].
          destruct (Main.too_many_failures _ _); [cbn; lia|apply IH; lia]. }
        apply Hgen. lia. }
      fold run. repeat apply conj; try reflexivity; try assumption; lia. }
    lia.
  - cbn. split; [split; [discriminate|intros [_ (ts & [=] & _)]]|].
    split; [auto|]. split; [discriminate|]. lia.
Qed.

(** X22. A collection cycle as the bot runs it: the collection functions
    being run by the threads of the pool of [collect_all_trends], the list
    that reaches [collect_trends] is empty, so that the cycle ends with
    'No trends collected', stores nothing and moves no counter, whatever the
    sources would have answered. *)
Theorem collection_cycle_stores_nothing :
  forall (St : Type) (collect_funcs : string -> M St (list Collectors.RawTrend))
         (states : string -> St) now finished c bot,
    let trends_data :=
      fst (Collectors.collect_all_trends now
             (fun name => Collectors.submitted (collect_funcs name) (states name))
             finished c) in
    Main.collect_trends true (Return trends_data) bot
    = (Main.mkResult false "No trends collected" 0 None, bot).
Proof.
  intros St collect_funcs states now finished c bot trends_data.
  assert (Hnone : trends_data = []).
  { subst trends_data. unfold Collectors.collect_all_trends.
    rewrite gather_nothing; [reflexivity|].
    apply List.Forall_forall. intros task Hin.
    apply in_map_iff in Hin as (name & <- & _). reflexivity. }
  rewrite Hnone. reflexivity.
Qed.

(** ** The key of the duplicate check *)

Lemma string_app_assoc (a b c : string) : (a +:+ b) +:+ c = a +:+ (b +:+ c).
Proof.
  induction a as [|x a IH]; [reflexivity|].
  change (String x ((a +:+ b) +:+ c) = String x (a +:+ (b +:+ c))).
  rewrite IH. reflexivity.
Qed.

Lemma content_str_colon a b c con :
  DB.content_str (a +:+ ":" +:+ b) c con = DB.content_str a (b +:+ ":" +:+ c) con.
Proof. unfold DB.content_str. rewrite !string_app_assoc. reflexivity. Qed.

(** X23. The duplicate check keys a trend by the text
    "source:topic:content" alone. Once a trend is stored (a valid trend that
    satisfies the CHECK constraints of the table, its source and topic not
    beginning with a NUL character, on a working storage that holds no recent
    copy of it), every valid trend whose text is the same is answered with
    -1 for the next 24 hours and never stored, also when it is another
    trend: one whose source, topic and content divide the same text at
    another colon, or one with no content where the stored one has the empty
    content, whatever their url, engagement score and metadata. *)
Theorem other_trend_taken_for_duplicate :
  forall w src top con u score md src2 top2 con2,
    DB.content_str src2 top2 con2 = DB.content_str src top con ->
    DB.input_accepted src top score = true ->
    DB.check_constraints src top score = true ->
    DB.io_faults w = [] ->
    DB.has_recent_duplicate w (DB._generate_content_hash src top con) = false ->
    exists id1 w1,
      DB.insert_trend_data src top con u score md w = (Return (Some id1), w1)
      /\ 0 < id1
      /\ (forall w2 u2 score2 md2,
            DB.disk w2 = DB.disk w1 -> DB.io_faults w2 = [] ->
            DB.input_accepted src2 top2 score2 = true ->
            DB.sqlite_now w2 < DB.sqlite_now w + 86400 ->
            DB.insert_trend_data src2 top2 con2 u2 score2 md2 w2 = (Return (Some (-1)), w2))
      /\ (forall a b c content,
            DB.content_str (a +:+ ":" +:+ b) c content
            = DB.content_str a (b +:+ ":" +:+ c) content)
      /\ (forall a b, DB.content_str a b None = DB.content_str a b (Some EmptyString)).
Proof.
  intros w src top con u score md src2 top2 con2 Hkey Hok Hcheck Hio Hdup.
  eexists _, _. split; [apply insert_stores; assumption|].
  split; [apply next_rowid_positive|].
  split; [|split; [intros; apply content_str_colon|reflexivity]].
  intros w2 u2 score2 md2 Hdisk Hio2 Hok2 Hnow.
  apply insert_duplicate; try assumption.
  unfold DB._generate_content_hash. rewrite Hkey.
  unfold DB.has_recent_duplicate. rewrite Hdisk. cbn.
  rewrite existsb_app. cbn. unfold DB.is_recent_duplicate at 2. cbn.
  unfold DB._generate_content_hash. rewrite String.eqb_refl.
  replace (DB.sqlite_now w2 - 86400 <? DB.sqlite_now w) with true
    by (symmetry; apply Z.ltb_lt; lia).
  cbn. apply orb_true_r.
Qed.

Lemma other_trend_taken_for_duplicate_witness :
  let w := DB.world_at 1000 DB.empty_database in
  exists id1 w1,
    DB.insert_trend_data "reddit" "r/rust: async" (Some "traits"%string) None 7 [] w
    = (Return (Some id1), w1)
    /\ DB.insert_trend_data "reddit:r/rust" " async" (Some "traits"%string) None 9 []
         (DB.elapse 3600 w1)
       = (Return (Some (-1)), DB.elapse 3600 w1).
Proof.
  intros w.
  destruct (other_trend_taken_for_duplicate w "reddit" "r/rust: async" (Some "traits"%string)
              None 7 [] "reddit:r/rust" " async" (Some "traits"%string))
    as (id1 & w1 & Hfirst & _ & Hsecond & _).
  - reflexivity.
  - reflexivity.
  - reflexivity.
  - reflexivity.
  - reflexivity.
  - exists id1, w1. split; [exact Hfirst|].
    assert (Hw1 : w1 = snd (DB.insert_trend_data "reddit" "r/rust: async"
                               (Some "traits"%string) None 7 [] w))
      by (rewrite Hfirst; reflexivity).
    apply Hsecond.
    + reflexivity.
    + rewrite Hw1. vm_compute. reflexivity.
    + reflexivity.
    + rewrite Hw1. vm_compute. reflexivity.
Defined.

(** ** Optimizing the store *)

(** X24. [optimize_database] never raises and never changes a row: it
    answers with success when its three statements run, and with the text of
    the first failure otherwise, which the connection counts as one error. *)
Theorem optimize_database_never_raises :
  forall w,
    exists r,
      fst (DB.optimize_database w) = Return r
      /\ DB.disk (snd (DB.optimize_database w)) = DB.disk w
      /\ (DB.success r = true
          <-> Forall (fun fault => fault = None) (firstn 3 (DB.io_faults w)))
      /\ (DB.success r = true ->
          DB.error r = None
          /\ DB.error_count (snd (DB.optimize_database w)) = DB.error_count w)
      /\ (DB.success r = false ->
          DB.error_count (snd (DB.optimize_database w)) = S (DB.error_count w)
          /\ exists f before,
               DB.error r = Some (exn_msg (DB.exn_of_fault f))
               /\ Forall (fun fault => fault = None) before
               /\ before ++ [Some f] `prefix_of` firstn 3 (DB.io_faults w)).
Proof.
  intros [clock slept disk faults errors queries].
  assert (Hnone : @None DB.Fault = None) by reflexivity.
  destruct faults as [|[f1|] [|[f2|] [|[f3|] rest]]]; eexists;
    (split; [reflexivity|]); (split; [reflexivity|]);
    cbn [DB.success DB.error DB.error_count DB.io_faults DB.optimize_database firstn fst snd].
  all: split; [split; [intros H; try discriminate H; repeat constructor
                      |intros H; try reflexivity;
                       repeat match goal with
                              | H : Forall _ (_ :: _) |- _ =>
                                  let H1 := fresh in let H2 := fresh in
                                  apply Forall_cons in H as [H1 H2]; try discriminate H1
                              end]|].
  all: split; [intros H; first [discriminate H|split; reflexivity]|].
  all: intros H; first [discriminate H|split; [reflexivity|]].
  all: first
         [ eexists _, []; split; [reflexivity|];
           split; [repeat constructor|]; eexists; reflexivity
         | eexists _, [None]; split; [reflexivity|];
           split; [repeat constructor|]; eexists; reflexivity
         | eexists _, [None; None]; split; [reflexivity|];
           split; [repeat constructor|]; eexists; reflexivity ].
Qed.

(** ** The cleanup job of the bot *)

(** X25. The cleanup of the bot never raises and never removes a record
    of the store. With a working storage it reaches the cleanup of the
    visualization files exactly when no record is past its retention; as
    soon as there is a record to remove, the failure of the store's cleanup
    is swallowed and the files are left as they are. *)
Theorem bot_cleanup_swallows_failure :
  forall (V : Type) (cleanup_old_visualizations : Z -> V -> V) days w v,
    let r := Main.cleanup_old_data cleanup_old_visualizations days (w, v) in
    fst r = Return tt
    /\ DB.disk (fst (snd r)) = DB.disk w
    /\ (snd (snd r) = v \/ snd (snd r) = cleanup_old_visualizations (days / 4) v)
    /\ (DB.io_faults w = [] ->
        (0 < DB.old_trend_data days w \/ 0 < DB.old_trend_analysis days w
         \/ 0 < DB.old_published_content days w ->
         snd (snd r) = v)
        /\ (DB.old_trend_data days w <= 0 /\ DB.old_trend_analysis days w <= 0
            /\ DB.old_published_content days w <= 0 ->
            snd (snd r) = cleanup_old_visualizations (days / 4) v)).
Proof.
  intros V cleanup_old_visualizations days w v r. subst r.
  pose proof (cleanup_body_keeps (DB.disk w) days w eq_refl) as Hdisk.
  unfold Main.cleanup_old_data, try_except.
  split; [destruct (DB.cleanup_old_data days w) as [[stats|e] w']; reflexivity|].
  split; [destruct (DB.cleanup_old_data days w) as [[stats|e] w']; exact Hdisk|].
  split; [destruct (DB.cleanup_old_data days w) as [[stats|e] w']; cbn; auto|].
  intros Hio.
  destruct ((0 <? DB.old_trend_data days w) || (0 <? DB.old_trend_analysis days w)
            || (0 <? DB.old_published_content days w)) eqn:Hold.
  - rewrite (cleanup_no_fault w days Hio Hold). cbn. split; [reflexivity|].
    intros (H1 & H2 & H3). exfalso.
    apply orb_true_iff in Hold as [Hold|Hold];
      [apply orb_true_iff in Hold as [Hold|Hold]|]; apply Z.ltb_lt in Hold; lia.
  - destruct (cleanup_nothing_old w days Hio Hold) as (w' & -> & _). cbn.
    split; [|reflexivity]. intros H. exfalso.
    apply orb_false_iff in Hold as [Hold H3]. apply orb_false_iff in Hold as [H1 H2].
    apply Z.ltb_ge in H1, H2, H3. lia.
Qed.
